(** * CRS course patcher: a shallow embedding of [crs_patcher.py]

    The archive is a byte buffer ([list byte]); offsets and lengths are
    [nat]; Python integers that are packed into bytes are [Z].  Python
    exceptions are values of [result]. *)

From Stdlib Require Import Strings.String Strings.Byte.
From Stdlib Require Import List Arith Lia ZArith Bool Sorted.
Import ListNotations.
Local Open Scope list_scope.

(** ** Exceptions *)

Inductive error : Set :=
  | OverflowError        (* int.to_bytes: value negative or too big *)
  | IndexError           (* item assignment out of range *)
  | ValueError           (* bytes([n]) with n > 255 *)
  | UnicodeEncodeError   (* str.encode('ascii') on a non-ASCII character *)
  | OutOfFuel.           (* a loop of the model ran out of fuel *)

Inductive result (A : Type) : Type :=
  | Ok (a : A)
  | Raise (e : error).
Arguments Ok {A} a.
Arguments Raise {A} e.

Definition bind {A B : Type} (m : result A) (k : A -> result B) : result B :=
  match m with
  | Ok a => k a
  | Raise e => Raise e
  end.

Notation "x <- m ;; k" := (bind m (fun x => k))
  (at level 61, m at next level, right associativity).

(** ** Python built-ins on byte sequences *)

Module Py.

Section Sequences.
Context {A : Type}.

(** [l[s:e]] for non-negative [s], [e]. *)
Definition slice (l : list A) (s e : nat) : list A :=
  firstn (e - s) (skipn s l).

(** [del l[s:e]]. *)
Definition del_slice (l : list A) (s e : nat) : list A :=
  firstn s l ++ skipn (Nat.max s e) l.

(** [l[s:e] = v]. *)
Definition set_slice (l : list A) (s e : nat) (v : list A) : list A :=
  firstn s l ++ v ++ skipn (Nat.max s e) l.

(** [l[i] = v]. *)
Definition set_item (l : list A) (i : nat) (v : A) : result (list A) :=
  if i <? length l then Ok (firstn i l ++ v :: skipn (S i) l)
  else Raise IndexError.

Definition is_empty (l : list A) : bool :=
  match l with [] => true | _ => false end.
End Sequences.

Fixpoint bytes_eqb (a b : list byte) : bool :=
  match a, b with
  | [], [] => true
  | x :: a', y :: b' => Byte.eqb x y && bytes_eqb a' b'
  | _, _ => false
  end.

Fixpoint starts_with (sub l : list byte) : bool :=
  match sub, l with
  | [], _ => true
  | _ :: _, [] => false
  | x :: sub', y :: l' => Byte.eqb x y && starts_with sub' l'
  end.

Fixpoint find_aux (sub l : list byte) (i : nat) : option nat :=
  if starts_with sub l then Some i
  else match l with
       | [] => None
       | _ :: l' => find_aux sub l' (S i)
       end.

(** [data.find(sub, start)]: lowest index at or after [start] where [sub]
    occurs; [None] is Python's -1. *)
Definition find (data sub : list byte) (start : nat) : option nat :=
  if start <=? length data then find_aux sub (skipn start data) start
  else None.

(** [sub in data]. *)
Definition contains (sub data : list byte) : bool :=
  match find data sub 0 with Some _ => true | None => false end.

Definition byte_of_Z (v : Z) : byte :=
  match Byte.of_N (Z.to_N (v mod 256)) with
  | Some b => b
  | None => x00
  end.

Fixpoint le_bytes (n : nat) (v : Z) : list byte :=
  match n with
  | 0 => []
  | S n' => byte_of_Z v :: le_bytes n' (v / 256)
  end.

(** [v.to_bytes(n, byteorder='little')]. *)
Definition to_bytes (n : nat) (v : Z) : result (list byte) :=
  if (0 <=? v)%Z && (v <? 256 ^ Z.of_nat n)%Z then Ok (le_bytes n v)
  else Raise OverflowError.

(** [int.from_bytes(b, 'little')]. *)
Fixpoint from_bytes (b : list byte) : Z :=
  match b with
  | [] => 0%Z
  | x :: b' => (Z.of_N (Byte.to_N x) + 256 * from_bytes b')%Z
  end.

(** [b.split(b'\x20', 1)[0]]. *)
Fixpoint split_space_first (b : list byte) : list byte :=
  match b with
  | [] => []
  | x :: b' => if Byte.eqb x x20 then [] else x :: split_space_first b'
  end.

(** [b.decode('ascii', errors='ignore')]; a [str] of ASCII characters is
    kept as the list of its code points. *)
Definition decode_ascii_ignore (b : list byte) : list byte :=
  filter (fun x => (Byte.to_N x <? 128)%N) b.

Definition upper_char (c : byte) : byte :=
  let n := Byte.to_N c in
  if (97 <=? n)%N && (n <=? 122)%N then byte_of_Z (Z.of_N n - 32)%Z else c.

(** [s.upper()] on an ASCII string. *)
Definition upper (s : list byte) : list byte := map upper_char s.

(** [s.encode('ascii')] for a string kept as code points below 256. *)
Definition encode_ascii (s : list byte) : result (list byte) :=
  if forallb (fun x => (Byte.to_N x <? 128)%N) s then Ok s
  else Raise UnicodeEncodeError.

(** [bytes([n])]. *)
Definition bytes_of_int (n : nat) : result (list byte) :=
  if n <? 256 then Ok [byte_of_Z (Z.of_nat n)] else Raise ValueError.

(** *** [datetime] *)

Record datetime : Set := mkDatetime {
  year : Z; month : Z; day : Z; hour : Z; minute : Z; second : Z
}.

Definition is_leap (y : Z) : bool :=
  ((y mod 4 =? 0) && (negb (y mod 100 =? 0) || (y mod 400 =? 0)))%Z.

Definition days_in_month (y m : Z) : Z :=
  if (m =? 2)%Z then (if is_leap y then 29 else 28)
  else if ((m =? 4) || (m =? 6) || (m =? 9) || (m =? 11))%Z then 30
  else 31.

Definition next_day (d : Z * Z * Z) : Z * Z * Z :=
  let '(y, m, dd) := d in
  if (dd <? days_in_month y m)%Z then (y, m, dd + 1)%Z
  else if (m <? 12)%Z then (y, m + 1, 1)%Z
  else (y + 1, 1, 1)%Z.

(** [dt + timedelta(seconds=delta)] for a non-negative [delta]: the time
    of day is advanced and whole days carry into the calendar date;
    years after 9999 overflow. *)
Definition datetime_add (dt : datetime) (delta : Z) : result datetime :=
  let total := (hour dt * 3600 + minute dt * 60 + second dt + delta)%Z in
  let '(y, m, d) :=
    Nat.iter (Z.to_nat (total / 86400)) next_day (year dt, month dt, day dt) in
  let rest := (total mod 86400)%Z in
  if (9999 <? y)%Z then Raise OverflowError
  else Ok (mkDatetime y m d (rest / 3600) (rest mod 3600 / 60) (rest mod 60))%Z.

End Py.
Import Py.

(** ** Module constants *)

Definition MDMD_SIGNATURE : list byte := list_byte_of_string "MDmd".
Definition OFFSET_AFTER_PATTERN : nat := 0x2A.
Definition NAME_LEN : nat := 17.
Definition HEADER_SIZE : nat := 122.
(** [timedelta(hours=4, minutes=30)], in seconds. *)
Definition TIME_OFFSET : Z := (4 * 3600 + 30 * 60)%Z.

Definition FILES_TO_REMOVE : list (list byte) :=
  [ list_byte_of_string "PATCH.OFS";
    list_byte_of_string "OBJECT.OFS" ].

(** ** [find_all_mdmd_patterns] *)

Fixpoint find_all_loop (fuel : nat) (data : list byte) (pos : nat)
    (positions : list nat) : option (list nat) :=
  match fuel with
  | 0 => None
  | S fuel' =>
      if pos <? length data then
        match find data MDMD_SIGNATURE pos with
        | None => Some positions
        | Some index => find_all_loop fuel' data (index + 1) (positions ++ [index])
        end
      else Some positions
  end.

(** The cursor grows by at least one per iteration, so [length data + 1]
    iterations always suffice ([find_all_loop_total]). *)
Definition find_all_mdmd_patterns (data : list byte) : list nat :=
  match find_all_loop (S (length data)) data 0 [] with
  | Some positions => positions
  | None => []
  end.

(** ** [remove_files_from_archive] *)

(** The inner [for signature in files_to_remove] with its [break].  An
    entry of [files_to_delete] is a triple
    [(file_start, file_end, filename)]. *)
Fixpoint first_signature (file_data : list byte) (files_to_remove : list (list byte))
    : option (list byte) :=
  match files_to_remove with
  | [] => None
  | signature :: rest =>
      if contains signature file_data then Some signature
      else first_signature file_data rest
  end.

(** [file_end] of the [i]-th span. *)
Definition span_end (data : list byte) (pattern_positions : list nat) (i : nat) : nat :=
  match nth_error pattern_positions (i + 1) with
  | Some next => next
  | None => length data
  end.

(** One iteration of the outer loop over [enumerate(pattern_positions)]. *)
Definition mark_step (data : list byte) (pattern_positions : list nat)
    (files_to_remove : list (list byte))
    (files_to_delete : list (nat * nat * list byte)) (ip : nat * nat)
    : list (nat * nat * list byte) :=
  let '(i, pattern_pos) := ip in
  let file_start := pattern_pos in
  let file_end := span_end data pattern_positions i in
  let file_data := slice data file_start file_end in
  match first_signature file_data files_to_remove with
  | Some signature =>
      files_to_delete ++ [(file_start, file_end, decode_ascii_ignore signature)]
  | None => files_to_delete
  end.

Definition enumerate {A : Type} (l : list A) : list (nat * A) :=
  combine (seq 0 (length l)) l.

Definition mark_files (data : list byte) (pattern_positions : list nat)
    (files_to_remove : list (list byte)) : list (nat * nat * list byte) :=
  fold_left (mark_step data pattern_positions files_to_remove)
            (enumerate pattern_positions) [].

(** [files_to_delete.sort(key=lambda x: x[0], reverse=True)]: a stable
    sort, entries with equal keys keep their order. *)
Fixpoint insert_desc (x : nat * nat * list byte) (l : list (nat * nat * list byte))
    : list (nat * nat * list byte) :=
  match l with
  | [] => [x]
  | y :: l' =>
      if fst (fst y) <=? fst (fst x) then x :: y :: l'
      else y :: insert_desc x l'
  end.

Definition sort_desc (l : list (nat * nat * list byte)) : list (nat * nat * list byte) :=
  fold_right insert_desc [] l.

Definition delete_all (data : list byte)
    (files_to_delete : list (nat * nat * list byte)) : list byte :=
  fold_left (fun cleaned_data d => del_slice cleaned_data (fst (fst d)) (snd (fst d)))
            files_to_delete data.

Definition remove_files_from_archive (data : list byte) (pattern_positions : list nat)
    (files_to_remove : option (list (list byte))) : list byte :=
  let files_to_remove :=
    match files_to_remove with
    | None => FILES_TO_REMOVE
    | Some l => l
    end in
  if is_empty files_to_remove || is_empty pattern_positions then data
  else
    let files_to_delete := mark_files data pattern_positions files_to_remove in
    if is_empty files_to_delete then data
    else delete_all data (sort_desc files_to_delete).

(** *** Copying instead of deleting

    The design notes give a second strategy, for comparison with the
    in-place deletion above: compute the spans to retain up front and
    copy only them, in order.  [remove_by_copying] retains the complement
    of the marked spans, that is the gaps between them from offset 0 to
    the end of the buffer, the bytes before the first match included.
    [copy_unmarked_blocks], further down, follows the wording of the
    notes: it retains the block spans that are not marked, and nothing
    else. *)

Fixpoint retained_spans (cursor : nat) (marked : list (nat * nat)) (len : nat)
    : list (nat * nat) :=
  match marked with
  | [] => [(cursor, len)]
  | (s, e) :: rest => (cursor, s) :: retained_spans e rest len
  end.

Definition copy_spans (data : list byte) (spans : list (nat * nat)) : list byte :=
  concat (map (fun se => slice data (fst se) (snd se)) spans).

Definition remove_by_copying (data : list byte) (pattern_positions : list nat)
    (files_to_remove : list (list byte)) : list byte :=
  let marked := map fst (mark_files data pattern_positions files_to_remove) in
  copy_spans data (retained_spans 0 marked (length data)).

(** The block spans [(start, end)] of a buffer, in scan order. *)
Definition block_spans (data : list byte) (pattern_positions : list nat)
    : list (nat * nat) :=
  map (fun ip => (snd ip, span_end data pattern_positions (fst ip)))
      (enumerate pattern_positions).

(** A span is marked when some exclusion signature occurs in its bytes. *)
Definition span_marked (data : list byte) (files_to_remove : list (list byte))
    (se : nat * nat) : bool :=
  existsb (fun signature => contains signature (slice data (fst se) (snd se)))
          files_to_remove.

(** ** [process_archive] *)

Definition filenames_to_exclude : list (list byte) :=
  map (fun sig => upper (decode_ascii_ignore sig)) FILES_TO_REMOVE.

Definition block_name (data : list byte) (pos : nat) : list byte :=
  let name_start := pos + OFFSET_AFTER_PATTERN in
  let name_end := name_start + 32 in
  firstn 13 (split_space_first (slice data name_start name_end)).

(** [filename_ascii in filenames_to_exclude]. *)
Definition name_excluded (name_bytes : list byte) : bool :=
  let filename_ascii := upper (decode_ascii_ignore name_bytes) in
  existsb (bytes_eqb filename_ascii) filenames_to_exclude.

(** One iteration of [for pos in positions]; the state is
    [(index_blocks, final_positions)]. *)
Definition index_step (data : list byte) (st : list (list byte) * list nat) (pos : nat)
    : list (list byte) * list nat :=
  let '(index_blocks, final_positions) := st in
  let name_bytes := block_name data pos in
  if name_excluded name_bytes then st
  else
    let index_block := repeat x00 NAME_LEN in
    let index_block := set_slice index_block 0 (length name_bytes) name_bytes in
    (index_blocks ++ [index_block], final_positions ++ [pos]).

Definition build_index (data : list byte) (positions : list nat)
    : list (list byte) * list nat :=
  fold_left (index_step data) positions ([], []).

(** [for index_block, pos in zip(index_blocks, final_positions)]. *)
Fixpoint patch_offsets (blocks : list (list byte * nat)) (base_offset : nat)
    : result (list (list byte)) :=
  match blocks with
  | [] => Ok []
  | (index_block, pos) :: rest =>
      let final_offset := pos + base_offset in
      off <- to_bytes 3 (Z.of_nat final_offset) ;;
      let index_block := set_slice index_block 13 16 off in
      rest' <- patch_offsets rest base_offset ;;
      Ok (index_block :: rest')
  end.

(** The buffer after block removal, as [process_archive] computes it. *)
Definition cleaned (data : list byte) : list byte :=
  remove_files_from_archive data (find_all_mdmd_patterns data) None.

(** The file is read by the caller; [data] is its content.  The result
    is [(index_blocks, data, file_count, final_positions)]. *)
Definition process_archive (data : list byte)
    : result (list (list byte) * list byte * nat * list nat) :=
  let all_positions := find_all_mdmd_patterns data in
  let data := remove_files_from_archive data all_positions None in
  let positions := find_all_mdmd_patterns data in
  let '(index_blocks, final_positions) := build_index data positions in
  let file_count := length index_blocks in
  let base_offset := file_count * NAME_LEN + HEADER_SIZE in
  index_blocks <- patch_offsets (combine index_blocks final_positions) base_offset ;;
  Ok (index_blocks, data, file_count, final_positions).

(** ** [build_header_dynamically] *)

(** [for i in range(lo, hi): header[i] = v]. *)
Definition fill_range (header : list byte) (lo hi : nat) (v : byte)
    : result (list byte) :=
  fold_left (fun acc i => h <- acc ;; set_item h i v) (seq lo (hi - lo)) (Ok header).

Definition dos_date_of (mod_date : datetime) : Z :=
  let dos_year := (year mod_date - 1980)%Z in
  Z.lor (Z.lor (Z.shiftl dos_year 9) (Z.shiftl (month mod_date) 5)) (day mod_date).

Definition dos_time_of (mod_date : datetime) : Z :=
  Z.lor (Z.lor (Z.shiftl (hour mod_date) 11) (Z.shiftl (minute mod_date) 5))
        (second mod_date / 2).

(** [mtime] is what [get_file_modification_time(filepath)] returned.  The
    result is [(header, dos_time, dos_date)]. *)
Definition build_header_dynamically (file_count : nat) (mtime : datetime)
    : result (list byte * Z * Z) :=
  let header := repeat x00 HEADER_SIZE in
  let header := set_slice header 0x00 0x04 MDMD_SIGNATURE in
  header <- set_item header 0x04 x0a ;;
  header <- set_item header 0x05 x01 ;;
  size_bytes <- to_bytes 2 (Z.of_nat HEADER_SIZE) ;;
  let header := set_slice header 0x06 0x08 size_bytes in
  count_bytes <- to_bytes 2 (Z.of_nat file_count) ;;
  let header := set_slice header 0x0A 0x0C count_bytes in
  table_size_bytes <- to_bytes 2 (Z.of_nat (file_count * NAME_LEN)) ;;
  let header := set_slice header 0x19 0x1B table_size_bytes in
  let header := set_slice header 0x1D 0x1F table_size_bytes in
  mod_date <- datetime_add mtime TIME_OFFSET ;;
  let dos_date := dos_date_of mod_date in
  let dos_time := dos_time_of mod_date in
  time_bytes <- to_bytes 2 dos_time ;;
  let header := set_slice header 0x23 0x25 time_bytes in
  date_bytes <- to_bytes 2 dos_date ;;
  let header := set_slice header 0x25 0x27 date_bytes in
  header <- set_item header 0x29 x07 ;;
  let header := set_slice header 0x2A 0x31 (list_byte_of_string "~INDEX~") in
  header <- fill_range header 0x31 0x36 x20 ;;
  header <- set_item header 0x36 x00 ;;
  header <- fill_range header 0x37 0x7A x20 ;;
  Ok (header, dos_time, dos_date).

(** ** [replace_internal_paths] *)

Definition MDMD_FILE_HEADER_PATTERN : list byte :=
  [x4d; x44; x6d; x64; x0a; x01; x7a; x00; x00; x00; x00; x00].
Definition PATH_OFFSET_IN_HEADER : nat := 0x36.
Definition DEFAULT_TARGET_PATH : list byte := list_byte_of_string "C:\LINKS\TEMP\".

(** [while pos < len(data) and data[pos] != 0x20: data[pos] = 0x20; pos += 1] *)
Fixpoint pad_loop (fuel : nat) (data : list byte) (pos : nat) : result (list byte) :=
  match fuel with
  | 0 => Raise OutOfFuel
  | S fuel' =>
      match nth_error data pos with
      | None => Ok data                      (* pos >= len(data) *)
      | Some b =>
          if Byte.eqb b x20 then Ok data
          else data' <- set_item data pos x20 ;; pad_loop fuel' data' (pos + 1)
      end
  end.

(** What the function gives back and prints: the buffer, the number of
    replacements, and the offsets it warned about. *)
Record patched : Set := mkPatched {
  p_data : list byte;
  total_replacements : nat;
  warnings : list nat
}.

Fixpoint replace_loop (fuel : nat) (path_segment : list byte) (data : list byte)
    (search_pos total : nat) (warned : list nat) : result patched :=
  match fuel with
  | 0 => Raise OutOfFuel
  | S fuel' =>
      match find data MDMD_FILE_HEADER_PATTERN search_pos with
      | None => Ok (mkPatched data total warned)
      | Some pattern_pos =>
          let path_start := pattern_pos + PATH_OFFSET_IN_HEADER in
          let path_end := path_start + length path_segment in
          if length data <=? path_end then
            replace_loop fuel' path_segment data (pattern_pos + 1) total
                         (warned ++ [pattern_pos])
          else
            let data := set_slice data path_start path_end path_segment in
            data <- pad_loop (S (length data)) data path_end ;;
            replace_loop fuel' path_segment data (pattern_pos + 1) (total + 1) warned
      end
  end.

Definition replace_internal_paths (data : list byte) (target_path : list byte)
    : result patched :=
  path_bytes <- encode_ascii target_path ;;
  len_byte <- bytes_of_int (length path_bytes) ;;
  let path_segment := len_byte ++ path_bytes in
  replace_loop (S (length data)) path_segment data 0 0 [].

(** ** [assemble_and_save] and [process_single_file] *)

(** The content written to the patched file. *)
Definition assemble_and_save (header : list byte) (index_blocks : list (list byte))
    (data : list byte) : result patched :=
  let index_table := concat index_blocks in
  let new_content := header ++ index_table ++ data in
  replace_internal_paths new_content DEFAULT_TARGET_PATH.

(** The pipeline inside the [try] of [process_single_file], up to the
    content handed to the file system (the write and the log are left
    out); [Raise] is the [except] branch, the file is reported as
    failed. *)
Definition process_single_file (data : list byte) (mtime : datetime)
    : result (list byte) :=
  r <- process_archive data ;;
  let '(index_blocks, filtered_data, file_count, positions) := r in
  h <- build_header_dynamically file_count mtime ;;
  let '(header, dos_time, dos_date) := h in
  out <- assemble_and_save header index_blocks filtered_data ;;
  Ok (p_data out).

(** ** Definitions used in the statements and proofs *)

(** [sub] occurs in [data] at offset [i]: [data[i:i+len(sub)] == sub]. *)
Definition occurs_at (sub data : list byte) (i : nat) : Prop :=
  slice data i (i + length sub) = sub.

(** The same test as a boolean. *)
Definition is_match (sub data : list byte) (i : nat) : bool :=
  starts_with sub (skipn i data).

(** The block spans, by recursion on the positions. *)
Fixpoint spans_of (pattern_positions : list nat) (len : nat) : list (nat * nat) :=
  match pattern_positions with
  | [] => []
  | p :: rest => (p, hd len rest) :: spans_of rest len
  end.

(** The entry appended for one span, if any. *)
Definition mark_one (data : list byte) (files_to_remove : list (list byte))
    (se : nat * nat) : list (nat * nat * list byte) :=
  match first_signature (slice data (fst se) (snd se)) files_to_remove with
  | Some signature => [(fst se, snd se, decode_ascii_ignore signature)]
  | None => []
  end.

(** Spans that lie in order, without overlap, between [cursor] and [len]. *)
Fixpoint chain (cursor : nat) (spans : list (nat * nat)) (len : nat) : Prop :=
  match spans with
  | [] => cursor <= len
  | (s, e) :: rest => cursor <= s /\ s <= e /\ chain e rest len
  end.

(** The copying strategy as the design notes word it: the retained spans
    are the block spans that are not marked, and only they are copied. *)
Definition copy_unmarked_blocks (data : list byte) (pattern_positions : list nat)
    (files_to_remove : list (list byte)) : list byte :=
  copy_spans data
    (filter (fun se => negb (span_marked data files_to_remove se))
            (block_spans data pattern_positions)).

(** The exclusion list in effect. *)
Definition effective (files_to_remove : option (list (list byte))) : list (list byte) :=
  match files_to_remove with
  | None => FILES_TO_REMOVE
  | Some l => l
  end.

(** The block is kept in the index. *)
Definition keep_in_index (data : list byte) (pos : nat) : bool :=
  negb (name_excluded (block_name data pos)).

(** The name comparison in the words of the design notes, written
    without the built-ins of the code.  [upper_of x y]: [y] is the
    upper-case form of the ASCII character [x], a small letter moved 32
    code points down and any other character left alone. *)
Definition upper_of (x y : byte) : Prop :=
  Byte.to_N y =
    (if (97 <=? Byte.to_N x) && (Byte.to_N x <=? 122)
     then Byte.to_N x - 32 else Byte.to_N x)%N.

(** [normalized b t]: [t] is the uppercased ASCII decoding of [b]; the
    bytes from 0x80 on are left out and the others are put in upper
    case. *)
Inductive normalized : list byte -> list byte -> Prop :=
  | normalized_nil : normalized [] []
  | normalized_skip (x : byte) (b t : list byte) :
      (128 <= Byte.to_N x)%N -> normalized b t -> normalized (x :: b) t
  | normalized_keep (x y : byte) (b t : list byte) :
      (Byte.to_N x < 128)%N -> upper_of x y -> normalized b t ->
      normalized (x :: b) (y :: t).

(** The 17-byte record before its offset is written. *)
Definition index_record (data : list byte) (pos : nat) : list byte :=
  set_slice (repeat x00 NAME_LEN) 0 (length (block_name data pos)) (block_name data pos).

(** The record with its offset field written. *)
Definition patched_record (data : list byte) (base_offset pos : nat) : list byte :=
  set_slice (index_record data pos) 13 16 (le_bytes 3 (Z.of_nat (pos + base_offset))).

(** The 3-byte little-endian offset field of an index record. *)
Definition offset_field (index_block : list byte) : Z :=
  from_bytes (slice index_block 13 16).

(** The match positions that [process_archive] retains, and its base
    offset. *)
Definition retained_positions (data : list byte) : list nat :=
  snd (build_index (cleaned data) (find_all_mdmd_patterns (cleaned data))).

Definition base_offset_of (data : list byte) : nat :=
  length (retained_positions data) * 17 + 122.

(** The header as a literal, given the bytes of its variable fields. *)
Definition header_layout (c0 c1 s0 s1 t0 t1 d0 d1 : byte) : list byte :=
  [x4d; x44; x6d; x64; x0a; x01; x7a; x00; x00; x00; c0; c1] ++
  repeat x00 13 ++ [s0; s1; x00; x00; s0; s1] ++
  repeat x00 4 ++ [t0; t1; d0; d1; x00; x00; x07] ++
  list_byte_of_string "~INDEX~" ++
  repeat x20 5 ++ [x00] ++ repeat x20 67.

(** An unsigned 16-bit little-endian field. *)
Definition u16_at (header : list byte) (off : nat) : Z :=
  from_bytes (slice header off (off + 2)).

Definition valid_date (y m d : Z) : Prop :=
  (1 <= m <= 12 /\ 1 <= d <= days_in_month y m)%Z.

Definition valid_datetime (dt : datetime) : Prop :=
  valid_date (year dt) (month dt) (day dt) /\
  (0 <= hour dt < 24 /\ 0 <= minute dt < 60 /\ 0 <= second dt < 60)%Z.

(** Days before January 1st of year [y], as [datetime] counts them. *)
Definition days_before_year (y : Z) : Z :=
  let p := (y - 1)%Z in (p * 365 + p / 4 - p / 100 + p / 400)%Z.

Definition days_before_month (y m : Z) : Z :=
  (nth (Z.to_nat m) [0; 0; 31; 59; 90; 120; 151; 181; 212; 243; 273; 304; 334] 0
   + (if (2 <? m) && is_leap y then 1 else 0))%Z.

(** [date.toordinal()]. *)
Definition ordinal (y m d : Z) : Z :=
  (days_before_year y + days_before_month y m + d)%Z.

(** Seconds on a linear scale. *)
Definition linear_seconds (dt : datetime) : Z :=
  (ordinal (year dt) (month dt) (day dt) * 86400
   + hour dt * 3600 + minute dt * 60 + second dt)%Z.

(** Turn the leading run of non-space bytes into spaces. *)
Fixpoint pad_spaces (l : list byte) : list byte :=
  match l with
  | [] => []
  | b :: l' => if Byte.eqb b x20 then l else x20 :: pad_spaces l'
  end.

(** The buffer after a successful replacement at [pattern_pos]. *)
Definition patch_site (path_segment data : list byte) (pattern_pos : nat) : list byte :=
  let path_start := pattern_pos + PATH_OFFSET_IN_HEADER in
  let path_end := path_start + length path_segment in
  firstn path_end (set_slice data path_start path_end path_segment) ++
  pad_spaces (skipn path_end data).

(** [[length-byte][path bytes]] for the default target path. *)
Definition DEFAULT_PATH_SEGMENT : list byte := x0e :: DEFAULT_TARGET_PATH.

(** The header of an empty archive once the default path has been
    written into it. *)
Definition patched_header (header : list byte) : list byte :=
  firstn 0x36 header ++ DEFAULT_PATH_SEGMENT ++ skipn (0x36 + 15) header.

(** A block whose path field ends exactly at the end of the buffer:
    the 12-byte sub-header signature followed by 57 bytes, 69 in all,
    so that [0x36 + 15 = 69]. *)
Definition exact_fit_block : list byte :=
  MDMD_FILE_HEADER_PATTERN ++ repeat x41 57.

Definition sample_mtime : datetime := mkDatetime 2023 6 15 14 30 10.

(** Refute a match at a given offset by a byte that differs from the
    signature; [Hn] gives the bytes a match would force. *)
Ltac refute_match Hn :=
  first
    [ generalize (Hn 0 ltac:(simpl; lia)); simpl; discriminate
    | generalize (Hn 1 ltac:(simpl; lia)); simpl; discriminate
    | generalize (Hn 2 ltac:(simpl; lia)); simpl; discriminate
    | generalize (Hn 3 ltac:(simpl; lia)); simpl; discriminate
    | generalize (Hn 4 ltac:(simpl; lia)); simpl; discriminate ].

(** A block as archives hold them: the signature, 38 bytes, the name at
    0x2A ended by a space, and a body. *)
Definition sample_block (name body : string) : list byte :=
  MDMD_SIGNATURE ++ repeat x41 38 ++ list_byte_of_string name ++
  x20 :: list_byte_of_string body.

(** Five blocks: the second holds [PATCH.OFS] in its body, the third is
    named [OBJECT.OFS], the fourth is named [patch.ofs] in lower case. *)
Definition sample_archive : list byte :=
  sample_block "A.DAT" "alpha" ++
  sample_block "B.DAT" "has PATCH.OFS inside" ++
  sample_block "OBJECT.OFS" "x" ++
  sample_block "patch.ofs" "lower" ++
  sample_block "D.DAT" "omega".

(** Two bytes before the first match, then two blocks of which the
    second holds [PATCH.OFS]; the matches are at 2 and at 55. *)
Definition lead_archive : list byte :=
  list_byte_of_string "xy" ++
  sample_block "A.DAT" "alpha" ++
  sample_block "B.DAT" "has PATCH.OFS inside".

(** The header built for [n] entries of a file last modified at
    [sample_mtime]. *)
Definition sample_header (n : nat) : list byte :=
  match build_header_dynamically n sample_mtime with
  | Ok (header, _, _) => header
  | Raise _ => []
  end.

(** The bytes of the block spans of a buffer, in scan order. *)
Definition blocks_of (data : list byte) : list (list byte) :=
  map (fun se => slice data (fst se) (snd se))
      (block_spans data (find_all_mdmd_patterns data)).

(** A block: it begins with the signature and holds no other occurrence
    of it. *)
Definition clean_block (b : list byte) : Prop :=
  starts_with MDMD_SIGNATURE b = true /\
  forall j, 0 < j -> ~ occurs_at MDMD_SIGNATURE b j.

(** Start offsets of consecutive chunks laid out from [start]. *)
Fixpoint offsets (start : nat) (chunks : list (list byte)) : list nat :=
  match chunks with
  | [] => []
  | b :: rest => start :: offsets (start + length b) rest
  end.

(** Number of bytes covered by a list of spans. *)
Definition span_bytes (spans : list (nat * nat)) : nat :=
  list_sum (map (fun se => snd se - fst se) spans).

(** The fields [generate_log] unpacks from the packed time:
    [(dos_time >> 11, (dos_time >> 5) & 0b111111, (dos_time & 0b11111) * 2)]. *)
Definition log_time_fields (dos_time : Z) : Z * Z * Z :=
  (Z.shiftr dos_time 11, Z.land (Z.shiftr dos_time 5) 63, (Z.land dos_time 31 * 2)%Z).

(** [((dos_date >> 9) + 1980, (dos_date >> 5) & 0b1111, dos_date & 0b11111)]. *)
Definition log_date_fields (dos_date : Z) : Z * Z * Z :=
  ((Z.shiftr dos_date 9 + 1980)%Z, Z.land (Z.shiftr dos_date 5) 15, Z.land dos_date 31).

(** The header offsets whose bytes depend on the inputs. *)
Definition variable_offsets : list nat :=
  [0x0A; 0x0B; 0x19; 0x1A; 0x1D; 0x1E; 0x23; 0x24; 0x25; 0x26].
(** Evaluate the head of a chain of binds when it is closed. *)
Ltac run_head :=
  cbn [bind];
  match goal with
  | |- bind (Ok _) _ = _ -> _ => fail 1
  | |- bind ?m ?k = _ -> _ =>
      let v := eval vm_compute in m in
      change (bind m k) with (bind v k)
  end; cbn [bind].


(** The buffer [assemble_and_save] builds before the paths are patched. *)
Definition new_content (header : list byte) (index_blocks : list (list byte))
    (data : list byte) : list byte :=
  header ++ concat index_blocks ++ data.

(** An adjusted offset that fits the 3-byte field. *)
Definition offset_fits (data : list byte) (pos : nat) : Prop :=
  (Z.of_nat (pos + base_offset_of data) < 2 ^ 24)%Z.

(** ** [generate_log] *)

(** [b.split(b'\x00')[0]]. *)
Fixpoint split_zero_first (b : list byte) : list byte :=
  match b with
  | [] => []
  | x :: b' => if Byte.eqb x x00 then [] else x :: split_zero_first b'
  end.

(** [b.decode('ascii')]; [None] is [UnicodeDecodeError], which the
    caller catches. *)
Definition decode_ascii (b : list byte) : option (list byte) :=
  if forallb (fun x => (Byte.to_N x <? 128)%N) b then Some b else None.

Definition NON_PRINTABLE_NAME : list byte :=
  list_byte_of_string "NON-PRINTABLE NAME".

(** The [try] / [except UnicodeDecodeError] of the loop body. *)
Definition ascii_name (index_block : list byte) : list byte :=
  match decode_ascii (split_zero_first index_block) with
  | Some s => s
  | None => NON_PRINTABLE_NAME
  end.

(** The values one line of the log is formatted from. *)
Record log_entry : Type := mkEntry {
  original_offset : nat;
  adjusted : nat;
  hex_block : list byte;
  entry_name : list byte
}.

(** The values the log is formatted from. *)
Record log : Type := mkLog {
  number_of_files : nat;
  index_size : nat;
  log_hour : Z * Z * Z;
  log_date : Z * Z * Z;
  log_time_hex : list byte;
  log_date_hex : list byte;
  log_entries : list log_entry
}.

Definition generate_log (index_blocks : list (list byte)) (positions : list nat)
    (base_offset file_count : nat) (dos_time dos_date : Z) : result log :=
  let hour := log_time_fields dos_time in
  let date := log_date_fields dos_date in
  time_hex <- to_bytes 2 dos_time ;;
  date_hex <- to_bytes 2 dos_date ;;
  Ok (mkLog file_count (file_count * NAME_LEN) hour date time_hex date_hex
        (map (fun '(index_block, original_offset) =>
                mkEntry original_offset (original_offset + base_offset)
                        index_block (ascii_name index_block))
             (combine index_blocks positions))).

(** The [try] body of [process_single_file] with the log: the content
    written and the values logged. *)
Definition process_single_file_logged (data : list byte) (mtime : datetime)
    : result (list byte * log) :=
  r <- process_archive data ;;
  let '(index_blocks, filtered_data, file_count, positions) := r in
  h <- build_header_dynamically file_count mtime ;;
  let '(header, dos_time, dos_date) := h in
  out <- assemble_and_save header index_blocks filtered_data ;;
  let base_offset := file_count * NAME_LEN + HEADER_SIZE in
  lg <- generate_log index_blocks positions base_offset file_count dos_time dos_date ;;
  Ok (p_data out, lg).

(** ** [_get_output_path] *)

(** [s.endswith(suffix)]. *)
Definition endswith (s suffix : string) : bool :=
  (String.length suffix <=? String.length s) &&
  String.eqb (substring (String.length s - String.length suffix)
                        (String.length suffix) s) suffix.

(** Paths are kept as the expressions of [pathlib] that build them,
    without the normalisation [Path] applies to its text: [Path s],
    [p.parent] and [p / filename]. *)
Inductive path : Type :=
  | Path (s : string)
  | parent (p : path)
  | div (p : path) (filename : string).

(** The result of a call: the directory [mkdir(parents=True,
    exist_ok=True)] was called on, if any, and the path returned. *)
Record output_path : Type := mkOutput {
  made_dir : option path;
  returned : path
}.

(** [name] and [ext] are [original_path.stem] and
    [original_path.suffix], which [pathlib] computes; [if output_dir:]
    holds for a string that is not empty. *)
Definition _get_output_path (original_filename name ext : string) (suffix : string)
    (output_dir : option string) : output_path :=
  let original_path := Path original_filename in
  let filename :=
    if negb (endswith suffix ".txt") then (name ++ suffix ++ ext)%string
    else (name ++ suffix)%string in
  match output_dir with
  | Some d =>
      if String.eqb d "" then mkOutput None (div (parent original_path) filename)
      else
        let output_path := Path d in
        mkOutput (Some output_path) (div output_path filename)
  | None => mkOutput None (div (parent original_path) filename)
  end.

(** The two calls of the program, in [assemble_and_save] and in
    [generate_log]. *)
Definition patched_path (original_filename name ext : string)
    (output_dir : option string) : output_path :=
  _get_output_path original_filename name ext "_patched" output_dir.

Definition log_path (original_filename name ext : string)
    (log_dir : option string) : output_path :=
  _get_output_path original_filename name ext "_patched_log.txt" log_dir.

(** The file name a returned path ends with. *)
Definition filename_of (p : path) : option string :=
  match p with
  | div _ filename => Some filename
  | _ => None
  end.

(** The directory expression a returned path is joined to. *)
Definition directory_of (p : path) : option path :=
  match p with
  | div d _ => Some d
  | _ => None
  end.

(** What [Path.suffix] can be: empty, or a dot and more. *)
Definition is_suffix (ext : string) : Prop :=
  ext = EmptyString \/ exists rest, ext = ("." ++ rest)%string.

(** ** [list(dict.fromkeys(all_files))] *)

(** A dict keeps its keys in the order of their first insertion. *)
Definition fromkeys_step (keys : list string) (k : string) : list string :=
  if existsb (String.eqb k) keys then keys else keys ++ [k].

Definition dict_fromkeys (all_files : list string) : list string :=
  fold_left fromkeys_step all_files [].

(** A sub-header whose path field lies inside the buffer: the signature,
    42 bytes, an old path of 20 bytes and a space. *)
Definition sample_subheader : list byte :=
  MDMD_FILE_HEADER_PATTERN ++ repeat x41 42 ++
  list_byte_of_string "D:\OLD\COURSE\PATH\X" ++ [x20; x42].

(** The content written for [sample_archive]. *)
Definition sample_output : list byte :=
  match process_single_file sample_archive sample_mtime with
  | Ok out => out
  | Raise _ => []
  end.

(** The index records built for [sample_archive]. *)
Definition sample_index : list (list byte) :=
  match process_archive sample_archive with
  | Ok (index_blocks, _, _, _) => index_blocks
  | Raise _ => []
  end.

(** The header built for an empty archive last modified at the end of
    1999. *)
Definition sample_header_1999 : list byte :=
  match build_header_dynamically 0 (mkDatetime 1999 12 31 23 59 59) with
  | Ok (header, _, _) => header
  | Raise _ => []
  end.

(** * Facts about the built-ins *)

Section SliceFacts.
Context {A : Type}.
Implicit Types l v : list A.

Lemma firstn_plus l n m :
  firstn (n + m) l = firstn n l ++ firstn m (skipn n l).
Proof.
  revert l. induction n as [|n IH]; intros [|x l]; simpl; auto.
  - now rewrite firstn_nil.
  - now rewrite IH.
Qed.

Lemma slice_length l s e :
  e <= length l -> length (slice l s e) = e - s.
Proof.
  intros He. unfold slice. rewrite length_firstn, length_skipn. lia.
Qed.

Lemma slice_full l : slice l 0 (length l) = l.
Proof. unfold slice. rewrite Nat.sub_0_r. apply firstn_all. Qed.

Lemma slice_app_adjacent l a b c :
  a <= b -> b <= c -> slice l a b ++ slice l b c = slice l a c.
Proof.
  intros Hab Hbc. unfold slice.
  replace (c - a) with ((b - a) + (c - b)) by lia.
  rewrite firstn_plus, skipn_skipn.
  now replace (b - a + a) with b by lia.
Qed.

Lemma slice_empty l s e : e <= s -> slice l s e = [].
Proof.
  intros H. unfold slice. now replace (e - s) with 0 by lia.
Qed.

Lemma slice_to_end l s : slice l s (length l) = skipn s l.
Proof.
  unfold slice. apply firstn_all2. rewrite length_skipn. lia.
Qed.

Lemma slice_from_start l e : slice l 0 e = firstn e l.
Proof. unfold slice. now rewrite Nat.sub_0_r. Qed.

Lemma set_slice_length l s e v :
  s <= e -> e <= length l -> length v = e - s ->
  length (set_slice l s e v) = length l.
Proof.
  intros Hse He Hv. unfold set_slice.
  rewrite !length_app, length_firstn, length_skipn. lia.
Qed.

Lemma set_item_length l i x l' :
  set_item l i x = Ok l' -> length l' = length l /\ i < length l.
Proof.
  unfold set_item. destruct (Nat.ltb_spec i (length l)); [|discriminate].
  intros [= <-]. split; auto.
  rewrite length_app, length_firstn, length_cons.
  change (match l with [] => [] | _ :: l0 => skipn i l0 end) with (skipn (S i) l).
  rewrite length_skipn. lia.
Qed.
End SliceFacts.

Lemma byte_eqb_refl (b : byte) : Byte.eqb b b = true.
Proof. now apply Byte.byte_dec_lb. Qed.

Lemma byte_eqb_eq (a b : byte) : Byte.eqb a b = true <-> a = b.
Proof. split; [apply Byte.byte_dec_bl | apply Byte.byte_dec_lb]. Qed.

Lemma bytes_eqb_eq (a b : list byte) : bytes_eqb a b = true <-> a = b.
Proof.
  revert b. induction a as [|x a IH]; intros [|y b]; simpl; try easy.
  rewrite andb_true_iff, byte_eqb_eq, IH. split.
  - now intros [-> ->].
  - now intros [= -> ->].
Qed.

Lemma starts_with_firstn (sub l : list byte) :
  starts_with sub l = true <-> firstn (length sub) l = sub.
Proof.
  revert l. induction sub as [|x sub IH]; intros [|y l]; simpl; try easy.
  rewrite andb_true_iff, byte_eqb_eq, IH. split.
  - now intros [-> ->].
  - now intros [= -> ->].
Qed.

Lemma starts_with_app (sub l : list byte) :
  starts_with sub l = true <-> exists rest, l = sub ++ rest.
Proof.
  rewrite starts_with_firstn. split.
  - intros H. exists (skipn (length sub) l).
    rewrite <- H at 1. symmetry. apply firstn_skipn.
  - intros [rest ->]. rewrite firstn_app, Nat.sub_diag, firstn_all. simpl.
    apply app_nil_r.
Qed.

Lemma starts_with_length (sub l : list byte) :
  starts_with sub l = true -> length sub <= length l.
Proof.
  rewrite starts_with_app. intros [rest ->]. rewrite length_app. lia.
Qed.

Lemma occurs_at_starts_with (sub data : list byte) (i : nat) :
  occurs_at sub data i <-> starts_with sub (skipn i data) = true.
Proof.
  unfold occurs_at, slice. rewrite starts_with_firstn.
  now replace (i + length sub - i) with (length sub) by lia.
Qed.

Lemma occurs_at_bound (sub data : list byte) (i : nat) :
  occurs_at sub data i -> sub <> [] -> i + length sub <= length data.
Proof.
  rewrite occurs_at_starts_with. intros H Hne.
  apply starts_with_length in H. rewrite length_skipn in H.
  destruct sub; [congruence|]. simpl in *. lia.
Qed.

(** *** [find] returns the lowest match at or after [start] *)

Lemma find_aux_Some (sub l : list byte) (i k : nat) :
  find_aux sub l i = Some k ->
  exists d, k = i + d /\ d <= length l /\
            starts_with sub (skipn d l) = true /\
            forall d', d' < d -> starts_with sub (skipn d' l) = false.
Proof.
  revert i. induction l as [|x l IH]; intros i; simpl.
  - destruct (starts_with sub []) eqn:E; [|discriminate].
    intros [= <-]. exists 0. repeat split; simpl; auto; lia.
  - destruct (starts_with sub (x :: l)) eqn:E.
    + intros [= <-]. exists 0. repeat split; simpl; auto; lia.
    + intros H. destruct (IH _ H) as (d & -> & Hd & Hm & Hlow).
      exists (S d). repeat split; simpl; auto; try lia.
      intros [|d'] Hlt; simpl; auto. apply Hlow. lia.
Qed.

Lemma find_aux_None (sub l : list byte) (i : nat) :
  find_aux sub l i = None ->
  forall d, starts_with sub (skipn d l) = false.
Proof.
  revert i. induction l as [|x l IH]; intros i; simpl.
  - destruct (starts_with sub []) eqn:E; [discriminate|].
    intros _ d. now rewrite skipn_nil.
  - destruct (starts_with sub (x :: l)) eqn:E; [discriminate|].
    intros H [|d]; simpl; eauto.
Qed.

Lemma find_Some (data sub : list byte) (start k : nat) :
  find data sub start = Some k ->
  start <= k <= length data /\
  occurs_at sub data k /\
  forall j, start <= j < k -> ~ occurs_at sub data j.
Proof.
  unfold find. destruct (Nat.leb_spec start (length data)) as [Hs|Hs]; [|discriminate].
  intros H. apply find_aux_Some in H. destruct H as (d & -> & Hd & Hm & Hlow).
  rewrite length_skipn in Hd. rewrite skipn_skipn in Hm.
  split; [lia|]. split.
  - apply occurs_at_starts_with. now rewrite Nat.add_comm.
  - intros j Hj. rewrite occurs_at_starts_with.
    specialize (Hlow (j - start) ltac:(lia)). rewrite skipn_skipn in Hlow.
    replace (j - start + start) with j in Hlow by lia. congruence.
Qed.

Lemma find_None (data sub : list byte) (start : nat) :
  find data sub start = None ->
  forall j, start <= j <= length data -> ~ occurs_at sub data j.
Proof.
  unfold find. intros H j Hj. rewrite occurs_at_starts_with.
  destruct (Nat.leb_spec start (length data)) as [Hs|Hs]; [|lia].
  pose proof (find_aux_None _ _ _ H (j - start)) as Hn.
  rewrite skipn_skipn in Hn. replace (j - start + start) with j in Hn by lia.
  congruence.
Qed.

Lemma find_None_nonempty (data sub : list byte) (start : nat) :
  sub <> [] -> find data sub start = None ->
  forall j, start <= j -> ~ occurs_at sub data j.
Proof.
  intros Hne H j Hj Hocc.
  pose proof (occurs_at_bound _ _ _ Hocc Hne).
  apply (find_None _ _ _ H j); auto. lia.
Qed.

(** A match exists at or after [start] exactly when [find] succeeds. *)
Lemma find_complete (data sub : list byte) (start j : nat) :
  start <= j <= length data -> occurs_at sub data j ->
  exists k, find data sub start = Some k /\ k <= j.
Proof.
  intros Hj Hocc. destruct (find data sub start) as [k|] eqn:E.
  - exists k. split; auto. apply find_Some in E. destruct E as (_ & _ & Hlow).
    destruct (Nat.le_gt_cases k j); auto. exfalso. apply (Hlow j); auto. lia.
  - exfalso. eapply find_None; eauto.
Qed.

Lemma contains_spec (sub data : list byte) :
  contains sub data = true <-> exists pre post, data = pre ++ sub ++ post.
Proof.
  unfold contains. split.
  - destruct (find data sub 0) as [k|] eqn:E; [|discriminate]. intros _.
    apply find_Some in E. destruct E as (_ & Hocc & _).
    apply occurs_at_starts_with, starts_with_app in Hocc. destruct Hocc as [post Hp].
    exists (firstn k data), post. rewrite <- Hp. symmetry. apply firstn_skipn.
  - intros (pre & post & ->).
    destruct (find_complete (pre ++ sub ++ post) sub 0 (length pre)) as (k & -> & _); auto.
    + rewrite length_app. lia.
    + apply occurs_at_starts_with, starts_with_app. exists post.
      rewrite skipn_app, Nat.sub_diag, skipn_all. reflexivity.
Qed.

(** * PatternScanner *)

Lemma is_match_occurs (sub data : list byte) (i : nat) :
  is_match sub data i = true <-> occurs_at sub data i.
Proof. symmetry. apply occurs_at_starts_with. Qed.

Lemma filter_nil_seq (f : nat -> bool) (a n : nat) :
  (forall j, a <= j < a + n -> f j = false) -> filter f (seq a n) = [].
Proof.
  revert a. induction n as [|n IH]; intros a H; simpl; auto.
  rewrite (H a) by lia. apply IH. intros j Hj. apply H. lia.
Qed.

Lemma filter_seq_first (f : nat -> bool) (a n k : nat) :
  a <= k < a + n -> f k = true ->
  (forall j, a <= j < k -> f j = false) ->
  filter f (seq a n) = k :: filter f (seq (k + 1) (a + n - (k + 1))).
Proof.
  intros Hk Hfk Hlow.
  replace n with ((k - a) + S (a + n - (k + 1))) by lia.
  rewrite seq_app, filter_app, filter_nil_seq.
  - replace (a + (k - a)) with k by lia. simpl. rewrite Hfk.
    do 3 f_equal; lia.
  - intros j Hj. apply Hlow. lia.
Qed.

Lemma mdmd_nonempty : MDMD_SIGNATURE <> [].
Proof. discriminate. Qed.

Lemma find_all_loop_filter (data : list byte) (fuel pos : nat) (acc : list nat) :
  length data - pos < fuel ->
  find_all_loop fuel data pos acc =
    Some (acc ++ filter (is_match MDMD_SIGNATURE data) (seq pos (length data - pos))).
Proof.
  revert pos acc. induction fuel as [|fuel IH]; intros pos acc Hfuel; simpl.
  - lia.
  - destruct (Nat.ltb_spec pos (length data)) as [Hlt|Hge].
    + destruct (find data MDMD_SIGNATURE pos) as [k|] eqn:E.
      * pose proof (find_Some _ _ _ _ E) as ([Hk1 Hk2] & Hocc & Hlow).
        pose proof (occurs_at_bound _ _ _ Hocc mdmd_nonempty) as Hb.
        change (length MDMD_SIGNATURE) with 4 in Hb.
        rewrite IH by lia. f_equal. rewrite <- app_assoc. f_equal. simpl.
        rewrite (filter_seq_first _ pos (length data - pos) k).
        -- do 3 f_equal. lia.
        -- lia.
        -- now apply is_match_occurs.
        -- intros j Hj. destruct (is_match MDMD_SIGNATURE data j) eqn:Em; auto.
           apply is_match_occurs in Em. now apply Hlow in Em.
      * f_equal. rewrite filter_nil_seq; [now rewrite app_nil_r|].
        intros j Hj. destruct (is_match MDMD_SIGNATURE data j) eqn:Em; auto.
        apply is_match_occurs in Em.
        exfalso. apply (find_None _ _ _ E j); auto. lia.
    + replace (length data - pos) with 0 by lia. simpl. now rewrite app_nil_r.
Qed.

Lemma find_all_loop_total (data : list byte) :
  find_all_loop (S (length data)) data 0 [] = Some (find_all_mdmd_patterns data).
Proof.
  unfold find_all_mdmd_patterns. now rewrite find_all_loop_filter by lia.
Qed.

Lemma find_all_filter (data : list byte) :
  find_all_mdmd_patterns data =
    filter (is_match MDMD_SIGNATURE data) (seq 0 (length data)).
Proof.
  unfold find_all_mdmd_patterns. rewrite find_all_loop_filter by lia.
  now rewrite Nat.sub_0_r.
Qed.

Lemma seq_sorted (a n : nat) : StronglySorted lt (seq a n).
Proof.
  revert a. induction n as [|n IH]; intros a; simpl; constructor; auto.
  apply Forall_forall. intros x Hx. apply in_seq in Hx. lia.
Qed.

Lemma filter_sorted {A : Type} (R : A -> A -> Prop) (f : A -> bool) (l : list A) :
  StronglySorted R l -> StronglySorted R (filter f l).
Proof.
  induction 1 as [|x l Hs IH Hx]; simpl; [constructor|].
  destruct (f x); auto. constructor; auto.
  rewrite Forall_forall in *. intros y Hy. apply filter_In in Hy. now apply Hx.
Qed.

Lemma find_all_sorted (data : list byte) :
  StronglySorted lt (find_all_mdmd_patterns data).
Proof. rewrite find_all_filter. apply filter_sorted, seq_sorted. Qed.

Lemma find_all_In (data : list byte) (i : nat) :
  In i (find_all_mdmd_patterns data) <-> occurs_at MDMD_SIGNATURE data i.
Proof.
  rewrite find_all_filter, filter_In, in_seq, is_match_occurs. split.
  - tauto.
  - intros H. split; auto.
    pose proof (occurs_at_bound _ _ _ H mdmd_nonempty) as Hb.
    change (length MDMD_SIGNATURE) with 4 in Hb. lia.
Qed.

(** C8: [find_all_mdmd_patterns] is a total function of the buffer that
    returns, in strictly increasing order, exactly the offsets at which
    the four bytes [MDmd] occur (so adjacent occurrences are all listed),
    and the empty list exactly when there is no occurrence; the loop
    itself ends within [length data + 1] iterations. *)
Theorem find_all_mdmd_patterns_spec (data : list byte) :
  find_all_loop (S (length data)) data 0 [] = Some (find_all_mdmd_patterns data) /\
  StronglySorted lt (find_all_mdmd_patterns data) /\
  (forall i, In i (find_all_mdmd_patterns data) <->
             slice data i (i + 4) = MDMD_SIGNATURE) /\
  (find_all_mdmd_patterns data = [] <->
     forall i, slice data i (i + 4) <> MDMD_SIGNATURE).
Proof.
  split; [apply find_all_loop_total|].
  split; [apply find_all_sorted|].
  split; [apply find_all_In|].
  split.
  - intros H i Hi. apply (find_all_In data i) in Hi. rewrite H in Hi. destruct Hi.
  - intros H. destruct (find_all_mdmd_patterns data) as [|i l] eqn:E; auto.
    exfalso. apply (H i), (find_all_In data i). rewrite E. now left.
Qed.

(** Adjacent blocks are both reported: the cursor moves on by one byte,
    not by the signature length. *)
Example find_all_adjacent :
  find_all_mdmd_patterns (list_byte_of_string "MDmdMDmd..MDMDmd") = [0; 4; 12].
Proof. reflexivity. Qed.

(** * BlockRemover *)


Lemma block_spans_shift (data : list byte) (pre ps : list nat) :
  map (fun ip => (snd ip, span_end data (pre ++ ps) (fst ip)))
      (combine (seq (length pre) (length ps)) ps)
  = spans_of ps (length data).
Proof.
  revert pre. induction ps as [|p rest IH]; intros pre; simpl; auto.
  f_equal.
  - unfold span_end. f_equal.
    rewrite nth_error_app2 by lia.
    replace (length pre + 1 - length pre) with 1 by lia.
    now destruct rest.
  - specialize (IH (pre ++ [p])). rewrite <- app_assoc in IH. simpl in IH.
    rewrite <- IH, length_app. simpl.
    now replace (length pre + 1) with (S (length pre)) by lia.
Qed.

Lemma block_spans_spans_of (data : list byte) (ps : list nat) :
  block_spans data ps = spans_of ps (length data).
Proof. apply (block_spans_shift data [] ps). Qed.

Lemma mark_step_append (data : list byte) (ps : list nat) (sigs : list (list byte))
    (acc : list (nat * nat * list byte)) (ip : nat * nat) :
  mark_step data ps sigs acc ip =
    acc ++ mark_one data sigs (snd ip, span_end data ps (fst ip)).
Proof.
  destruct ip as [i p]. unfold mark_step, mark_one. simpl.
  destruct (first_signature _ _); auto. now rewrite app_nil_r.
Qed.

Lemma mark_fold_flat_map (data : list byte) (ps : list nat) (sigs : list (list byte))
    (l : list (nat * nat)) (acc : list (nat * nat * list byte)) :
  fold_left (mark_step data ps sigs) l acc =
    acc ++ flat_map (mark_one data sigs)
             (map (fun ip => (snd ip, span_end data ps (fst ip))) l).
Proof.
  revert acc. induction l as [|ip l IH]; intros acc.
  - simpl. now rewrite app_nil_r.
  - cbn [fold_left map flat_map]. now rewrite IH, mark_step_append, app_assoc.
Qed.

Lemma mark_files_flat_map (data : list byte) (ps : list nat) (sigs : list (list byte)) :
  mark_files data ps sigs = flat_map (mark_one data sigs) (block_spans data ps).
Proof. unfold mark_files. now rewrite mark_fold_flat_map. Qed.

(** The signature recorded for a span is the first one of the list that
    occurs in it. *)
Lemma first_signature_Some (fd : list byte) (sigs : list (list byte)) (sig : list byte) :
  first_signature fd sigs = Some sig <->
  exists before after, sigs = before ++ sig :: after /\
    contains sig fd = true /\
    Forall (fun s => contains s fd = false) before.
Proof.
  induction sigs as [|s sigs IH]; simpl.
  - split; [discriminate|]. intros (b & a & H & _). now destruct b.
  - destruct (contains s fd) eqn:E.
    + split.
      * intros [= <-]. exists [], sigs. auto.
      * intros ([|b before] & after & H & Hc & Hb).
        -- now injection H as -> _.
        -- injection H as <- _. inversion Hb; congruence.
    + rewrite IH. split.
      * intros (before & after & -> & Hc & Hb). exists (s :: before), after. auto.
      * intros ([|b before] & after & H & Hc & Hb).
        -- injection H as <- _. congruence.
        -- injection H as <- ->. inversion Hb. eauto.
Qed.

Lemma first_signature_None (fd : list byte) (sigs : list (list byte)) :
  first_signature fd sigs = None <->
  existsb (fun s => contains s fd) sigs = false.
Proof.
  induction sigs as [|s sigs IH]; simpl; [tauto|].
  destruct (contains s fd); simpl; [split; discriminate | exact IH].
Qed.

Lemma mark_one_fst (data : list byte) (sigs : list (list byte)) (se : nat * nat) :
  map fst (mark_one data sigs se) = if span_marked data sigs se then [se] else [].
Proof.
  unfold mark_one, span_marked.
  destruct (first_signature _ sigs) as [sig|] eqn:E.
  - destruct (existsb _ sigs) eqn:Ex.
    + now destruct se.
    + apply first_signature_None in Ex. congruence.
  - apply first_signature_None in E. now rewrite E.
Qed.

Lemma marked_spans_filter (data : list byte) (ps : list nat) (sigs : list (list byte)) :
  map fst (mark_files data ps sigs) =
    filter (span_marked data sigs) (block_spans data ps).
Proof.
  rewrite mark_files_flat_map.
  induction (block_spans data ps) as [|se l IH]; auto.
  cbn [flat_map filter].
  rewrite map_app, mark_one_fst.
  destruct (span_marked data sigs se); simpl; [f_equal|]; exact IH.
Qed.

(** *** Sorting a list that is already ascending reverses it *)

Lemma insert_desc_last (x : nat * nat * list byte) (l : list (nat * nat * list byte)) :
  Forall (fun y => fst (fst x) < fst (fst y)) l -> insert_desc x l = l ++ [x].
Proof.
  induction 1 as [|y l Hy Hl IH]; simpl; auto.
  destruct (Nat.leb_spec (fst (fst y)) (fst (fst x))); [lia|].
  now rewrite IH.
Qed.

Lemma sort_desc_ascending (l : list (nat * nat * list byte)) :
  StronglySorted (fun a b => fst (fst a) < fst (fst b)) l -> sort_desc l = rev l.
Proof.
  induction 1 as [|x l Hs IH Hx]; simpl; auto.
  unfold sort_desc in *. simpl. rewrite IH. apply insert_desc_last.
  apply Forall_rev. exact Hx.
Qed.

(** *** Deleting from the back *)

Lemma chain_bound (c : nat) (spans : list (nat * nat)) (len : nat) :
  chain c spans len -> c <= len.
Proof.
  revert c. induction spans as [|[s e] rest IH]; simpl; intros c; auto.
  intros (H1 & H2 & H3). apply IH in H3. lia.
Qed.

Lemma chain_weaken (c c' : nat) (spans : list (nat * nat)) (len : nat) :
  c <= c' -> chain c' spans len -> chain c spans len.
Proof.
  destruct spans as [|[s e] rest]; simpl; intros; [lia|]. intuition lia.
Qed.

Lemma chain_filter (f : nat * nat -> bool) (c : nat) (spans : list (nat * nat)) (len : nat) :
  chain c spans len -> chain c (filter f spans) len.
Proof.
  revert c. induction spans as [|[s e] rest IH]; intros c; simpl; auto.
  intros (H1 & H2 & H3). destruct (f (s, e)); simpl.
  - auto.
  - apply IH. apply chain_weaken with e; auto. lia.
Qed.

Lemma delete_all_rev (data : list byte) (ds : list (nat * nat * list byte)) (c : nat) :
  chain c (map fst ds) (length data) ->
  delete_all data (rev ds) =
    firstn c data ++ copy_spans data (retained_spans c (map fst ds) (length data)).
Proof.
  revert c. induction ds as [|[[s e] name] ds IH]; intros c; simpl.
  - intros Hc. unfold copy_spans. simpl. rewrite app_nil_r, slice_to_end.
    symmetry. apply firstn_skipn.
  - intros (Hcs & Hse & Hrest). pose proof (chain_bound _ _ _ Hrest) as He.
    unfold delete_all in *. rewrite fold_left_app. simpl. rewrite (IH e Hrest).
    unfold copy_spans at 2. simpl.
    fold (copy_spans data (retained_spans e (map fst ds) (length data))).
    set (X := copy_spans data _).
    unfold del_slice. rewrite Nat.max_r by lia.
    rewrite firstn_app, firstn_firstn, Nat.min_l by lia.
    rewrite length_firstn, Nat.min_l by lia.
    replace (s - e) with 0 by lia. rewrite firstn_0, app_nil_r.
    rewrite skipn_app, length_firstn, Nat.min_l by lia.
    rewrite Nat.sub_diag, skipn_0.
    rewrite (skipn_all2 (firstn e data)) by (rewrite length_firstn; lia).
    simpl. rewrite app_assoc. f_equal.
    rewrite <- (slice_from_start data s), <- (slice_from_start data c).
    symmetry. apply slice_app_adjacent; lia.
Qed.

(** *** The spans of ascending positions *)

Lemma spans_of_starts (ps : list nat) (len : nat) :
  map fst (spans_of ps len) = ps.
Proof. induction ps as [|p rest IH]; simpl; congruence. Qed.

Lemma spans_of_chain (ps : list nat) (len c : nat) :
  StronglySorted lt ps -> Forall (fun p => p <= len) ps ->
  c <= hd len ps -> chain c (spans_of ps len) len.
Proof.
  intros Hs. revert c. induction Hs as [|p rest Hs IH Hp]; intros c Hb Hc; simpl in *.
  - exact Hc.
  - inversion Hb as [|? ? Hp_len Hrest]; subst.
    assert (Hnext : p <= hd len rest).
    { destruct rest as [|q rest']; simpl; auto.
      inversion Hp; subst. lia. }
    repeat split; auto.
Qed.

Lemma sorted_map_inv {A B : Type} (f : A -> B) (R : B -> B -> Prop) (l : list A) :
  StronglySorted R (map f l) -> StronglySorted (fun a b => R (f a) (f b)) l.
Proof.
  induction l as [|x l IH]; simpl; intros H; [constructor|].
  inversion H as [|? ? Hs Hx]; subst. constructor; auto.
  rewrite Forall_forall in *. intros y Hy. apply Hx. now apply in_map.
Qed.

Lemma mark_files_ascending (data : list byte) (ps : list nat) (sigs : list (list byte)) :
  StronglySorted lt ps ->
  StronglySorted (fun a b => fst (fst a) < fst (fst b)) (mark_files data ps sigs).
Proof.
  intros Hs.
  apply (sorted_map_inv fst (fun a b => fst a < fst b)).
  rewrite marked_spans_filter, block_spans_spans_of.
  apply filter_sorted. apply (sorted_map_inv fst lt).
  now rewrite spans_of_starts.
Qed.

Lemma mark_files_no_signatures (data : list byte) (ps : list nat) :
  mark_files data ps [] = [].
Proof.
  rewrite mark_files_flat_map. induction (block_spans data ps); simpl; auto.
Qed.

Lemma remove_as_deletion (data : list byte) (ps : list nat)
    (fo : option (list (list byte))) :
  StronglySorted lt ps ->
  remove_files_from_archive data ps fo =
    delete_all data (rev (mark_files data ps (effective fo))).
Proof.
  intros Hs. unfold remove_files_from_archive. fold (effective fo).
  destruct (effective fo) as [|sig sigs] eqn:Es.
  - simpl. now rewrite mark_files_no_signatures.
  - destruct ps as [|p ps']; [reflexivity|]. cbn [is_empty orb].
    destruct (mark_files data (p :: ps') (sig :: sigs)) as [|d ds] eqn:Em;
      [reflexivity|]. cbn [is_empty].
    f_equal. apply sort_desc_ascending. rewrite <- Em.
    now apply mark_files_ascending.
Qed.

Lemma remove_as_copy (data : list byte) (ps : list nat)
    (fo : option (list (list byte))) :
  StronglySorted lt ps -> Forall (fun p => p <= length data) ps ->
  remove_files_from_archive data ps fo = remove_by_copying data ps (effective fo).
Proof.
  intros Hs Hb. rewrite remove_as_deletion by assumption.
  rewrite (delete_all_rev data _ 0).
  - reflexivity.
  - rewrite marked_spans_filter, block_spans_spans_of.
    apply chain_filter, spans_of_chain; auto. lia.
Qed.

Lemma copy_retained_unmarked (data : list byte) (m : nat * nat -> bool)
    (ps : list nat) (c : nat) :
  StronglySorted lt ps -> Forall (fun p => p <= length data) ps ->
  c <= hd (length data) ps ->
  copy_spans data (retained_spans c (filter m (spans_of ps (length data))) (length data)) =
    slice data c (hd (length data) ps) ++
    copy_spans data (filter (fun se => negb (m se)) (spans_of ps (length data))).
Proof.
  intros Hs. revert c. induction Hs as [|p rest Hs IH Hp]; intros c Hb Hc.
  - reflexivity.
  - inversion Hb as [|? ? Hp_len Hrest]; subst.
    assert (Hnext : p <= hd (length data) rest).
    { destruct rest as [|q rest']; simpl; auto. inversion Hp; subst. lia. }
    cbn [spans_of filter hd] in *.
    destruct (m (p, hd (length data) rest)); cbn [negb retained_spans].
    + unfold copy_spans at 1. cbn [map concat fst snd].
      fold (copy_spans data (retained_spans (hd (length data) rest)
              (filter m (spans_of rest (length data))) (length data))).
      rewrite IH by auto. now rewrite (slice_empty data _ _ (Nat.le_refl _)).
    + rewrite IH by (try assumption; lia).
      unfold copy_spans at 2. cbn [map concat fst snd].
      rewrite app_assoc. f_equal. symmetry. apply slice_app_adjacent; auto.
Qed.

Lemma remove_keeps_unmarked (data : list byte) (ps : list nat)
    (fo : option (list (list byte))) :
  StronglySorted lt ps -> Forall (fun p => p <= length data) ps ->
  remove_files_from_archive data ps fo =
    firstn (hd (length data) ps) data ++
    copy_unmarked_blocks data ps (effective fo).
Proof.
  intros Hs Hb. rewrite remove_as_copy by assumption.
  unfold remove_by_copying, copy_unmarked_blocks.
  rewrite marked_spans_filter, block_spans_spans_of.
  rewrite copy_retained_unmarked by (auto; lia).
  now rewrite slice_from_start.
Qed.

(** Positions reported by the scanner are ascending and inside the buffer. *)
Lemma find_all_bounded (data : list byte) :
  Forall (fun p => p <= length data) (find_all_mdmd_patterns data).
Proof.
  apply Forall_forall. intros p Hp. apply find_all_In in Hp.
  pose proof (occurs_at_bound _ _ _ Hp mdmd_nonempty). lia.
Qed.

(** C2 (corrected): deleting the marked spans from the highest start
    offset down gives byte for byte the buffer obtained by copying the
    complement of the marked spans in order, for every list of spans
    that lie in ascending order without overlap inside the buffer, and so
    for the spans [remove_files_from_archive] marks among the block spans
    of ascending match positions.  That buffer is the bytes before the
    first match followed by the unmarked block spans: it is the copy of
    the unmarked block spans alone exactly when the first match is at
    offset 0 (or there is no match and the buffer is empty). *)
Theorem descending_deletion_equals_copying (data : list byte) (ps : list nat)
    (fo : option (list (list byte))) :
  StronglySorted lt ps -> Forall (fun p => p <= length data) ps ->
  (forall ds : list (nat * nat * list byte),
     StronglySorted (fun a b => fst (fst a) < fst (fst b)) ds ->
     chain 0 (map fst ds) (length data) ->
     delete_all data (sort_desc ds) =
       copy_spans data (retained_spans 0 (map fst ds) (length data))) /\
  remove_files_from_archive data ps fo =
    delete_all data (rev (mark_files data ps (effective fo))) /\
  remove_files_from_archive data ps fo = remove_by_copying data ps (effective fo) /\
  cleaned data = remove_by_copying data (find_all_mdmd_patterns data) FILES_TO_REMOVE /\
  remove_files_from_archive data ps fo =
    firstn (hd (length data) ps) data ++ copy_unmarked_blocks data ps (effective fo) /\
  (remove_files_from_archive data ps fo = copy_unmarked_blocks data ps (effective fo)
   <-> hd (length data) ps = 0).
Proof.
  intros Hs Hb. split; [|split; [|split; [|split; [|split]]]].
  - intros ds Hds Hchain. rewrite sort_desc_ascending by assumption.
    now rewrite (delete_all_rev data ds 0).
  - now apply remove_as_deletion.
  - now apply remove_as_copy.
  - apply (remove_as_copy data _ None).
    + apply find_all_sorted.
    + apply find_all_bounded.
  - now apply remove_keeps_unmarked.
  - rewrite remove_keeps_unmarked by assumption. split.
    + intros H.
      assert (Hle : hd (length data) ps <= length data).
      { destruct ps as [|p ps']; [simpl; lia|]. now inversion Hb. }
      apply (f_equal (@length byte)) in H.
      rewrite length_app, length_firstn in H. lia.
    + intros H0. now rewrite H0.
Qed.

Lemma span_marked_spec (data : list byte) (sigs : list (list byte)) (se : nat * nat) :
  span_marked data sigs se = true <->
  exists sig pre post,
    In sig sigs /\ slice data (fst se) (snd se) = pre ++ sig ++ post.
Proof.
  unfold span_marked. rewrite existsb_exists. split.
  - intros (sig & Hin & Hc). apply contains_spec in Hc.
    destruct Hc as (pre & post & Hc). now exists sig, pre, post.
  - intros (sig & pre & post & Hin & Hc). exists sig. split; auto.
    apply contains_spec. now exists pre, post.
Qed.

Lemma mark_files_first_match (data : list byte) (ps : list nat)
    (sigs : list (list byte)) (s e : nat) (name : list byte) :
  In (s, e, name) (mark_files data ps sigs) ->
  exists before sig after,
    sigs = before ++ sig :: after /\
    name = decode_ascii_ignore sig /\
    contains sig (slice data s e) = true /\
    Forall (fun s' => contains s' (slice data s e) = false) before.
Proof.
  rewrite mark_files_flat_map, in_flat_map. intros ([s' e'] & _ & Hin).
  unfold mark_one in Hin. cbn [fst snd] in Hin.
  destruct (first_signature (slice data s' e') sigs) as [sig|] eqn:E; [|destruct Hin].
  destruct Hin as [[= -> -> <-]|[]].
  apply first_signature_Some in E. destruct E as (before & after & -> & Hc & Hb).
  now exists before, sig, after.
Qed.

Lemma remove_noop (data : list byte) (ps : list nat) (fo : option (list (list byte))) :
  effective fo = [] \/ ps = [] \/ mark_files data ps (effective fo) = [] ->
  remove_files_from_archive data ps fo = data.
Proof.
  unfold remove_files_from_archive. fold (effective fo).
  intros [-> | [-> | H]]; [reflexivity | | ].
  - now rewrite orb_true_r.
  - rewrite H. simpl. now destruct (_ || _).
Qed.

(** C3: a block span is put on the deletion list exactly when one of the
    exclusion signatures occurs in its bytes, the recorded name being that
    of the first signature of the list that occurs; for ascending
    positions the result is the bytes before the first match followed by
    the unmarked spans in their order; and with no signatures, no
    positions or nothing marked the buffer comes back as it was. *)
Theorem remove_files_marks_by_content (data : list byte) (ps : list nat)
    (fo : option (list (list byte))) :
  map fst (mark_files data ps (effective fo)) =
    filter (span_marked data (effective fo)) (block_spans data ps) /\
  (forall se, span_marked data (effective fo) se = true <->
     exists sig pre post,
       In sig (effective fo) /\ slice data (fst se) (snd se) = pre ++ sig ++ post) /\
  (forall s e name, In (s, e, name) (mark_files data ps (effective fo)) ->
     exists before sig after,
       effective fo = before ++ sig :: after /\
       name = decode_ascii_ignore sig /\
       contains sig (slice data s e) = true /\
       Forall (fun s' => contains s' (slice data s e) = false) before) /\
  (StronglySorted lt ps -> Forall (fun p => p <= length data) ps ->
   remove_files_from_archive data ps fo =
     firstn (hd (length data) ps) data ++
     copy_unmarked_blocks data ps (effective fo)) /\
  (effective fo = [] \/ ps = [] \/ mark_files data ps (effective fo) = [] ->
   remove_files_from_archive data ps fo = data).
Proof.
  split; [apply marked_spans_filter|].
  split; [apply span_marked_spec|].
  split; [apply mark_files_first_match|].
  split; [apply remove_keeps_unmarked|apply remove_noop].
Qed.

(** * IndexBuilder *)


Lemma byte_of_Z_value (v : Z) :
  Z.of_N (Byte.to_N (byte_of_Z v)) = (v mod 256)%Z.
Proof.
  unfold byte_of_Z.
  assert (Hr : (0 <= v mod 256 < 256)%Z) by (apply Z.mod_pos_bound; lia).
  destruct (Byte.of_N (Z.to_N (v mod 256))) as [b|] eqn:E.
  - apply Byte.to_of_N in E. rewrite E. lia.
  - apply Byte.of_N_None_iff in E. lia.
Qed.

Lemma le_bytes_length (n : nat) (v : Z) : length (le_bytes n v) = n.
Proof. revert v. induction n as [|n IH]; intros v; simpl; auto. Qed.

Lemma from_bytes_le_bytes (n : nat) (v : Z) :
  (0 <= v < 256 ^ Z.of_nat n)%Z -> from_bytes (le_bytes n v) = v.
Proof.
  revert v. induction n as [|n IH]; intros v Hv.
  - simpl in *. lia.
  - cbn [le_bytes from_bytes]. rewrite byte_of_Z_value, IH.
    + pose proof (Z.div_mod v 256). lia.
    + rewrite Nat2Z.inj_succ, Z.pow_succ_r in Hv by lia.
      split; [apply Z.div_pos; lia|].
      apply Z.div_lt_upper_bound; lia.
Qed.

Lemma to_bytes_Ok (n : nat) (v : Z) :
  (0 <= v < 256 ^ Z.of_nat n)%Z -> to_bytes n v = Ok (le_bytes n v).
Proof.
  intros [H1 H2]. unfold to_bytes.
  destruct (Z.leb_spec 0 v); [|lia]. destruct (Z.ltb_spec v (256 ^ Z.of_nat n)); [|lia].
  reflexivity.
Qed.

Lemma to_bytes_inv (n : nat) (v : Z) (b : list byte) :
  to_bytes n v = Ok b -> (0 <= v < 256 ^ Z.of_nat n)%Z /\ b = le_bytes n v.
Proof.
  unfold to_bytes.
  destruct (Z.leb_spec 0 v); [|discriminate].
  destruct (Z.ltb_spec v (256 ^ Z.of_nat n)); [|discriminate].
  intros [= <-]. auto.
Qed.

Lemma skipn_repeat {A : Type} (x : A) (n k : nat) :
  skipn n (repeat x k) = repeat x (k - n).
Proof.
  revert k. induction n as [|n IH]; intros [|k]; simpl; auto.
Qed.

Lemma slice_set_slice {A : Type} (l v : list A) (s e : nat) :
  s <= length l -> s <= e -> length v = e - s ->
  slice (set_slice l s e v) s e = v.
Proof.
  intros Hs Hse Hv. unfold slice, set_slice.
  rewrite skipn_app, length_firstn, Nat.min_l by lia.
  rewrite Nat.sub_diag, skipn_0.
  rewrite (skipn_all2 (firstn s l)) by (rewrite length_firstn; lia).
  simpl. rewrite firstn_app, <- Hv, firstn_all, Nat.sub_diag, firstn_0.
  apply app_nil_r.
Qed.

(** *** The name field *)

Lemma split_space_first_spec (b : list byte) :
  exists rest, b = split_space_first b ++ rest /\
    Forall (fun x => x <> x20) (split_space_first b) /\
    (rest = [] \/ hd x00 rest = x20).
Proof.
  induction b as [|x b (rest & Hb & Hrun & Hrest)]; simpl.
  - exists []. auto.
  - destruct (Byte.eqb x x20) eqn:E.
    + apply byte_eqb_eq in E. subst. exists (x20 :: b). auto.
    + exists rest. repeat split; auto.
      * simpl. now rewrite <- Hb.
      * constructor; auto. intros ->. now rewrite byte_eqb_refl in E.
Qed.

Lemma block_name_length (data : list byte) (pos : nat) :
  length (block_name data pos) <= 13.
Proof. unfold block_name. rewrite length_firstn. lia. Qed.

Lemma index_record_layout (data : list byte) (pos : nat) :
  index_record data pos =
    block_name data pos ++ repeat x00 (NAME_LEN - length (block_name data pos)).
Proof.
  unfold index_record, set_slice. simpl firstn. rewrite Nat.max_r by lia.
  now rewrite skipn_repeat.
Qed.

Lemma index_record_length (data : list byte) (pos : nat) :
  length (index_record data pos) = 17.
Proof.
  rewrite index_record_layout, length_app, repeat_length.
  pose proof (block_name_length data pos). unfold NAME_LEN. lia.
Qed.

Lemma name_excluded_spec (name_bytes : list byte) :
  name_excluded name_bytes = true <->
  In (upper (decode_ascii_ignore name_bytes)) filenames_to_exclude.
Proof.
  unfold name_excluded. rewrite existsb_exists. split.
  - intros (x & Hin & Heq). apply bytes_eqb_eq in Heq. now subst.
  - intros Hin. eexists. split; [exact Hin|]. now apply bytes_eqb_eq.
Qed.

(** *** The two loops *)

Lemma index_step_eq (data : list byte) (bs : list (list byte)) (fs : list nat) (p : nat) :
  index_step data (bs, fs) p =
    if keep_in_index data p then (bs ++ [index_record data p], fs ++ [p])
    else (bs, fs).
Proof.
  unfold index_step, keep_in_index, index_record.
  now destruct (name_excluded (block_name data p)).
Qed.

Lemma build_index_fold (data : list byte) (ps : list nat)
    (bs : list (list byte)) (fs : list nat) :
  fold_left (index_step data) ps (bs, fs) =
    (bs ++ map (index_record data) (filter (keep_in_index data) ps),
     fs ++ filter (keep_in_index data) ps).
Proof.
  revert bs fs. induction ps as [|p ps IH]; intros bs fs.
  - simpl. now rewrite !app_nil_r.
  - cbn [fold_left filter]. rewrite index_step_eq.
    destruct (keep_in_index data p).
    + rewrite IH. cbn [map]. now rewrite <- !app_assoc.
    + apply IH.
Qed.

Lemma build_index_filter (data : list byte) (ps : list nat) :
  build_index data ps =
    (map (index_record data) (filter (keep_in_index data) ps),
     filter (keep_in_index data) ps).
Proof. unfold build_index. now rewrite build_index_fold. Qed.

Lemma patch_offsets_Ok (data : list byte) (base : nat) (l : list nat) :
  Forall (fun pos => (Z.of_nat (pos + base) < 2 ^ 24)%Z) l ->
  patch_offsets (combine (map (index_record data) l) l) base =
    Ok (map (patched_record data base) l).
Proof.
  induction 1 as [|p l Hp Hl IH]; simpl; auto.
  rewrite to_bytes_Ok by (change (256 ^ Z.of_nat 3)%Z with (2 ^ 24)%Z; lia).
  simpl. rewrite IH. reflexivity.
Qed.

Lemma patched_record_length (data : list byte) (base pos : nat) :
  length (patched_record data base pos) = 17.
Proof.
  unfold patched_record. rewrite set_slice_length.
  - apply index_record_length.
  - lia.
  - rewrite index_record_length. lia.
  - now rewrite le_bytes_length.
Qed.

Lemma patched_record_offset (data : list byte) (base pos : nat) :
  (Z.of_nat (pos + base) < 2 ^ 24)%Z ->
  offset_field (patched_record data base pos) = Z.of_nat (base + pos).
Proof.
  intros H. unfold offset_field, patched_record.
  rewrite slice_set_slice.
  - rewrite from_bytes_le_bytes; [f_equal; lia|].
    change (256 ^ Z.of_nat 3)%Z with (2 ^ 24)%Z. lia.
  - rewrite index_record_length. lia.
  - lia.
  - now rewrite le_bytes_length.
Qed.

Lemma patched_record_name (data : list byte) (base pos : nat) :
  firstn 13 (patched_record data base pos) = firstn 13 (index_record data pos).
Proof.
  unfold patched_record, set_slice. rewrite firstn_app, firstn_firstn.
  rewrite length_firstn, index_record_length. simpl. now rewrite app_nil_r.
Qed.


Lemma retained_positions_filter (data : list byte) :
  retained_positions data =
    filter (keep_in_index (cleaned data)) (find_all_mdmd_patterns (cleaned data)).
Proof. unfold retained_positions. now rewrite build_index_filter. Qed.

Lemma process_archive_Ok (data : list byte) :
  Forall (fun pos => (Z.of_nat (pos + base_offset_of data) < 2 ^ 24)%Z)
         (retained_positions data) ->
  process_archive data =
    Ok (map (patched_record (cleaned data) (base_offset_of data)) (retained_positions data),
        cleaned data, length (retained_positions data), retained_positions data).
Proof.
  intros H. unfold process_archive. fold (cleaned data).
  unfold base_offset_of in *. rewrite retained_positions_filter in *.
  rewrite build_index_filter, length_map.
  change (length (filter (keep_in_index (cleaned data))
                         (find_all_mdmd_patterns (cleaned data))) * NAME_LEN + HEADER_SIZE)
    with (length (filter (keep_in_index (cleaned data))
                         (find_all_mdmd_patterns (cleaned data))) * 17 + 122).
  now rewrite patch_offsets_Ok.
Qed.

(** C1: when every adjusted offset fits in three bytes, [process_archive]
    returns, for each retained entry, a 17-byte record whose 3-byte
    little-endian offset field is [entry_count * 17 + 122] plus the
    position at which that block's signature matches in the buffer left
    by the removal. *)
Theorem index_offset_is_base_plus_position (data : list byte) :
  Forall (fun pos => (Z.of_nat (pos + base_offset_of data) < 2 ^ 24)%Z)
         (retained_positions data) ->
  exists index_blocks,
    process_archive data =
      Ok (index_blocks, cleaned data, length (retained_positions data),
          retained_positions data) /\
    length index_blocks = length (retained_positions data) /\
    base_offset_of data = length index_blocks * 17 + 122 /\
    forall i pos, nth_error (retained_positions data) i = Some pos ->
      occurs_at MDMD_SIGNATURE (cleaned data) pos /\
      exists index_block,
        nth_error index_blocks i = Some index_block /\
        length index_block = 17 /\
        offset_field index_block = Z.of_nat (base_offset_of data + pos).
Proof.
  intros H. eexists. split; [now apply process_archive_Ok|].
  rewrite length_map. split; [reflexivity|]. split; [reflexivity|].
  intros i pos Hi. split.
  - apply nth_error_In in Hi. rewrite retained_positions_filter in Hi.
    apply filter_In in Hi. now apply find_all_In.
  - exists (patched_record (cleaned data) (base_offset_of data) pos).
    split; [now rewrite nth_error_map, Hi|].
    split; [apply patched_record_length|].
    apply patched_record_offset.
    rewrite Forall_forall in H. apply H. eapply nth_error_In; eauto.
Qed.

Lemma to_N_inj (x y : byte) : Byte.to_N x = Byte.to_N y -> x = y.
Proof.
  intros H. pose proof (Byte.of_to_N x) as Hx. rewrite H, Byte.of_to_N in Hx.
  now injection Hx.
Qed.

Lemma upper_of_spec (x y : byte) : upper_of x y <-> y = upper_char x.
Proof.
  assert (Hu : upper_of x (upper_char x)).
  { unfold upper_of, upper_char. cbv zeta.
    destruct ((97 <=? Byte.to_N x)%N && (Byte.to_N x <=? 122)%N) eqn:E; [|reflexivity].
    apply andb_true_iff in E. destruct E as [E1 E2].
    apply N.leb_le in E1, E2.
    pose proof (byte_of_Z_value (Z.of_N (Byte.to_N x) - 32)) as Hv.
    rewrite Z.mod_small in Hv by lia. lia. }
  split.
  - intros H. apply to_N_inj. unfold upper_of in *. congruence.
  - intros ->. exact Hu.
Qed.

Lemma normalized_spec (b t : list byte) :
  normalized b t <-> upper (decode_ascii_ignore b) = t.
Proof.
  split.
  - induction 1 as [|x b t Hx _ IH|x y b t Hx Hu _ IH].
    + reflexivity.
    + unfold decode_ascii_ignore in *. cbn [filter].
      replace (Byte.to_N x <? 128)%N with false
        by (symmetry; apply N.ltb_ge; exact Hx).
      exact IH.
    + unfold decode_ascii_ignore in *. cbn [filter].
      replace (Byte.to_N x <? 128)%N with true
        by (symmetry; apply N.ltb_lt; exact Hx).
      unfold upper in *. cbn [map]. apply upper_of_spec in Hu. now subst.
  - intros <-. induction b as [|x b IH]; [constructor|].
    unfold decode_ascii_ignore in *. cbn [filter].
    destruct (Byte.to_N x <? 128)%N eqn:E.
    + unfold upper in *. cbn [map]. apply normalized_keep.
      * now apply N.ltb_lt.
      * now apply upper_of_spec.
      * exact IH.
    + apply normalized_skip; [now apply N.ltb_ge|exact IH].
Qed.

(** C5: the name of a block is the run of bytes before the first space
    in the 32 bytes that start 0x2A after the match, cut to 13 bytes; the
    block is left out of the index exactly when the uppercased ASCII
    decoding of that name is one of the uppercased excluded names, that
    is when the name and an excluded name, with the bytes from 0x80 on
    left out and the small letters moved to capitals, are the same
    string, so [patch.ofs] and [PATCH.OFS] with a byte 0xE9 in it are
    left out as [PATCH.OFS] is, and [PATCH.OF] is kept; every record
    built is 17 bytes, the name first and zero bytes after it. *)
Theorem index_names_and_records (data : list byte) (positions : list nat) :
  (forall pos, exists run rest,
      slice data (pos + 0x2A) (pos + 0x2A + 32) = run ++ rest /\
      Forall (fun x => x <> x20) run /\
      (rest = [] \/ hd x00 rest = x20) /\
      block_name data pos = firstn 13 run) /\
  (forall pos, keep_in_index data pos = false <->
      In (upper (decode_ascii_ignore (block_name data pos)))
         (map (fun sig => upper (decode_ascii_ignore sig)) FILES_TO_REMOVE)) /\
  build_index data positions =
    (map (index_record data) (filter (keep_in_index data) positions),
     filter (keep_in_index data) positions) /\
  (forall pos,
      length (block_name data pos) <= 13 /\
      length (index_record data pos) = 17 /\
      index_record data pos =
        block_name data pos ++ repeat x00 (17 - length (block_name data pos))) /\
  (forall pos, keep_in_index data pos = false <->
      exists sig t, In sig FILES_TO_REMOVE /\
                    normalized sig t /\ normalized (block_name data pos) t) /\
  (forall pos, keep_in_index data pos = false <->
      normalized (block_name data pos) (list_byte_of_string "PATCH.OFS") \/
      normalized (block_name data pos) (list_byte_of_string "OBJECT.OFS")) /\
  (forall name, normalized name (upper (decode_ascii_ignore name))) /\
  upper (decode_ascii_ignore (list_byte_of_string "patch.ofs"))
    = list_byte_of_string "PATCH.OFS" /\
  upper (decode_ascii_ignore (list_byte_of_string "PATCH" ++ [xe9] ++
                              list_byte_of_string ".OFS"))
    = list_byte_of_string "PATCH.OFS" /\
  name_excluded (list_byte_of_string "patch.ofs") = true /\
  name_excluded (list_byte_of_string "PATCH" ++ [xe9] ++ list_byte_of_string ".OFS")
    = true /\
  name_excluded (list_byte_of_string "Object.Ofs") = true /\
  name_excluded (list_byte_of_string "PATCH.OF") = false.
Proof.
  assert (Hex : forall pos, keep_in_index data pos = false <->
      In (upper (decode_ascii_ignore (block_name data pos)))
         (map (fun sig => upper (decode_ascii_ignore sig)) FILES_TO_REMOVE)).
  { intros pos. unfold keep_in_index. rewrite negb_false_iff.
    apply name_excluded_spec. }
  split; [|split; [|split; [|split; [|split; [|split; [|split]]]]]].
  - intros pos.
    destruct (split_space_first_spec (slice data (pos + 0x2A) (pos + 0x2A + 32)))
      as (rest & H1 & H2 & H3).
    eexists _, rest. repeat split; eauto.
  - exact Hex.
  - apply build_index_filter.
  - intros pos. split; [apply block_name_length|].
    split; [apply index_record_length|apply index_record_layout].
  - intros pos. rewrite Hex, in_map_iff. split.
    + intros (sig & Heq & Hin). exists sig, (upper (decode_ascii_ignore sig)).
      split; [exact Hin|]. split; apply normalized_spec; [reflexivity|now symmetry].
    + intros (sig & t & Hin & Hs & Hn). exists sig. split; [|exact Hin].
      apply normalized_spec in Hs, Hn. congruence.
  - intros pos. rewrite Hex, !normalized_spec.
    change (map (fun sig => upper (decode_ascii_ignore sig)) FILES_TO_REMOVE)
      with [list_byte_of_string "PATCH.OFS"; list_byte_of_string "OBJECT.OFS"].
    simpl In. split.
    + intros [H|[H|[]]]; [left|right]; now symmetry.
    + intros [H|H]; [left|right; left]; now symmetry.
  - intros name. now apply normalized_spec.
  - repeat split; vm_compute; reflexivity.
Qed.

(** * HeaderBuilder *)


Lemma build_header_layout (file_count : nat) (mtime mod_date : datetime) :
  (Z.of_nat (file_count * 17) < 2 ^ 16)%Z ->
  datetime_add mtime TIME_OFFSET = Ok mod_date ->
  (0 <= dos_time_of mod_date < 2 ^ 16)%Z ->
  (0 <= dos_date_of mod_date < 2 ^ 16)%Z ->
  build_header_dynamically file_count mtime =
    Ok (header_layout
          (byte_of_Z (Z.of_nat file_count))
          (byte_of_Z (Z.of_nat file_count / 256))
          (byte_of_Z (Z.of_nat (file_count * 17)))
          (byte_of_Z (Z.of_nat (file_count * 17) / 256))
          (byte_of_Z (dos_time_of mod_date))
          (byte_of_Z (dos_time_of mod_date / 256))
          (byte_of_Z (dos_date_of mod_date))
          (byte_of_Z (dos_date_of mod_date / 256)),
        dos_time_of mod_date, dos_date_of mod_date).
Proof.
  intros Hc Hdt Ht Hd. unfold build_header_dynamically.
  rewrite Hdt. cbn [bind].
  change (256 ^ Z.of_nat 2)%Z with (2 ^ 16)%Z in *.
  rewrite (to_bytes_Ok 2 (Z.of_nat HEADER_SIZE)) by (unfold HEADER_SIZE; simpl; lia).
  rewrite (to_bytes_Ok 2 (Z.of_nat file_count))
    by (change (256 ^ Z.of_nat 2)%Z with (2 ^ 16)%Z; lia).
  unfold NAME_LEN.
  rewrite (to_bytes_Ok 2 (Z.of_nat (file_count * 17)))
    by (change (256 ^ Z.of_nat 2)%Z with (2 ^ 16)%Z; lia).
  rewrite (to_bytes_Ok 2 (dos_time_of mod_date)) by assumption.
  rewrite (to_bytes_Ok 2 (dos_date_of mod_date)) by assumption.
  cbn [le_bytes].
  generalize (byte_of_Z (Z.of_nat file_count)) (byte_of_Z (Z.of_nat file_count / 256))
             (byte_of_Z (Z.of_nat (file_count * 17)))
             (byte_of_Z (Z.of_nat (file_count * 17) / 256))
             (byte_of_Z (dos_time_of mod_date)) (byte_of_Z (dos_time_of mod_date / 256))
             (byte_of_Z (dos_date_of mod_date)) (byte_of_Z (dos_date_of mod_date / 256))
             (dos_time_of mod_date) (dos_date_of mod_date).
  intros c0 c1 s0 s1 t0 t1 d0 d1 t d. reflexivity.
Qed.

(** Conversely, a header is built only within these bounds, and is
    then this literal. *)
Lemma build_header_inv (file_count : nat) (mtime : datetime)
    (header : list byte) (t d : Z) :
  build_header_dynamically file_count mtime = Ok (header, t, d) ->
  exists mod_date,
    datetime_add mtime TIME_OFFSET = Ok mod_date /\
    (Z.of_nat (file_count * 17) < 2 ^ 16)%Z /\
    (0 <= dos_time_of mod_date < 2 ^ 16)%Z /\
    (0 <= dos_date_of mod_date < 2 ^ 16)%Z /\
    t = dos_time_of mod_date /\ d = dos_date_of mod_date /\
    header = header_layout
          (byte_of_Z (Z.of_nat file_count))
          (byte_of_Z (Z.of_nat file_count / 256))
          (byte_of_Z (Z.of_nat (file_count * 17)))
          (byte_of_Z (Z.of_nat (file_count * 17) / 256))
          (byte_of_Z (dos_time_of mod_date))
          (byte_of_Z (dos_time_of mod_date / 256))
          (byte_of_Z (dos_date_of mod_date))
          (byte_of_Z (dos_date_of mod_date / 256)).
Proof.
  unfold build_header_dynamically, NAME_LEN.
  destruct (datetime_add mtime TIME_OFFSET) as [md|e] eqn:Hdt;
    destruct (to_bytes 2 (Z.of_nat HEADER_SIZE)) as [hs|] eqn:E0;
    destruct (to_bytes 2 (Z.of_nat file_count)) as [cb|] eqn:E1;
    destruct (to_bytes 2 (Z.of_nat (file_count * 17))) as [tb|] eqn:E2;
    cbn [bind];
    try (repeat (match goal with
                 | |- bind ?m _ = Ok _ -> _ => destruct m; cbn [bind]
                 end); intros Hb; discriminate Hb).
  destruct (to_bytes 2 (dos_time_of md)) as [tmb|] eqn:E3; cbn [bind];
    try (repeat (match goal with
                 | |- bind ?m _ = Ok _ -> _ => destruct m; cbn [bind]
                 end); intros Hb; discriminate Hb).
  destruct (to_bytes 2 (dos_date_of md)) as [db|] eqn:E4; cbn [bind];
    try (repeat (match goal with
                 | |- bind ?m _ = Ok _ -> _ => destruct m; cbn [bind]
                 end); intros Hb; discriminate Hb).
  apply to_bytes_inv in E0, E1, E2, E3, E4.
  change (256 ^ Z.of_nat 2)%Z with (2 ^ 16)%Z in *.
  destruct E0 as [_ ->], E1 as [_ ->], E2 as [H2 ->], E3 as [H3 ->], E4 as [H4 ->].
  cbn [le_bytes].
  remember (byte_of_Z (Z.of_nat file_count)) as c0 eqn:Ec0.
  remember (byte_of_Z (Z.of_nat file_count / 256)) as c1 eqn:Ec1.
  remember (byte_of_Z (Z.of_nat (file_count * 17))) as s0 eqn:Es0.
  remember (byte_of_Z (Z.of_nat (file_count * 17) / 256)) as s1 eqn:Es1.
  remember (byte_of_Z (dos_time_of md)) as t0 eqn:Et0.
  remember (byte_of_Z (dos_time_of md / 256)) as t1 eqn:Et1.
  remember (byte_of_Z (dos_date_of md)) as d0 eqn:Ed0.
  remember (byte_of_Z (dos_date_of md / 256)) as d1 eqn:Ed1.
  intros Hb.
  assert (Hb' : Ok (header_layout c0 c1 s0 s1 t0 t1 d0 d1,
                    dos_time_of md, dos_date_of md) = Ok (header, t, d))
    by exact Hb.
  injection Hb' as <- <- <-.
  exists md. repeat split; auto; try lia. congruence.
Qed.

(** *** Calendar arithmetic *)

Lemma days_before_next_year (y : Z) :
  days_before_year (y + 1) =
    (days_before_year y + 365 + (if is_leap y then 1 else 0))%Z.
Proof.
  unfold days_before_year, is_leap.
  replace (y + 1 - 1)%Z with y by lia.
  destruct (Z.eqb_spec (y mod 4) 0), (Z.eqb_spec (y mod 100) 0),
           (Z.eqb_spec (y mod 400) 0); cbn [negb andb orb];
    Z.div_mod_to_equations; lia.
Qed.

Lemma days_in_month_bounds (y m : Z) : (28 <= days_in_month y m <= 31)%Z.
Proof.
  unfold days_in_month.
  destruct (m =? 2)%Z; [destruct (is_leap y); lia|].
  destruct ((m =? 4) || (m =? 6) || (m =? 9) || (m =? 11))%Z; lia.
Qed.

Lemma days_before_next_month (y m : Z) :
  (1 <= m < 12)%Z ->
  days_before_month y (m + 1) = (days_before_month y m + days_in_month y m)%Z.
Proof.
  intros Hm.
  assert (Hcases : (m = 1 \/ m = 2 \/ m = 3 \/ m = 4 \/ m = 5 \/ m = 6 \/
                    m = 7 \/ m = 8 \/ m = 9 \/ m = 10 \/ m = 11)%Z) by lia.
  unfold days_before_month, days_in_month.
  repeat (destruct Hcases as [-> | Hcases]); try subst m;
    destruct (is_leap y); reflexivity.
Qed.

Lemma next_day_ordinal (y m d : Z) :
  valid_date y m d ->
  let '(y', m', d') := next_day (y, m, d) in
  valid_date y' m' d' /\ ordinal y' m' d' = (ordinal y m d + 1)%Z.
Proof.
  intros [Hm Hd]. unfold next_day.
  pose proof (days_in_month_bounds y m) as Hb.
  destruct (Z.ltb_spec d (days_in_month y m)) as [Hlt|Hge].
  - cbv beta iota zeta. split; [split; lia|]. unfold ordinal. lia.
  - assert (d = days_in_month y m) by lia. subst d.
    destruct (Z.ltb_spec m 12) as [Hm12|Hm12]; cbv beta iota zeta.
    + split.
      * split; [lia|]. pose proof (days_in_month_bounds y (m + 1)). lia.
      * unfold ordinal. rewrite days_before_next_month by lia. lia.
    + assert (m = 12)%Z by lia. subst m. split.
      * split; [lia|]. pose proof (days_in_month_bounds (y + 1) 1). lia.
      * unfold ordinal. rewrite days_before_next_year.
        unfold days_before_month, days_in_month.
        destruct (is_leap y); simpl; lia.
Qed.

Lemma iter_next_day_ordinal (n : nat) (y m d : Z) :
  valid_date y m d ->
  let '(y', m', d') := Nat.iter n next_day (y, m, d) in
  valid_date y' m' d' /\ ordinal y' m' d' = (ordinal y m d + Z.of_nat n)%Z.
Proof.
  intros Hv. induction n as [|n IH].
  - simpl. split; auto. lia.
  - change (Nat.iter (S n) next_day (y, m, d))
      with (next_day (Nat.iter n next_day (y, m, d))).
    destruct (Nat.iter n next_day (y, m, d)) as [[y1 m1] d1].
    destruct IH as [Hv1 Ho1].
    pose proof (next_day_ordinal y1 m1 d1 Hv1) as Hn.
    destruct (next_day (y1, m1, d1)) as [[y2 m2] d2].
    destruct Hn as [Hv2 Ho2]. split; auto. lia.
Qed.

(** Adding a non-negative number of seconds moves the time by exactly
    that much. *)
Lemma datetime_add_exact (dt md : datetime) (delta : Z) :
  valid_datetime dt -> (0 <= delta)%Z ->
  datetime_add dt delta = Ok md ->
  valid_datetime md /\ linear_seconds md = (linear_seconds dt + delta)%Z.
Proof.
  intros [Hdate (Hh & Hmi & Hs)] Hdelta. unfold datetime_add.
  set (total := (hour dt * 3600 + minute dt * 60 + second dt + delta)%Z).
  assert (Htot : (0 <= total)%Z) by (unfold total; lia).
  pose proof (iter_next_day_ordinal (Z.to_nat (total / 86400)) _ _ _ Hdate) as Hit.
  destruct (Nat.iter _ next_day _) as [[y m] d]. destruct Hit as [Hv Ho].
  destruct (9999 <? y)%Z; [discriminate|]. intros [= <-].
  rewrite Z2Nat.id in Ho by (apply Z.div_pos; lia).
  unfold valid_datetime, linear_seconds. cbn [year month day hour minute second].
  split.
  - split; auto. Z.div_mod_to_equations. lia.
  - rewrite Ho. fold total. Z.div_mod_to_equations. lia.
Qed.

(** *** The packed fields fit in 16 bits *)

Lemma lor_lt_pow2 (a b n : Z) :
  (0 <= a < 2 ^ n)%Z -> (0 <= b < 2 ^ n)%Z -> (0 <= Z.lor a b < 2 ^ n)%Z.
Proof.
  intros Ha Hb.
  assert (Hn : (0 <= n)%Z).
  { destruct (Z.le_gt_cases 0 n); auto. rewrite Z.pow_neg_r in Ha; lia. }
  split; [apply Z.lor_nonneg; lia|].
  destruct (Z.eq_dec (Z.lor a b) 0) as [->|Hne]; [lia|].
  assert (Hpos : (0 < Z.lor a b)%Z).
  { pose proof (proj2 (Z.lor_nonneg a b) (conj (proj1 Ha) (proj1 Hb))). lia. }
  apply Z.log2_lt_pow2; auto. rewrite Z.log2_lor by lia.
  apply Z.max_lub_lt.
  - destruct (Z.eq_dec a 0) as [->|]; [simpl|apply Z.log2_lt_pow2; lia].
    destruct (Z.eq_dec n 0) as [->|]; [|lia].
    assert (b = 0)%Z by (simpl in Hb; lia). subst. now simpl in Hne.
  - destruct (Z.eq_dec b 0) as [->|]; [simpl|apply Z.log2_lt_pow2; lia].
    destruct (Z.eq_dec n 0) as [->|]; [|lia].
    assert (a = 0)%Z by (simpl in Ha; lia). subst. now simpl in Hne.
Qed.

Lemma dos_time_bounds (md : datetime) :
  valid_datetime md -> (0 <= dos_time_of md < 2 ^ 16)%Z.
Proof.
  intros [_ (Hh & Hmi & Hs)]. unfold dos_time_of.
  rewrite !Z.shiftl_mul_pow2 by lia.
  repeat apply lor_lt_pow2; change (2 ^ 16)%Z with 65536%Z;
    change (2 ^ 11)%Z with 2048%Z; change (2 ^ 5)%Z with 32%Z; try lia.
  Z.div_mod_to_equations. lia.
Qed.

Lemma dos_date_bounds (md : datetime) :
  valid_datetime md -> (1980 <= year md < 2108)%Z ->
  (0 <= dos_date_of md < 2 ^ 16)%Z.
Proof.
  intros [[Hm Hd] _] Hy. unfold dos_date_of.
  pose proof (days_in_month_bounds (year md) (month md)).
  rewrite !Z.shiftl_mul_pow2 by lia.
  repeat apply lor_lt_pow2; change (2 ^ 16)%Z with 65536%Z;
    change (2 ^ 9)%Z with 512%Z; change (2 ^ 5)%Z with 32%Z; lia.
Qed.

(** *** The header fields *)

Lemma u16_le_bytes (v : Z) :
  (0 <= v < 2 ^ 16)%Z ->
  from_bytes [byte_of_Z v; byte_of_Z (v / 256)] = v.
Proof. intros H. now apply (from_bytes_le_bytes 2 v). Qed.

Lemma build_header_Ok (file_count : nat) (mtime mod_date : datetime) :
  (Z.of_nat (file_count * 17) < 2 ^ 16)%Z ->
  valid_datetime mtime ->
  datetime_add mtime TIME_OFFSET = Ok mod_date ->
  (1980 <= year mod_date < 2108)%Z ->
  exists header,
    build_header_dynamically file_count mtime =
      Ok (header, dos_time_of mod_date, dos_date_of mod_date) /\
    length header = 122 /\
    slice header 0x0A 0x0C = le_bytes 2 (Z.of_nat file_count) /\
    slice header 0x19 0x1B = le_bytes 2 (Z.of_nat (file_count * 17)) /\
    slice header 0x1D 0x1F = le_bytes 2 (Z.of_nat (file_count * 17)) /\
    slice header 0x23 0x25 = le_bytes 2 (dos_time_of mod_date) /\
    slice header 0x25 0x27 = le_bytes 2 (dos_date_of mod_date).
Proof.
  intros Hc Hv Hdt Hy.
  destruct (datetime_add_exact mtime mod_date TIME_OFFSET Hv) as [Hvm _];
    [unfold TIME_OFFSET; lia | assumption |].
  eexists. split.
  - apply build_header_layout; auto using dos_time_bounds, dos_date_bounds.
  - cbn [le_bytes].
    generalize (byte_of_Z (Z.of_nat file_count)) (byte_of_Z (Z.of_nat file_count / 256))
               (byte_of_Z (Z.of_nat (file_count * 17)))
               (byte_of_Z (Z.of_nat (file_count * 17) / 256))
               (byte_of_Z (dos_time_of mod_date)) (byte_of_Z (dos_time_of mod_date / 256))
               (byte_of_Z (dos_date_of mod_date)) (byte_of_Z (dos_date_of mod_date / 256)).
    intros. repeat split; reflexivity.
Qed.

Lemma build_header_fields (file_count : nat) (mtime : datetime)
    (header : list byte) (t d : Z) :
  build_header_dynamically file_count mtime = Ok (header, t, d) ->
  exists mod_date,
    datetime_add mtime TIME_OFFSET = Ok mod_date /\
    t = dos_time_of mod_date /\ d = dos_date_of mod_date /\
    length header = 122 /\
    slice header 0x0A 0x0C = le_bytes 2 (Z.of_nat file_count) /\
    slice header 0x19 0x1B = le_bytes 2 (Z.of_nat (file_count * 17)) /\
    slice header 0x1D 0x1F = le_bytes 2 (Z.of_nat (file_count * 17)) /\
    u16_at header 0x0A = Z.of_nat file_count /\
    u16_at header 0x19 = Z.of_nat (file_count * 17) /\
    u16_at header 0x1D = Z.of_nat (file_count * 17) /\
    u16_at header 0x23 = t /\
    u16_at header 0x25 = d.
Proof.
  intros Hb. apply build_header_inv in Hb.
  destruct Hb as (md & Hdt & Hc & Ht & Hd & -> & -> & ->).
  exists md. split; [exact Hdt|]. split; [reflexivity|]. split; [reflexivity|].
  split; [reflexivity|]. split; [reflexivity|]. split; [reflexivity|].
  split; [reflexivity|].
  assert (Hn : (0 <= Z.of_nat file_count < 2 ^ 16)%Z) by lia.
  assert (Hs : (0 <= Z.of_nat (file_count * 17) < 2 ^ 16)%Z) by lia.
  pose proof (u16_le_bytes _ Hn) as E1. pose proof (u16_le_bytes _ Hs) as E2.
  pose proof (u16_le_bytes _ Ht) as E3. pose proof (u16_le_bytes _ Hd) as E4.
  revert E1 E2 E3 E4.
  generalize (byte_of_Z (Z.of_nat file_count)) (byte_of_Z (Z.of_nat file_count / 256))
             (byte_of_Z (Z.of_nat (file_count * 17)))
             (byte_of_Z (Z.of_nat (file_count * 17) / 256))
             (byte_of_Z (dos_time_of md)) (byte_of_Z (dos_time_of md / 256))
             (byte_of_Z (dos_date_of md)) (byte_of_Z (dos_date_of md / 256)).
  intros c0 c1 s0 s1 t0 t1 d0 d1 E1 E2 E3 E4.
  repeat split; assumption.
Qed.

(** C6: every header built is 122 bytes and holds the file count as a
    little-endian u16 at 0x0A and the table size [entry_count * 17] as a
    little-endian u16 at both 0x19 and 0x1D, the two copies being
    identical; for three entries the bytes are 03 00 and twice 33 00.
    A header is built whenever [entry_count * 17] fits in 16 bits and the
    corrected timestamp can be packed. *)
Theorem header_count_and_table_size (file_count : nat) (mtime : datetime) :
  (forall header dos_time dos_date,
     build_header_dynamically file_count mtime = Ok (header, dos_time, dos_date) ->
     length header = 122 /\
     u16_at header 0x0A = Z.of_nat file_count /\
     u16_at header 0x19 = Z.of_nat (file_count * 17) /\
     u16_at header 0x1D = Z.of_nat (file_count * 17) /\
     slice header 0x19 0x1B = slice header 0x1D 0x1F /\
     (file_count = 3 ->
      slice header 0x0A 0x0C = [x03; x00] /\
      slice header 0x19 0x1B = [x33; x00] /\
      slice header 0x1D 0x1F = [x33; x00])) /\
  (forall mod_date,
     (Z.of_nat (file_count * 17) < 2 ^ 16)%Z ->
     valid_datetime mtime ->
     datetime_add mtime TIME_OFFSET = Ok mod_date ->
     (1980 <= year mod_date < 2108)%Z ->
     exists header dos_time dos_date,
       build_header_dynamically file_count mtime = Ok (header, dos_time, dos_date)).
Proof.
  split.
  - intros header t d Hb.
    destruct (build_header_fields _ _ _ _ _ Hb)
      as (md & _ & _ & _ & Hlen & Hc & Hs1 & Hs2 & Hu0 & Hu1 & Hu2 & _ & _).
    split; [exact Hlen|]. split; [exact Hu0|]. split; [exact Hu1|].
    split; [exact Hu2|]. split; [now rewrite Hs1, Hs2|].
    intros ->. rewrite Hc, Hs1, Hs2. repeat split; reflexivity.
  - intros mod_date Hc Hv Hdt Hy.
    destruct (build_header_Ok file_count mtime mod_date Hc Hv Hdt Hy)
      as (header & Hb & _).
    now exists header, (dos_time_of mod_date), (dos_date_of mod_date).
Qed.

(** C7: the timestamp packed into the header is the source modification
    time plus [TIME_OFFSET], which moves a valid time forward by exactly
    4 h 30 min; it is packed as
    [date = ((year-1980)<<9) | (month<<5) | day] and
    [time = (hour<<11) | (minute<<5) | (second div 2)], the time stored
    as a little-endian u16 at 0x23 and the date at 0x25; 2023-06-15
    14:30:10 becomes 2023-06-15 19:00:10 and is packed accordingly. *)
Theorem header_timestamp (file_count : nat) (mtime : datetime) :
  (forall header dos_time dos_date,
     build_header_dynamically file_count mtime = Ok (header, dos_time, dos_date) ->
     exists mod_date,
       datetime_add mtime TIME_OFFSET = Ok mod_date /\
       dos_date = Z.lor (Z.lor (Z.shiftl (year mod_date - 1980) 9)
                               (Z.shiftl (month mod_date) 5)) (day mod_date) /\
       dos_time = Z.lor (Z.lor (Z.shiftl (hour mod_date) 11)
                               (Z.shiftl (minute mod_date) 5)) (second mod_date / 2) /\
       u16_at header 0x23 = dos_time /\
       u16_at header 0x25 = dos_date) /\
  (forall mod_date,
     valid_datetime mtime ->
     datetime_add mtime TIME_OFFSET = Ok mod_date ->
     valid_datetime mod_date /\
     linear_seconds mod_date = (linear_seconds mtime + (4 * 3600 + 30 * 60))%Z /\
     ((Z.of_nat (file_count * 17) < 2 ^ 16)%Z ->
      (1980 <= year mod_date < 2108)%Z ->
      exists header,
        build_header_dynamically file_count mtime =
          Ok (header, dos_time_of mod_date, dos_date_of mod_date))) /\
  datetime_add (mkDatetime 2023 6 15 14 30 10) TIME_OFFSET =
    Ok (mkDatetime 2023 6 15 19 0 10) /\
  (mtime = mkDatetime 2023 6 15 14 30 10 ->
   (Z.of_nat (file_count * 17) < 2 ^ 16)%Z ->
   exists header,
     build_header_dynamically file_count mtime =
       Ok (header,
           Z.lor (Z.lor (Z.shiftl 19 11) (Z.shiftl 0 5)) 5,
           Z.lor (Z.lor (Z.shiftl (2023 - 1980) 9) (Z.shiftl 6 5)) 15)).
Proof.
  split; [|split; [|split]].
  - intros header t d Hb.
    destruct (build_header_fields _ _ _ _ _ Hb)
      as (md & Hdt & -> & -> & _ & _ & _ & _ & _ & _ & _ & Ht & Hd).
    exists md. repeat split; assumption.
  - intros mod_date Hv Hdt.
    destruct (datetime_add_exact mtime mod_date TIME_OFFSET Hv) as [Hvm Hlin];
      [unfold TIME_OFFSET; lia | assumption |].
    split; [exact Hvm|]. split; [exact Hlin|].
    intros Hc Hy.
    destruct (build_header_Ok file_count mtime mod_date Hc Hv Hdt Hy)
      as (header & Hb & _).
    now exists header.
  - reflexivity.
  - intros -> Hc.
    destruct (build_header_Ok file_count (mkDatetime 2023 6 15 14 30 10)
                (mkDatetime 2023 6 15 19 0 10) Hc) as (header & Hb & _).
    + vm_compute; repeat split; discriminate || reflexivity.
    + reflexivity.
    + vm_compute; split; discriminate || reflexivity.
    + now exists header.
Qed.

(** * PathRewriter *)


Lemma nth_error_split_at {A : Type} (l : list A) (n : nat) (x : A) :
  nth_error l n = Some x -> l = firstn n l ++ x :: skipn (S n) l.
Proof.
  revert l. induction n as [|n IH]; intros [|y l]; simpl; try discriminate.
  - now intros [= ->].
  - intros H. f_equal. now apply IH.
Qed.

Lemma pad_loop_spec (fuel : nat) (data : list byte) (pos : nat) :
  length data - pos < fuel ->
  pad_loop fuel data pos = Ok (firstn pos data ++ pad_spaces (skipn pos data)).
Proof.
  revert data pos. induction fuel as [|fuel IH]; intros data pos Hfuel; [lia|].
  cbn [pad_loop]. destruct (nth_error data pos) as [b|] eqn:E.
  - pose proof (nth_error_split_at _ _ _ E) as Hsplit.
    assert (Hlt : pos < length data) by (apply nth_error_Some; congruence).
    assert (Hskip : skipn pos data = b :: skipn (S pos) data).
    { rewrite Hsplit at 1. rewrite skipn_app, length_firstn, Nat.min_l by lia.
      rewrite Nat.sub_diag, skipn_all2 by (rewrite length_firstn; lia).
      reflexivity. }
    rewrite Hskip. cbn [pad_spaces]. destruct (Byte.eqb b x20).
    + now rewrite <- Hskip, firstn_skipn.
    + unfold set_item. destruct (Nat.ltb_spec pos (length data)); [|lia].
      cbn [bind]. rewrite IH.
      * f_equal. replace (pos + 1) with (length (firstn pos data ++ [x20])).
        2:{ rewrite length_app, length_firstn. simpl. lia. }
        change (firstn pos data ++ x20 :: skipn (S pos) data)
          with (firstn pos data ++ [x20] ++ skipn (S pos) data).
        rewrite app_assoc, firstn_app, Nat.sub_diag, firstn_all, firstn_0, app_nil_r.
        rewrite skipn_app, Nat.sub_diag, skipn_all, skipn_0.
        now rewrite <- app_assoc.
      * rewrite length_app, length_firstn. cbn [length]. rewrite length_skipn. lia.
  - apply nth_error_None in E. rewrite skipn_all2 by lia.
    now rewrite firstn_all2, app_nil_r by lia.
Qed.

Lemma pad_spaces_length (l : list byte) : length (pad_spaces l) = length l.
Proof.
  induction l as [|b l IH]; simpl; auto. destruct (Byte.eqb b x20); simpl; auto.
Qed.

(** Padding turns bytes into spaces up to the first byte that already is
    one (or up to the end) and leaves everything from there on. *)
Lemma pad_spaces_spec (l : list byte) :
  exists run rest,
    l = run ++ rest /\ pad_spaces l = repeat x20 (length run) ++ rest /\
    Forall (fun b => b <> x20) run /\ (rest = [] \/ hd x00 rest = x20).
Proof.
  induction l as [|b l (run & rest & Hl & Hp & Hrun & Hrest)]; simpl.
  - exists [], []. auto.
  - destruct (Byte.eqb b x20) eqn:E.
    + apply byte_eqb_eq in E. subst b. exists [], (x20 :: l). auto.
    + exists (b :: run), rest. simpl. rewrite Hp, <- Hl. repeat split; auto.
      constructor; auto. intros ->. now rewrite byte_eqb_refl in E.
Qed.

Lemma pattern_nonempty : MDMD_FILE_HEADER_PATTERN <> [].
Proof. discriminate. Qed.

Section ReplaceLoop.
Variable path_segment : list byte.

(** One iteration, as an equation. *)
Lemma replace_loop_step (fuel : nat) (data : list byte) (search_pos total : nat)
    (warned : list nat) :
  replace_loop (S fuel) path_segment data search_pos total warned =
    match find data MDMD_FILE_HEADER_PATTERN search_pos with
    | None => Ok (mkPatched data total warned)
    | Some pattern_pos =>
        if length data <=? pattern_pos + 0x36 + length path_segment then
          replace_loop fuel path_segment data (pattern_pos + 1) total
                       (warned ++ [pattern_pos])
        else
          replace_loop fuel path_segment (patch_site path_segment data pattern_pos)
                       (pattern_pos + 1) (total + 1) warned
    end.
Proof.
  cbn [replace_loop]. destruct (find data MDMD_FILE_HEADER_PATTERN search_pos) as [p|];
    [|reflexivity].
  unfold PATH_OFFSET_IN_HEADER.
  destruct (Nat.leb_spec (length data) (p + 0x36 + length path_segment)) as [Hle|Hgt];
    [reflexivity|].
  rewrite pad_loop_spec.
  - cbn [bind]. unfold patch_site, PATH_OFFSET_IN_HEADER. do 2 f_equal.
    unfold set_slice. rewrite Nat.max_r by lia.
    rewrite app_assoc, skipn_app.
    assert (Hl : length (firstn (p + 0x36) data ++ path_segment)
                 = p + 0x36 + length path_segment).
    { rewrite length_app, length_firstn. lia. }
    rewrite Hl, Nat.sub_diag, skipn_0.
    rewrite skipn_all2 by lia. reflexivity.
  - lia.
Qed.

Lemma patch_site_length (data : list byte) (p : nat) :
  p + 0x36 + length path_segment < length data ->
  length (patch_site path_segment data p) = length data.
Proof.
  intros H. unfold patch_site, PATH_OFFSET_IN_HEADER.
  rewrite length_app, pad_spaces_length, length_firstn, length_skipn.
  rewrite set_slice_length; lia.
Qed.

Lemma patch_site_prefix (data : list byte) (p n : nat) :
  p + 0x36 + length path_segment < length data ->
  n <= p + 0x36 ->
  firstn n (patch_site path_segment data p) = firstn n data.
Proof.
  intros H Hn. unfold patch_site, PATH_OFFSET_IN_HEADER, set_slice.
  rewrite firstn_app, firstn_firstn.
  rewrite length_firstn, !length_app, length_firstn, length_skipn.
  replace (n - _) with 0 by lia. rewrite firstn_0, app_nil_r.
  rewrite Nat.min_l by lia.
  rewrite firstn_app, firstn_firstn, Nat.min_l, length_firstn by lia.
  replace (n - _) with 0 by lia. rewrite firstn_0. apply app_nil_r.
Qed.

(** The loop ends, and never changes the length of the buffer. *)
Lemma replace_loop_total (fuel : nat) (data : list byte) (search_pos total : nat)
    (warned : list nat) :
  length data - search_pos < fuel ->
  exists r, replace_loop fuel path_segment data search_pos total warned = Ok r /\
            length (p_data r) = length data.
Proof.
  revert data search_pos total warned.
  induction fuel as [|fuel IH]; intros data sp total warned Hfuel; [lia|].
  rewrite replace_loop_step.
  destruct (find data MDMD_FILE_HEADER_PATTERN sp) as [p|] eqn:E.
  - apply find_Some in E. destruct E as ([Hp1 Hp2] & Hocc & _).
    pose proof (occurs_at_bound _ _ _ Hocc pattern_nonempty) as Hb.
    change (length MDMD_FILE_HEADER_PATTERN) with 12 in Hb.
    destruct (Nat.leb_spec (length data) (p + 0x36 + length path_segment)).
    + apply IH. lia.
    + destruct (IH (patch_site path_segment data p) (p + 1) (total + 1) warned)
        as (r & Hr & Hlen).
      * rewrite patch_site_length by lia. lia.
      * exists r. split; auto. rewrite Hlen. apply patch_site_length. lia.
  - eexists. split; reflexivity.
Qed.

(** A prefix in which no match can start is never written to. *)
Lemma replace_loop_prefix (H : list byte) (fuel : nat) (data : list byte)
    (search_pos total : nat) (warned : list nat) (r : patched) :
  firstn (length H) data = H ->
  (forall d p, firstn (length H) d = H -> search_pos <= p < length H ->
               ~ occurs_at MDMD_FILE_HEADER_PATTERN d p) ->
  replace_loop fuel path_segment data search_pos total warned = Ok r ->
  firstn (length H) (p_data r) = H.
Proof.
  revert data search_pos total warned.
  induction fuel as [|fuel IH]; intros data sp total warned Hpre Hno; [discriminate|].
  rewrite replace_loop_step.
  destruct (find data MDMD_FILE_HEADER_PATTERN sp) as [p|] eqn:E.
  - apply find_Some in E. destruct E as ([Hp1 Hp2] & Hocc & _).
    assert (Hp : length H <= p).
    { destruct (Nat.le_gt_cases (length H) p); auto.
      exfalso. apply (Hno data p); auto. }
    destruct (Nat.leb_spec (length data) (p + 0x36 + length path_segment)).
    + apply IH; auto. intros d q Hd Hq. apply Hno; auto. lia.
    + apply IH.
      * rewrite patch_site_prefix by lia. exact Hpre.
      * intros d q Hd Hq. apply Hno; auto. lia.
  - now intros [= <-].
Qed.
End ReplaceLoop.

(** *** No sub-header signature starts inside the archive header *)


Lemma occurs_at_nth (sub data : list byte) (p k : nat) :
  occurs_at sub data p -> k < length sub ->
  nth_error data (p + k) = nth_error sub k.
Proof.
  intros Hocc Hk. apply occurs_at_starts_with, starts_with_app in Hocc.
  destruct Hocc as [rest Hrest].
  rewrite <- nth_error_skipn, Hrest. now apply nth_error_app1.
Qed.

Lemma header_layout_inner (c0 c1 s0 s1 t0 t1 d0 d1 : byte) (rest : list byte) (p : nat) :
  1 <= p < 122 ->
  ~ occurs_at MDMD_FILE_HEADER_PATTERN
      (header_layout c0 c1 s0 s1 t0 t1 d0 d1 ++ rest) p.
Proof.
  intros Hp Hocc.
  pose proof (fun k => occurs_at_nth _ _ p k Hocc) as Hn.
  destruct p as [|p]; [lia|].
  do 121 (destruct p as [|p]; [refute_match Hn|]).
  lia.
Qed.

Lemma header_layout_start (c0 c1 s0 s1 t0 t1 d0 d1 : byte) (rest : list byte) :
  occurs_at MDMD_FILE_HEADER_PATTERN
      (header_layout c0 c1 s0 s1 t0 t1 d0 d1 ++ rest) 0 <->
  c0 = x00 /\ c1 = x00.
Proof.
  split.
  - intros Hocc. pose proof (fun k => occurs_at_nth _ _ 0 k Hocc) as Hn.
    generalize (Hn 10 ltac:(simpl; lia)) (Hn 11 ltac:(simpl; lia)). simpl.
    now intros [= ->] [= ->].
  - intros [-> ->]. apply occurs_at_starts_with, starts_with_app.
    eexists. reflexivity.
Qed.

Lemma patched_header_inner (s0 s1 t0 t1 d0 d1 : byte) (rest : list byte) (p : nat) :
  1 <= p < 122 ->
  ~ occurs_at MDMD_FILE_HEADER_PATTERN
      (patched_header (header_layout x00 x00 s0 s1 t0 t1 d0 d1) ++ rest) p.
Proof.
  intros Hp Hocc.
  pose proof (fun k => occurs_at_nth _ _ p k Hocc) as Hn.
  destruct p as [|p]; [lia|].
  do 121 (destruct p as [|p]; [refute_match Hn|]).
  lia.
Qed.

Lemma replace_default (data : list byte) :
  replace_internal_paths data DEFAULT_TARGET_PATH =
    replace_loop (S (length data)) DEFAULT_PATH_SEGMENT data 0 0 [].
Proof. reflexivity. Qed.

(** The function always returns for an ASCII target path shorter than
    256 bytes, with a buffer of the same length. *)
Lemma replace_internal_paths_total (data target_path path_bytes : list byte) :
  encode_ascii target_path = Ok path_bytes -> length path_bytes < 256 ->
  exists r, replace_internal_paths data target_path = Ok r /\
            length (p_data r) = length data.
Proof.
  intros He Hl. unfold replace_internal_paths, bytes_of_int. rewrite He. cbn [bind].
  destruct (Nat.ltb_spec (length path_bytes) 256) as [_|]; [|lia]. cbn [bind].
  apply replace_loop_total. lia.
Qed.

Lemma replace_loop_counts (seg : list byte) (fuel : nat) (data : list byte)
    (search_pos total : nat) (warned : list nat) (r : patched) :
  replace_loop fuel seg data search_pos total warned = Ok r ->
  total <= total_replacements r.
Proof.
  revert data search_pos total warned.
  induction fuel as [|fuel IH]; intros data sp total warned; [discriminate|].
  rewrite replace_loop_step.
  destruct (find data MDMD_FILE_HEADER_PATTERN sp) as [p|].
  - destruct (_ <=? _); intros Hr; apply IH in Hr; lia.
  - now intros [= <-].
Qed.

Lemma find_here (data sub : list byte) :
  starts_with sub data = true -> find data sub 0 = Some 0.
Proof.
  intros H. unfold find. cbn [Nat.leb skipn].
  destruct data; simpl in *; now rewrite H.
Qed.

Lemma byte_of_Z_zero (v : Z) :
  byte_of_Z v = x00 -> (v mod 256 = 0)%Z.
Proof.
  intros H. rewrite <- byte_of_Z_value, H. reflexivity.
Qed.

Lemma count_bytes_zero (file_count : nat) :
  (Z.of_nat (file_count * 17) < 2 ^ 16)%Z ->
  byte_of_Z (Z.of_nat file_count) = x00 ->
  byte_of_Z (Z.of_nat file_count / 256) = x00 ->
  file_count = 0.
Proof.
  intros Hb H0 H1. apply byte_of_Z_zero in H0, H1.
  change (2 ^ 16)%Z with 65536%Z in Hb.
  Z.div_mod_to_equations. lia.
Qed.

(** With at least one entry, no sub-header signature starts in the
    first 122 bytes of a buffer that begins with the header. *)
Lemma header_has_no_patch_site (file_count : nat) (mtime : datetime)
    (header : list byte) (t d : Z) (buf : list byte) (p : nat) :
  0 < file_count ->
  build_header_dynamically file_count mtime = Ok (header, t, d) ->
  firstn (length header) buf = header -> p < length header ->
  ~ occurs_at MDMD_FILE_HEADER_PATTERN buf p.
Proof.
  intros Hpos Hb Hpre Hp.
  apply build_header_inv in Hb.
  destruct Hb as (md & _ & Hc & _ & _ & _ & _ & ->).
  rewrite <- (firstn_skipn 122 buf).
  change (length (header_layout _ _ _ _ _ _ _ _)) with 122 in *.
  rewrite Hpre. destruct p as [|p].
  - rewrite header_layout_start. intros [H0 H1].
    pose proof (count_bytes_zero _ Hc H0 H1). lia.
  - apply header_layout_inner. lia.
Qed.

Lemma build_header_length (file_count : nat) (mtime : datetime)
    (header : list byte) (t d : Z) :
  build_header_dynamically file_count mtime = Ok (header, t, d) ->
  length header = 122.
Proof.
  intros Hb. apply build_header_inv in Hb.
  destruct Hb as (md & _ & _ & _ & _ & _ & _ & ->). reflexivity.
Qed.

Lemma assemble_header_kept (file_count : nat) (mtime : datetime)
    (header : list byte) (t d : Z) (index_blocks : list (list byte))
    (data : list byte) :
  0 < file_count ->
  build_header_dynamically file_count mtime = Ok (header, t, d) ->
  exists out,
    assemble_and_save header index_blocks data = Ok out /\
    firstn 122 (p_data out) = header.
Proof.
  intros Hpos Hb. pose proof (build_header_length _ _ _ _ _ Hb) as Hlen.
  unfold assemble_and_save. rewrite replace_default.
  set (buf := header ++ concat index_blocks ++ data).
  destruct (replace_loop_total DEFAULT_PATH_SEGMENT (S (length buf)) buf 0 0 [])
    as (out & Hout & _); [lia|].
  exists out. split; [exact Hout|]. rewrite <- Hlen.
  apply (replace_loop_prefix DEFAULT_PATH_SEGMENT header (S (length buf)) buf 0 0 [] out); auto.
  - unfold buf. now rewrite firstn_app, Nat.sub_diag, firstn_all, firstn_0, app_nil_r.
  - intros d' p Hd Hp. eapply header_has_no_patch_site; eauto. lia.
Qed.

Lemma assemble_empty_patched (mtime : datetime)
    (header : list byte) (t d : Z) (index_blocks : list (list byte))
    (data : list byte) :
  build_header_dynamically 0 mtime = Ok (header, t, d) ->
  firstn 12 header = MDMD_FILE_HEADER_PATTERN /\
  slice header 0x36 (0x36 + 15) = x00 :: repeat x20 14 /\
  exists out,
    assemble_and_save header index_blocks data = Ok out /\
    firstn 122 (p_data out) = patched_header header /\
    1 <= total_replacements out /\
    length (p_data out) = 122 + length (concat index_blocks ++ data).
Proof.
  intros Hb. apply build_header_inv in Hb.
  destruct Hb as (md & _ & _ & _ & _ & _ & _ & ->).
  change (byte_of_Z (Z.of_nat 0)) with x00.
  change (byte_of_Z (Z.of_nat 0 / 256)) with x00.
  change (byte_of_Z (Z.of_nat (0 * 17))) with x00.
  change (byte_of_Z (Z.of_nat (0 * 17) / 256)) with x00.
  generalize (byte_of_Z (dos_time_of md)) (byte_of_Z (dos_time_of md / 256))
             (byte_of_Z (dos_date_of md)) (byte_of_Z (dos_date_of md / 256)).
  intros t0 t1 d0 d1.
  set (H := header_layout x00 x00 x00 x00 t0 t1 d0 d1).
  split; [reflexivity|]. split; [reflexivity|].
  unfold assemble_and_save. rewrite replace_default.
  set (rest := concat index_blocks ++ data).
  rewrite replace_loop_step.
  rewrite find_here by reflexivity.
  assert (Hlen : length (H ++ rest) = 122 + length rest)
    by now rewrite length_app.
  destruct (Nat.leb_spec (length (H ++ rest)) (0 + 0x36 + length DEFAULT_PATH_SEGMENT))
    as [Hle|_].
  { rewrite Hlen in Hle. simpl in Hle. lia. }
  assert (Hsite : patch_site DEFAULT_PATH_SEGMENT (H ++ rest) 0 = patched_header H ++ rest)
    by reflexivity.
  rewrite Hsite.
  destruct (replace_loop_total DEFAULT_PATH_SEGMENT (length (H ++ rest))
              (patched_header H ++ rest) (0 + 1) (0 + 1) [])
    as (out & Hout & Hl).
  { rewrite !length_app. change (length (patched_header H)) with 122.
    change (length H) with 122. lia. }
  exists out. split; [exact Hout|].
  split; [|split].
  - change 122 with (length (patched_header H)).
    apply (replace_loop_prefix DEFAULT_PATH_SEGMENT (patched_header H)
             (length (H ++ rest)) (patched_header H ++ rest) (0 + 1) (0 + 1) [] out).
    + now rewrite firstn_app, Nat.sub_diag, firstn_all, firstn_0, app_nil_r.
    + intros d' p Hd Hp. rewrite <- (firstn_skipn 122 d').
      change (length (patched_header H)) with 122 in Hd, Hp. rewrite Hd.
      apply patched_header_inner. lia.
    + exact Hout.
  - apply replace_loop_counts in Hout. simpl in Hout. lia.
  - rewrite Hl, length_app. reflexivity.
Qed.

(** C10: with at least one index entry the 122 header bytes of the
    assembled buffer come out of [replace_internal_paths] unchanged, no
    12-byte sub-header signature starting inside them; with no entry the
    header itself begins with that signature (its file-count field is
    zero), offset 0 is taken as a patch site, and the header bytes from
    0x36 on are overwritten with the length-prefixed target path. *)
Theorem header_patched_only_when_empty :
  (forall file_count mtime header t d index_blocks data,
     0 < file_count ->
     build_header_dynamically file_count mtime = Ok (header, t, d) ->
     (forall p, p < 122 ->
        ~ occurs_at MDMD_FILE_HEADER_PATTERN (header ++ concat index_blocks ++ data) p) /\
     exists out,
       assemble_and_save header index_blocks data = Ok out /\
       firstn 122 (p_data out) = header) /\
  (forall mtime header t d index_blocks data,
     build_header_dynamically 0 mtime = Ok (header, t, d) ->
     firstn 12 header = MDMD_FILE_HEADER_PATTERN /\
     occurs_at MDMD_FILE_HEADER_PATTERN (header ++ concat index_blocks ++ data) 0 /\
     slice header 0x36 (0x36 + 15) = x00 :: repeat x20 14 /\
     exists out,
       assemble_and_save header index_blocks data = Ok out /\
       firstn 122 (p_data out) =
         firstn 0x36 header ++ (x0e :: DEFAULT_TARGET_PATH) ++ skipn (0x36 + 15) header /\
       slice (p_data out) 0x36 (0x36 + 15) = x0e :: DEFAULT_TARGET_PATH /\
       1 <= total_replacements out).
Proof.
  split.
  - intros file_count mtime header t d index_blocks data Hpos Hb. split.
    + intros p Hp. pose proof (build_header_length _ _ _ _ _ Hb) as Hlen.
      eapply header_has_no_patch_site; eauto; [|lia].
      now rewrite firstn_app, Nat.sub_diag, firstn_all, firstn_0, app_nil_r.
    + eapply assemble_header_kept; eauto.
  - intros mtime header t d index_blocks data Hb.
    pose proof (build_header_length _ _ _ _ _ Hb) as Hlen.
    destruct (assemble_empty_patched mtime header t d index_blocks data Hb)
      as (H12 & Hfield & out & Hout & Hpre & Hcount & Hl).
    split; [exact H12|]. split; [|split; [exact Hfield|]].
    + apply occurs_at_starts_with, starts_with_firstn. cbn [skipn].
      change (length MDMD_FILE_HEADER_PATTERN) with 12.
      rewrite firstn_app, Hlen. cbn [Nat.sub firstn]. now rewrite app_nil_r.
    + exists out. split; [exact Hout|]. split; [exact Hpre|]. split; [|exact Hcount].
      unfold slice. rewrite <- (firstn_skipn 122 (p_data out)), Hpre.
      unfold patched_header.
      rewrite skipn_app, length_app, length_firstn, Hlen.
      rewrite Nat.min_l by lia.
      rewrite skipn_app, length_firstn, Hlen, Nat.min_l by lia.
      rewrite skipn_all2 by (rewrite length_firstn; lia).
      cbn [Nat.sub skipn app].
      replace (0x36 + 15 - 0x36) with (length DEFAULT_PATH_SEGMENT) by reflexivity.
      rewrite <- !app_assoc, firstn_app, firstn_all, Nat.sub_diag, firstn_0.
      apply app_nil_r.
Qed.

(** * The pipeline on degenerate inputs *)


Lemma no_signature_no_positions (data : list byte) :
  (forall i, ~ occurs_at MDMD_SIGNATURE data i) ->
  find_all_mdmd_patterns data = [].
Proof.
  intros H. destruct (find_all_mdmd_patterns data) as [|i l] eqn:E; auto.
  exfalso. apply (H i), find_all_In. rewrite E. now left.
Qed.

Lemma process_archive_no_signature (data : list byte) :
  (forall i, ~ occurs_at MDMD_SIGNATURE data i) ->
  process_archive data = Ok ([], data, 0, []).
Proof.
  intros H. unfold process_archive.
  rewrite (no_signature_no_positions data H).
  change (remove_files_from_archive data [] None) with data.
  rewrite (no_signature_no_positions data H). reflexivity.
Qed.

(** C4 (the code departs from the claim at the boundary): for a buffer
    in which the path field of a sub-header ends exactly at the end of
    the buffer, writing the 15 bytes of the field would stay inside the
    buffer, yet [replace_internal_paths] warns, skips the occurrence and
    returns the buffer unchanged with no replacement counted; one more
    byte after the field and the replacement is made.  The same happens
    when such a block is the last one of an archive that goes through
    the whole pipeline: the 69-byte block comes out as it went in. *)
Theorem path_field_ending_at_buffer_end_is_skipped :
  0 + PATH_OFFSET_IN_HEADER + length DEFAULT_PATH_SEGMENT = length exact_fit_block /\
  length (set_slice exact_fit_block 0x36 (0x36 + 15) DEFAULT_PATH_SEGMENT)
    = length exact_fit_block /\
  replace_internal_paths exact_fit_block DEFAULT_TARGET_PATH
    = Ok (mkPatched exact_fit_block 0 [0]) /\
  replace_internal_paths (exact_fit_block ++ [x41]) DEFAULT_TARGET_PATH
    = Ok (mkPatched (firstn 0x36 exact_fit_block ++ DEFAULT_PATH_SEGMENT ++ [x20]) 1 []) /\
  (exists out,
     process_single_file exact_fit_block sample_mtime = Ok out /\
     length out = 122 + 17 + 69 /\
     skipn (122 + 17) out = exact_fit_block).
Proof.
  split; [reflexivity|]. split; [reflexivity|].
  split; [vm_compute; reflexivity|]. split; [vm_compute; reflexivity|].
  eexists. split; [vm_compute; reflexivity|]. split; vm_compute; reflexivity.
Qed.

(** * The theorems at concrete inputs *)


Example sample_archive_positions :
  find_all_mdmd_patterns sample_archive = [0; 53; 121; 175; 232].
Proof. vm_compute. reflexivity. Qed.

Example sample_archive_marked :
  map fst (mark_files sample_archive [0; 53; 121; 175; 232] FILES_TO_REMOVE)
    = [(53, 121); (121, 175)].
Proof. vm_compute. reflexivity. Qed.

Example sample_archive_index :
  retained_positions sample_archive = [0; 110] /\
  find_all_mdmd_patterns (cleaned sample_archive) = [0; 53; 110].
Proof. split; vm_compute; reflexivity. Qed.

Lemma index_offset_witness :
  Forall (fun pos => (Z.of_nat (pos + base_offset_of sample_archive) < 2 ^ 24)%Z)
         (retained_positions sample_archive) /\
  exists index_blocks,
    process_archive sample_archive =
      Ok (index_blocks, cleaned sample_archive, 2, [0; 110]) /\
    map offset_field index_blocks = [156%Z; 266%Z].
Proof.
  assert (H : Forall (fun pos => (Z.of_nat (pos + base_offset_of sample_archive) < 2 ^ 24)%Z)
                     (retained_positions sample_archive)).
  { replace (retained_positions sample_archive) with [0; 110] by (vm_compute; reflexivity).
    replace (base_offset_of sample_archive) with 156 by (vm_compute; reflexivity).
    repeat (constructor; [simpl; lia|]). constructor. }
  split; [exact H|].
  destruct (index_offset_is_base_plus_position sample_archive H) as (blocks & Hp & _).
  exists blocks. split; [exact Hp|].
  vm_compute in Hp. injection Hp as <-. reflexivity.
Defined.

Lemma descending_deletion_witness :
  StronglySorted lt [0; 53; 121; 175; 232] /\
  Forall (fun p => p <= length sample_archive) [0; 53; 121; 175; 232] /\
  remove_files_from_archive sample_archive [0; 53; 121; 175; 232] None =
    remove_by_copying sample_archive [0; 53; 121; 175; 232] FILES_TO_REMOVE.
Proof.
  assert (Hs : StronglySorted lt [0; 53; 121; 175; 232])
    by (repeat (constructor; try lia)).
  assert (Hb : Forall (fun p => p <= length sample_archive) [0; 53; 121; 175; 232])
    by (repeat (constructor; try (vm_compute; lia))).
  split; [exact Hs|]. split; [exact Hb|].
  exact (proj1 (proj2 (proj2 (descending_deletion_equals_copying
                         sample_archive [0; 53; 121; 175; 232] None Hs Hb)))).
Defined.

(** C2, counterexample to the claim as worded: with two bytes before
    the first match, the deletion keeps these bytes and the unmarked
    block, 55 bytes, while copying the unmarked block spans alone gives
    the 53 bytes of the block. *)
Lemma lead_bytes_survive_the_deletion :
  find_all_mdmd_patterns lead_archive = [2; 55] /\
  remove_files_from_archive lead_archive [2; 55] None = firstn 55 lead_archive /\
  copy_unmarked_blocks lead_archive [2; 55] FILES_TO_REMOVE = slice lead_archive 2 55 /\
  length (remove_files_from_archive lead_archive [2; 55] None) = 55 /\
  length (copy_unmarked_blocks lead_archive [2; 55] FILES_TO_REMOVE) = 53.
Proof. repeat split; vm_compute; reflexivity. Qed.

Lemma remove_files_witness :
  StronglySorted lt [0; 53; 121; 175; 232] /\
  Forall (fun p => p <= length sample_archive) [0; 53; 121; 175; 232] /\
  remove_files_from_archive sample_archive [0; 53; 121; 175; 232] None =
    firstn 0 sample_archive ++
    copy_unmarked_blocks sample_archive [0; 53; 121; 175; 232] FILES_TO_REMOVE.
Proof.
  assert (Hs : StronglySorted lt [0; 53; 121; 175; 232])
    by (repeat (constructor; try lia)).
  assert (Hb : Forall (fun p => p <= length sample_archive) [0; 53; 121; 175; 232])
    by (repeat (constructor; try (vm_compute; lia))).
  split; [exact Hs|]. split; [exact Hb|].
  exact (proj1 (proj2 (proj2 (proj2 (remove_files_marks_by_content
                         sample_archive [0; 53; 121; 175; 232] None)))) Hs Hb).
Defined.

Lemma header_count_witness :
  build_header_dynamically 3 sample_mtime = Ok (sample_header 3, 38917%Z, 22223%Z) /\
  length (sample_header 3) = 122 /\
  u16_at (sample_header 3) 0x0A = 3%Z /\
  u16_at (sample_header 3) 0x19 = 51%Z /\
  u16_at (sample_header 3) 0x1D = 51%Z.
Proof.
  assert (Hb : build_header_dynamically 3 sample_mtime
               = Ok (sample_header 3, 38917%Z, 22223%Z))
    by (vm_compute; reflexivity).
  split; [exact Hb|].
  destruct (proj1 (header_count_and_table_size 3 sample_mtime) _ _ _ Hb)
    as (Hlen & Hc & Hs1 & Hs2 & _).
  repeat split; assumption.
Defined.

Lemma header_timestamp_witness :
  valid_datetime sample_mtime /\
  linear_seconds (mkDatetime 2023 6 15 19 0 10) =
    (linear_seconds sample_mtime + (4 * 3600 + 30 * 60))%Z.
Proof.
  assert (Hv : valid_datetime sample_mtime)
    by (vm_compute; repeat split; discriminate || reflexivity).
  split; [exact Hv|].
  refine (proj1 (proj2 (proj1 (proj2 (header_timestamp 3 sample_mtime))
                          (mkDatetime 2023 6 15 19 0 10) Hv _))).
  reflexivity.
Defined.

Lemma header_patched_witness :
  (exists out,
     assemble_and_save (sample_header 1) [] exact_fit_block = Ok out /\
     firstn 122 (p_data out) = sample_header 1) /\
  (exists out,
     assemble_and_save (sample_header 0) [] [] = Ok out /\
     slice (p_data out) 0x36 (0x36 + 15) = x0e :: DEFAULT_TARGET_PATH).
Proof.
  split.
  - destruct (proj1 header_patched_only_when_empty 1 sample_mtime (sample_header 1)
                38917%Z 22223%Z [] exact_fit_block) as (_ & out & Hout & Hpre);
      [lia | vm_compute; reflexivity |].
    exists out. split; assumption.
  - destruct (proj2 header_patched_only_when_empty sample_mtime (sample_header 0)
                38917%Z 22223%Z [] []) as (_ & _ & _ & out & Hout & _ & Hs & _);
      [vm_compute; reflexivity |].
    exists out. split; assumption.
Defined.

(** * Blocks of a buffer and what the removal leaves *)


Lemma occurs_at_app_iff (sub data : list byte) (i : nat) :
  occurs_at sub data i <-> exists rest, skipn i data = sub ++ rest.
Proof. rewrite occurs_at_starts_with. apply starts_with_app. Qed.

(** The signature cannot overlap itself. *)
Lemma mdmd_apart (l : list byte) (i j : nat) :
  occurs_at MDMD_SIGNATURE l i -> occurs_at MDMD_SIGNATURE l j ->
  i < j -> i + 4 <= j.
Proof.
  intros Hi Hj Hlt.
  destruct (Nat.le_gt_cases (i + 4) j) as [|Hgt]; auto. exfalso.
  pose proof (occurs_at_nth _ _ j 0 Hj ltac:(simpl; lia)) as H0.
  pose proof (occurs_at_nth _ _ i (j - i) Hi ltac:(simpl; lia)) as H1.
  replace (i + (j - i)) with j in H1 by lia. rewrite Nat.add_0_r in H0.
  rewrite H0 in H1.
  assert (Hd : j - i = 1 \/ j - i = 2 \/ j - i = 3) by lia.
  destruct Hd as [E | [E | E]]; rewrite E in H1; discriminate.
Qed.

Lemma occurs_at_app_l (sub l1 l2 : list byte) (i : nat) :
  i + length sub <= length l1 ->
  occurs_at sub (l1 ++ l2) i <-> occurs_at sub l1 i.
Proof.
  intros H. unfold occurs_at, slice.
  rewrite skipn_app, firstn_app, length_skipn.
  replace (i + length sub - i - (length l1 - i)) with 0 by lia.
  now rewrite firstn_0, app_nil_r.
Qed.

Lemma occurs_at_app_r (sub l1 l2 : list byte) (i : nat) :
  length l1 <= i ->
  occurs_at sub (l1 ++ l2) i <-> occurs_at sub l2 (i - length l1).
Proof.
  intros H. unfold occurs_at, slice.
  rewrite skipn_app, skipn_all2 by lia. cbn [app].
  now replace (i + length sub - i) with (i - length l1 + length sub - (i - length l1)) by lia.
Qed.

(** No occurrence straddles the start of a chunk that begins with the
    signature. *)
Lemma mdmd_app (l1 l2 : list byte) (i : nat) :
  l2 = [] \/ starts_with MDMD_SIGNATURE l2 = true ->
  occurs_at MDMD_SIGNATURE (l1 ++ l2) i <->
  occurs_at MDMD_SIGNATURE l1 i \/
  (length l1 <= i /\ occurs_at MDMD_SIGNATURE l2 (i - length l1)).
Proof.
  intros Hl2. split.
  - intros Hocc.
    destruct (Nat.le_gt_cases (length l1) i) as [Hge|Hlt].
    { right. split; auto. now apply occurs_at_app_r in Hocc. }
    left.
    destruct (Nat.le_gt_cases (i + 4) (length l1)) as [Hin|Hout].
    { now apply (occurs_at_app_l MDMD_SIGNATURE) in Hocc. }
    exfalso. destruct Hl2 as [-> | Hs].
    + pose proof (occurs_at_bound _ _ _ Hocc mdmd_nonempty) as Hb.
      rewrite app_nil_r in Hb. simpl in Hb. lia.
    + assert (H0 : occurs_at MDMD_SIGNATURE (l1 ++ l2) (length l1)).
      { apply occurs_at_app_r; auto. rewrite Nat.sub_diag.
        now apply occurs_at_starts_with. }
      pose proof (mdmd_apart _ _ _ Hocc H0 Hlt). lia.
  - intros [H | [Hge H]].
    + pose proof (occurs_at_bound _ _ _ H mdmd_nonempty).
      now apply occurs_at_app_l.
    + now apply occurs_at_app_r.
Qed.

Lemma clean_block_length (b : list byte) : clean_block b -> 4 <= length b.
Proof. intros [H _]. now apply starts_with_length in H. Qed.

Lemma clean_block_occurs (b : list byte) (j : nat) :
  clean_block b -> (occurs_at MDMD_SIGNATURE b j <-> j = 0).
Proof.
  intros [Hs Hno]. split.
  - intros H. destruct j; auto. exfalso. apply (Hno (S j)); auto. lia.
  - intros ->. now apply occurs_at_starts_with.
Qed.

(** Occurrences in a sequence of blocks laid after [l1]. *)
Lemma occurs_in_blocks (l1 : list byte) (bs : list (list byte)) (i : nat) :
  Forall clean_block bs ->
  occurs_at MDMD_SIGNATURE (l1 ++ concat bs) i <->
  occurs_at MDMD_SIGNATURE l1 i \/ In i (offsets (length l1) bs).
Proof.
  intros Hbs. revert l1. induction Hbs as [|b bs Hb Hbs IH]; intros l1.
  - simpl. rewrite app_nil_r. tauto.
  - cbn [concat offsets In]. rewrite app_assoc, IH, length_app.
    rewrite mdmd_app by (right; apply Hb).
    rewrite (clean_block_occurs b _ Hb). split.
    + intros [[H | [Hge H]] | H]; auto. right. left. lia.
    + intros [H | [H | H]]; auto. left. right. split; lia.
Qed.

Lemma offsets_lower (start : nat) (bs : list (list byte)) :
  Forall (fun i => start <= i) (offsets start bs).
Proof.
  revert start. induction bs as [|b bs IH]; intros start; simpl; constructor; auto.
  eapply Forall_impl; [|apply IH]. simpl. intros; lia.
Qed.

Lemma offsets_sorted (start : nat) (bs : list (list byte)) :
  Forall clean_block bs -> StronglySorted lt (offsets start bs).
Proof.
  intros Hbs. revert start. induction Hbs as [|b bs Hb Hbs IH]; intros start;
    simpl; constructor; auto.
  apply clean_block_length in Hb.
  eapply Forall_impl; [|apply offsets_lower]. simpl. intros; lia.
Qed.

Lemma sorted_same_elements (l1 l2 : list nat) :
  StronglySorted lt l1 -> StronglySorted lt l2 ->
  (forall x, In x l1 <-> In x l2) -> l1 = l2.
Proof.
  intros H1. revert l2. induction H1 as [|a l1 Hs1 IH Ha]; intros l2 H2 Hin.
  - destruct l2 as [|b l2]; auto. exfalso. apply (Hin b). now left.
  - destruct H2 as [|b l2 Hs2 Hb].
    + exfalso. apply (Hin a). now left.
    + rewrite Forall_forall in Ha, Hb.
      assert (a = b).
      { destruct (proj1 (Hin a) (or_introl eq_refl)) as [E|Hab]; auto.
        destruct (proj2 (Hin b) (or_introl eq_refl)) as [E|Hba]; auto.
        apply Hb in Hab. apply Ha in Hba. lia. }
      subst b. f_equal. apply IH; auto.
      intros x. split; intros Hx.
      * destruct (proj1 (Hin x) (or_intror Hx)) as [E|]; auto.
        subst x. apply Ha in Hx. lia.
      * destruct (proj2 (Hin x) (or_intror Hx)) as [E|]; auto.
        subst x. apply Hb in Hx. lia.
Qed.

Lemma find_all_blocks (pre : list byte) (bs : list (list byte)) :
  (forall i, ~ occurs_at MDMD_SIGNATURE pre i) ->
  Forall clean_block bs ->
  find_all_mdmd_patterns (pre ++ concat bs) = offsets (length pre) bs.
Proof.
  intros Hpre Hbs. apply sorted_same_elements.
  - apply find_all_sorted.
  - now apply offsets_sorted.
  - intros x. rewrite find_all_In, occurs_in_blocks by assumption.
    split; [intros [H|H]; auto; now apply Hpre in H | auto].
Qed.

Lemma slices_of_offsets (pre : list byte) (bs : list (list byte)) :
  map (fun se => slice (pre ++ concat bs) (fst se) (snd se))
      (spans_of (offsets (length pre) bs) (length (pre ++ concat bs))) = bs.
Proof.
  revert pre. induction bs as [|b bs IH]; intros pre; [reflexivity|].
  cbn [offsets spans_of map fst snd concat]. f_equal.
  - assert (Hhd : hd (length (pre ++ b ++ concat bs))
                     (offsets (length pre + length b) bs) = length pre + length b).
    { destruct bs; simpl; auto. rewrite !length_app. simpl. lia. }
    rewrite Hhd. unfold slice.
    rewrite skipn_app, skipn_all, Nat.sub_diag. cbn [skipn app].
    replace (length pre + length b - length pre) with (length b) by lia.
    now rewrite firstn_app, firstn_all, Nat.sub_diag, firstn_0, app_nil_r.
  - specialize (IH (pre ++ b)). rewrite <- app_assoc, length_app in IH. exact IH.
Qed.

(** A buffer made of a signature-free lead and blocks has exactly those
    blocks. *)
Lemma blocks_of_blocks (pre : list byte) (bs : list (list byte)) :
  (forall i, ~ occurs_at MDMD_SIGNATURE pre i) ->
  Forall clean_block bs ->
  blocks_of (pre ++ concat bs) = bs.
Proof.
  intros Hpre Hbs. unfold blocks_of.
  rewrite block_spans_spans_of, find_all_blocks by assumption.
  apply slices_of_offsets.
Qed.

(** *** The spans of the scanner's positions *)

Lemma spans_of_In (ps : list nat) (len p e : nat) :
  StronglySorted lt ps -> Forall (fun q => q <= len) ps ->
  In (p, e) (spans_of ps len) ->
  In p ps /\ e <= len /\ ((p < e /\ In e ps) \/ e = len) /\
  forall q, In q ps -> p < q -> e <= q.
Proof.
  intros Hs. revert p e. induction Hs as [|a rest Hs IH Ha]; intros p e Hb Hin.
  - destruct Hin.
  - inversion Hb as [|? ? Ha_len Hrest]; subst. cbn [spans_of] in Hin.
    destruct Hin as [[= <- <-] | Hin].
    + split; [now left|]. rewrite Forall_forall in Ha.
      destruct rest as [|b rest']; cbn [hd].
      * split; [lia|]. split; [now right|]. intros q [->|[]]; lia.
      * inversion Hrest; subst. split; [assumption|].
        assert (a < b) by (apply Ha; now left).
        split; [left; split; [assumption|right; now left]|].
        intros q [->|[->|Hq]] Hlt; try lia.
        inversion Hs as [|? ? _ Hb']; subst. rewrite Forall_forall in Hb'.
        apply Hb' in Hq. lia.
    + destruct (IH p e Hrest Hin) as (Hp & He & Hee & Hnext).
      split; [now right|]. split; [assumption|]. split; [simpl; tauto|].
      intros q [->|Hq] Hlt; auto.
      rewrite Forall_forall in Ha. apply Ha in Hp. lia.
Qed.

Lemma slice_occurs (sub data : list byte) (s e j : nat) :
  e <= length data -> s + j + length sub <= e ->
  occurs_at sub (slice data s e) j <-> occurs_at sub data (s + j).
Proof.
  intros He Hj. unfold occurs_at, slice.
  rewrite skipn_firstn_comm, firstn_firstn, skipn_skipn.
  rewrite Nat.min_l by lia.
  replace (j + length sub - j) with (length sub) by lia.
  replace (s + j + length sub - (s + j)) with (length sub) by lia.
  now rewrite (Nat.add_comm j s).
Qed.

(** Every block span of a buffer holds a block. *)
Lemma block_spans_clean (data : list byte) (p e : nat) :
  In (p, e) (block_spans data (find_all_mdmd_patterns data)) ->
  p + 4 <= e /\ e <= length data /\ clean_block (slice data p e).
Proof.
  rewrite block_spans_spans_of. intros Hin.
  destruct (spans_of_In _ _ _ _ (find_all_sorted data) (find_all_bounded data) Hin)
    as (Hp & He & Hee & Hnext).
  apply find_all_In in Hp.
  pose proof (occurs_at_bound _ _ _ Hp mdmd_nonempty) as Hpb. simpl in Hpb.
  assert (Hpe : p + 4 <= e).
  { destruct Hee as [[Hlt He'] | ->]; [|lia].
    apply find_all_In in He'. now apply (mdmd_apart data). }
  split; [assumption|]. split; [assumption|]. split.
  - apply (proj1 (occurs_at_starts_with _ (slice data p e) 0)).
    apply (slice_occurs MDMD_SIGNATURE data p e 0); simpl; try lia.
    now rewrite Nat.add_0_r.
  - intros j Hj Hocc.
    pose proof (occurs_at_bound _ _ _ Hocc mdmd_nonempty) as Hjb.
    rewrite slice_length in Hjb by assumption. simpl in Hjb.
    apply slice_occurs in Hocc; [|assumption|simpl; lia].
    apply find_all_In in Hocc. apply Hnext in Hocc; lia.
Qed.

Lemma lead_has_no_signature (data : list byte) (i : nat) :
  ~ occurs_at MDMD_SIGNATURE
      (firstn (hd (length data) (find_all_mdmd_patterns data)) data) i.
Proof.
  intros Hocc.
  pose proof (occurs_at_bound _ _ _ Hocc mdmd_nonempty) as Hb.
  rewrite length_firstn in Hb. simpl in Hb.
  rewrite <- (firstn_skipn (hd (length data) (find_all_mdmd_patterns data)) data)
    in Hocc at 1.
  assert (Hd : occurs_at MDMD_SIGNATURE data i).
  { rewrite <- (firstn_skipn (hd (length data) (find_all_mdmd_patterns data)) data).
    apply occurs_at_app_l; [rewrite length_firstn; simpl; lia|].
    rewrite firstn_skipn in Hocc. exact Hocc. }
  apply find_all_In in Hd. pose proof (find_all_sorted data) as Hs.
  destruct (find_all_mdmd_patterns data) as [|p0 rest]; [destruct Hd|].
  cbn [hd] in Hb. inversion Hs as [|? ? _ Hlt]; subst.
  rewrite Forall_forall in Hlt. destruct Hd as [->|Hd]; [lia|].
  apply Hlt in Hd. lia.
Qed.

Lemma kept_blocks_clean (data : list byte) (f : nat * nat -> bool) :
  Forall clean_block
    (map (fun se => slice data (fst se) (snd se))
         (filter f (block_spans data (find_all_mdmd_patterns data)))).
Proof.
  apply Forall_forall. intros b Hb. apply in_map_iff in Hb.
  destruct Hb as ([p e] & <- & Hin). apply filter_In in Hin.
  now apply block_spans_clean.
Qed.

Lemma span_marked_nil (data : list byte) (se : nat * nat) :
  span_marked data [] se = false.
Proof. reflexivity. Qed.

(** The buffer is its lead followed by its blocks. *)
Lemma buffer_is_lead_and_blocks (data : list byte) :
  data = firstn (hd (length data) (find_all_mdmd_patterns data)) data ++
         concat (blocks_of data).
Proof.
  pose proof (remove_keeps_unmarked data (find_all_mdmd_patterns data) (Some [])
                (find_all_sorted data) (find_all_bounded data)) as H.
  rewrite remove_noop in H by (now left).
  unfold copy_unmarked_blocks, copy_spans, effective in H.
  rewrite (filter_ext _ (fun _ => true)) in H by reflexivity.
  now rewrite filter_true in H.
Qed.

(** The cleaned buffer is the lead followed by the unmarked blocks. *)
Lemma cleaned_is_lead_and_kept (data : list byte) (fo : option (list (list byte))) :
  remove_files_from_archive data (find_all_mdmd_patterns data) fo =
    firstn (hd (length data) (find_all_mdmd_patterns data)) data ++
    concat (map (fun se => slice data (fst se) (snd se))
              (filter (fun se => negb (span_marked data (effective fo) se))
                      (block_spans data (find_all_mdmd_patterns data)))).
Proof.
  apply remove_keeps_unmarked; [apply find_all_sorted|apply find_all_bounded].
Qed.

Lemma blocks_of_cleaned (data : list byte) (fo : option (list (list byte))) :
  blocks_of (remove_files_from_archive data (find_all_mdmd_patterns data) fo) =
    map (fun se => slice data (fst se) (snd se))
        (filter (fun se => negb (span_marked data (effective fo) se))
                (block_spans data (find_all_mdmd_patterns data))).
Proof.
  rewrite cleaned_is_lead_and_kept. apply blocks_of_blocks.
  - apply lead_has_no_signature.
  - apply kept_blocks_clean.
Qed.

Lemma filter_map_comm {A B : Type} (g : A -> B) (f : B -> bool) (l : list A) :
  filter f (map g l) = map g (filter (fun x => f (g x)) l).
Proof.
  induction l as [|x l IH]; simpl; auto. destruct (f (g x)); simpl; congruence.
Qed.

Lemma filter_none {A : Type} (f : A -> bool) (l : list A) :
  (forall x, In x l -> f x = false) -> filter f l = [].
Proof.
  induction l as [|x l IH]; simpl; intros H; auto.
  rewrite (H x) by now left. apply IH. intros y Hy. apply H. now right.
Qed.

(** X1: rescanning the buffer left by the removal finds exactly the
    blocks that were not marked, byte for byte and in their order; the
    bytes before the first match stay where they were; and a second
    removal with the same signatures changes nothing. *)
Theorem removal_leaves_the_unmarked_blocks (data : list byte)
    (fo : option (list (list byte))) :
  let out := remove_files_from_archive data (find_all_mdmd_patterns data) fo in
  blocks_of out =
    filter (fun b => negb (existsb (fun sig => contains sig b) (effective fo)))
           (blocks_of data) /\
  length (find_all_mdmd_patterns out) + length (mark_files data (find_all_mdmd_patterns data) (effective fo))
    = length (find_all_mdmd_patterns data) /\
  firstn (hd (length data) (find_all_mdmd_patterns data)) out =
    firstn (hd (length data) (find_all_mdmd_patterns data)) data /\
  remove_files_from_archive out (find_all_mdmd_patterns out) fo = out.
Proof.
  intros out.
  assert (Hblocks : blocks_of out =
    filter (fun b => negb (existsb (fun sig => contains sig b) (effective fo)))
           (blocks_of data)).
  { unfold out. rewrite blocks_of_cleaned. unfold blocks_of.
    now rewrite filter_map_comm. }
  split; [exact Hblocks|]. split; [|split].
  - assert (Hl : length (find_all_mdmd_patterns out) = length (blocks_of out)).
    { unfold blocks_of, block_spans, enumerate.
      now rewrite !length_map, length_combine, length_seq, Nat.min_id. }
    rewrite Hl. unfold out. rewrite blocks_of_cleaned, length_map.
    rewrite <- (length_map fst (mark_files _ _ _)), marked_spans_filter.
    assert (Hn : length (find_all_mdmd_patterns data)
                 = length (block_spans data (find_all_mdmd_patterns data))).
    { unfold block_spans, enumerate.
      now rewrite length_map, length_combine, length_seq, Nat.min_id. }
    rewrite Hn. generalize (block_spans data (find_all_mdmd_patterns data)).
    intros l. induction l as [|x l IH]; simpl; auto.
    destruct (span_marked data (effective fo) x); simpl; lia.
  - unfold out. rewrite cleaned_is_lead_and_kept.
    assert (Hp0 : hd (length data) (find_all_mdmd_patterns data) <= length data).
    { pose proof (find_all_bounded data) as Hb.
      destruct (find_all_mdmd_patterns data); simpl; [lia|].
      now inversion Hb. }
    rewrite firstn_app, firstn_firstn, Nat.min_id, length_firstn.
    replace (_ - _) with 0 by lia. now rewrite firstn_0, app_nil_r.
  - apply remove_noop. right. right.
    assert (Hm : map fst (mark_files out (find_all_mdmd_patterns out) (effective fo)) = []).
    { rewrite marked_spans_filter. apply filter_none.
      intros se Hse. unfold span_marked.
      assert (Hb : In (slice out (fst se) (snd se)) (blocks_of out))
        by (unfold blocks_of;
            exact (in_map (fun se => slice out (fst se) (snd se)) _ _ Hse)).
      rewrite Hblocks in Hb. apply filter_In in Hb. destruct Hb as [_ Hb].
      now apply negb_true_iff in Hb. }
    destruct (mark_files out _ _); [reflexivity|discriminate].
Qed.

Lemma concat_length_lower (bs : list (list byte)) :
  Forall clean_block bs -> 4 * length bs <= length (concat bs).
Proof.
  induction 1 as [|b bs Hb Hbs IH]; simpl; [lia|].
  apply clean_block_length in Hb. rewrite length_app. lia.
Qed.

(** X2: a buffer is tiled by its blocks: it is the bytes before the first
    match, which hold no signature, followed by the block spans, each of
    which begins with the signature and holds no other occurrence of it;
    so there are at most [len / 4] matches. *)
Theorem blocks_tile_the_buffer (data : list byte) :
  data = firstn (hd (length data) (find_all_mdmd_patterns data)) data ++
         concat (blocks_of data) /\
  (forall i, ~ occurs_at MDMD_SIGNATURE
               (firstn (hd (length data) (find_all_mdmd_patterns data)) data) i) /\
  Forall (fun b => firstn 4 b = MDMD_SIGNATURE /\
                   forall j, 0 < j -> slice b j (j + 4) <> MDMD_SIGNATURE)
         (blocks_of data) /\
  length (blocks_of data) = length (find_all_mdmd_patterns data) /\
  4 * length (find_all_mdmd_patterns data) <= length data.
Proof.
  assert (Hclean : Forall clean_block (blocks_of data)).
  { pose proof (kept_blocks_clean data (fun _ => true)) as H.
    now rewrite filter_true in H. }
  assert (Hlen : length (blocks_of data) = length (find_all_mdmd_patterns data)).
  { unfold blocks_of, block_spans, enumerate.
    now rewrite !length_map, length_combine, length_seq, Nat.min_id. }
  split; [apply buffer_is_lead_and_blocks|].
  split; [apply lead_has_no_signature|]. split; [|split; [exact Hlen|]].
  - eapply Forall_impl; [|exact Hclean]. intros b [Hs Hno]. split.
    + now apply starts_with_firstn in Hs.
    + exact Hno.
  - rewrite (buffer_is_lead_and_blocks data) at 2.
    rewrite length_app, <- Hlen.
    pose proof (concat_length_lower _ Hclean). lia.
Qed.

Lemma span_bytes_cons (s e : nat) (ms : list (nat * nat)) :
  span_bytes ((s, e) :: ms) = (e - s) + span_bytes ms.
Proof. reflexivity. Qed.

Lemma retained_length (data : list byte) (ms : list (nat * nat)) (c len : nat) :
  chain c ms len -> len <= length data ->
  length (copy_spans data (retained_spans c ms len)) + span_bytes ms + c = len.
Proof.
  revert c. induction ms as [|[s e] ms IH]; intros c Hc Hlen.
  - simpl in Hc. unfold copy_spans, span_bytes. simpl.
    rewrite app_nil_r, slice_length by assumption. lia.
  - destruct Hc as (Hcs & Hse & Hrest).
    pose proof (chain_bound _ _ _ Hrest) as He.
    specialize (IH e Hrest Hlen). rewrite span_bytes_cons.
    unfold copy_spans in *. cbn [retained_spans map concat fst snd].
    rewrite length_app, slice_length by lia. lia.
Qed.

(** X3: the removal shortens the buffer by exactly the bytes of the
    marked spans, and by nothing when no span is marked. *)
Theorem removal_shrinks_by_marked_bytes (data : list byte)
    (fo : option (list (list byte))) :
  let ps := find_all_mdmd_patterns data in
  let marked := map fst (mark_files data ps (effective fo)) in
  length (remove_files_from_archive data ps fo) + span_bytes marked = length data /\
  (marked = [] -> remove_files_from_archive data ps fo = data) /\
  Forall (fun se => In se (block_spans data ps) /\ fst se + 4 <= snd se) marked.
Proof.
  intros ps marked. split; [|split].
  - rewrite (remove_as_copy data ps fo (find_all_sorted data) (find_all_bounded data)).
    unfold remove_by_copying. fold marked.
    pose proof (retained_length data marked 0 (length data)) as H.
    rewrite Nat.add_0_r in H. apply H; [|lia].
    unfold marked. rewrite marked_spans_filter, block_spans_spans_of.
    apply chain_filter, spans_of_chain;
      [apply find_all_sorted | apply find_all_bounded | lia].
  - intros Hm. apply remove_noop. right. right.
    unfold marked in Hm. destruct (mark_files data ps (effective fo)); [reflexivity|discriminate].
  - apply Forall_forall. intros [s e] Hin. unfold marked in Hin.
    rewrite marked_spans_filter in Hin. apply filter_In in Hin. destruct Hin as [Hin _].
    split; [exact Hin|]. now apply block_spans_clean in Hin.
Qed.

(** * More on the path rewriter *)

Section Rewriter.
Variable path_segment : list byte.

(** Nothing below [search_pos + 0x36] is written. *)
Lemma replace_loop_low_bytes (fuel : nat) (data : list byte)
    (search_pos total : nat) (warned : list nat) (r : patched) :
  replace_loop fuel path_segment data search_pos total warned = Ok r ->
  firstn (search_pos + 0x36) (p_data r) = firstn (search_pos + 0x36) data.
Proof.
  revert data search_pos total warned.
  induction fuel as [|fuel IH]; intros data sp total warned; [discriminate|].
  rewrite replace_loop_step.
  destruct (find data MDMD_FILE_HEADER_PATTERN sp) as [p|] eqn:E.
  - apply find_Some in E. destruct E as ([Hp1 Hp2] & _ & _).
    destruct (Nat.leb_spec (length data) (p + 0x36 + length path_segment)).
    + intros Hr. apply IH in Hr.
      apply (f_equal (firstn (sp + 0x36))) in Hr.
      rewrite !firstn_firstn in Hr.
      now replace (Nat.min (sp + 0x36) (p + 1 + 0x36)) with (sp + 0x36) in Hr by lia.
    + intros Hr. apply IH in Hr.
      apply (f_equal (firstn (sp + 0x36))) in Hr.
      rewrite !firstn_firstn in Hr.
      replace (Nat.min (sp + 0x36) (p + 1 + 0x36)) with (sp + 0x36) in Hr by lia.
      rewrite Hr. apply patch_site_prefix; lia.
  - now intros [= <-].
Qed.

End Rewriter.

(** X4: [replace_internal_paths] returns for every buffer (with an ASCII
    target path shorter than 256 bytes), keeps the length of the buffer,
    never writes its first 0x36 bytes, and gives the buffer back
    unchanged with no replacement and no warning when the sub-header
    signature does not occur. *)
Theorem rewriter_frame (data target_path path_bytes : list byte) :
  encode_ascii target_path = Ok path_bytes -> length path_bytes < 256 ->
  exists r,
    replace_internal_paths data target_path = Ok r /\
    length (p_data r) = length data /\
    firstn 0x36 (p_data r) = firstn 0x36 data /\
    ((forall i, ~ occurs_at MDMD_FILE_HEADER_PATTERN data i) ->
     r = mkPatched data 0 []).
Proof.
  intros He Hl.
  destruct (replace_internal_paths_total data target_path path_bytes He Hl)
    as (r & Hr & Hlen).
  exists r. split; [exact Hr|]. split; [exact Hlen|].
  unfold replace_internal_paths, bytes_of_int in Hr. rewrite He in Hr. cbn [bind] in Hr.
  destruct (Nat.ltb_spec (length path_bytes) 256) as [_|]; [|lia]. cbn [bind] in Hr.
  split.
  - now apply replace_loop_low_bytes in Hr.
  - intros Hno. rewrite replace_loop_step in Hr.
    destruct (find data MDMD_FILE_HEADER_PATTERN 0) as [p|] eqn:E.
    + apply find_Some in E. destruct E as (_ & Hocc & _). now apply Hno in Hocc.
    + now injection Hr as <-.
Qed.


(** * More on the header and on the packed timestamp *)


Lemma lor_low_bits (a b k : Z) :
  (0 <= k)%Z -> (0 <= b < 2 ^ k)%Z ->
  Z.lor (a * 2 ^ k) b = (a * 2 ^ k + b)%Z.
Proof.
  intros Hk Hb.
  assert (Hland : Z.land (a * 2 ^ k) b = 0%Z).
  { apply Z.bits_inj'. intros n Hn.
    rewrite Z.land_spec, Z.bits_0, <- Z.shiftl_mul_pow2 by assumption.
    destruct (Z.lt_ge_cases n k) as [Hlt|Hge].
    - now rewrite Z.shiftl_spec_low.
    - destruct (Z.eq_dec b 0) as [->|Hne].
      + rewrite Z.bits_0. apply andb_false_r.
      + rewrite (Z.bits_above_log2 b n); [apply andb_false_r|lia|].
        assert (Z.log2 b < k)%Z by (apply Z.log2_lt_pow2; lia). lia. }
  rewrite <- Z.lxor_lor by assumption. symmetry. now apply Z.add_nocarry_lxor.
Qed.

Lemma dos_time_value (md : datetime) :
  (0 <= minute md < 60)%Z -> (0 <= second md < 60)%Z ->
  dos_time_of md = (hour md * 2048 + minute md * 32 + second md / 2)%Z.
Proof.
  intros Hmi Hs. unfold dos_time_of. rewrite !Z.shiftl_mul_pow2 by lia.
  rewrite (lor_low_bits (hour md) (minute md * 2 ^ 5) 11); [|lia|].
  2:{ change (2 ^ 5)%Z with 32%Z. change (2 ^ 11)%Z with 2048%Z. lia. }
  replace (hour md * 2 ^ 11 + minute md * 2 ^ 5)%Z
    with ((hour md * 64 + minute md) * 2 ^ 5)%Z
    by (change (2 ^ 11)%Z with 2048%Z; change (2 ^ 5)%Z with 32%Z; ring).
  rewrite lor_low_bits; [|lia|].
  2:{ change (2 ^ 5)%Z with 32%Z. Z.div_mod_to_equations. lia. }
  change (2 ^ 5)%Z with 32%Z. ring.
Qed.

Lemma dos_date_value (md : datetime) :
  (0 <= month md < 16)%Z -> (0 <= day md < 32)%Z ->
  dos_date_of md = ((year md - 1980) * 512 + month md * 32 + day md)%Z.
Proof.
  intros Hm Hd. unfold dos_date_of. rewrite !Z.shiftl_mul_pow2 by lia.
  rewrite (lor_low_bits (year md - 1980) (month md * 2 ^ 5) 9); [|lia|].
  2:{ change (2 ^ 5)%Z with 32%Z. change (2 ^ 9)%Z with 512%Z. lia. }
  replace ((year md - 1980) * 2 ^ 9 + month md * 2 ^ 5)%Z
    with (((year md - 1980) * 16 + month md) * 2 ^ 5)%Z
    by (change (2 ^ 9)%Z with 512%Z; change (2 ^ 5)%Z with 32%Z; ring).
  rewrite lor_low_bits; [|lia|].
  2:{ change (2 ^ 5)%Z with 32%Z. lia. }
  change (2 ^ 5)%Z with 32%Z. ring.
Qed.

Lemma land_low (x k : Z) (m : Z) :
  (0 <= k)%Z -> m = Z.ones k -> Z.land x m = (x mod 2 ^ k)%Z.
Proof. intros Hk ->. now apply Z.land_ones. Qed.

Lemma unpack_packed_fields (md : datetime) :
  valid_datetime md -> (1980 <= year md)%Z ->
  log_time_fields (dos_time_of md) =
    (hour md, minute md, (second md - second md mod 2)%Z) /\
  log_date_fields (dos_date_of md) = (year md, month md, day md).
Proof.
  intros [[Hm Hd] (Hh & Hmi & Hs)] Hy.
  pose proof (days_in_month_bounds (year md) (month md)) as Hdim.
  rewrite dos_time_value, dos_date_value by lia.
  unfold log_time_fields, log_date_fields.
  rewrite !Z.shiftr_div_pow2 by lia.
  rewrite (land_low _ 6 63), (land_low _ 5 31), (land_low _ 4 15), (land_low _ 5 31)
    by (reflexivity || lia).
  change (2 ^ 11)%Z with 2048%Z. change (2 ^ 9)%Z with 512%Z.
  change (2 ^ 6)%Z with 64%Z. change (2 ^ 5)%Z with 32%Z. change (2 ^ 4)%Z with 16%Z.
  split; (f_equal; [f_equal|]); Z.div_mod_to_equations; lia.
Qed.

(** X6: the log shows what the header packs: unpacking the packed time as
    [generate_log] does gives back the hour, the minute and the second
    rounded down to an even number, and unpacking the packed date gives
    back year, month and day, for every valid corrected time from 1980
    on. *)
Theorem log_unpacks_the_timestamp (md : datetime) :
  valid_datetime md -> (1980 <= year md)%Z ->
  log_time_fields (dos_time_of md) =
    (hour md, minute md, (second md - second md mod 2)%Z) /\
  log_date_fields (dos_date_of md) = (year md, month md, day md).
Proof. exact (unpack_packed_fields md). Qed.

Lemma to_bytes_raise (n : nat) (v : Z) (e : error) :
  to_bytes n v = Raise e -> e = OverflowError.
Proof. unfold to_bytes. destruct (_ && _); [discriminate|]. now intros [= <-]. Qed.

Lemma datetime_add_raise (dt : datetime) (delta : Z) (e : error) :
  datetime_add dt delta = Raise e -> e = OverflowError.
Proof.
  unfold datetime_add. destruct (Nat.iter _ _ _) as [[y m] d].
  destruct (9999 <? y)%Z; [|discriminate]. now intros [= <-].
Qed.

Lemma build_header_raise (file_count : nat) (mtime : datetime) (e : error) :
  build_header_dynamically file_count mtime = Raise e -> e = OverflowError.
Proof.
  intros H0. generalize H0. unfold build_header_dynamically, NAME_LEN.
  destruct (to_bytes 2 (Z.of_nat file_count)) as [cb|e1] eqn:E1.
  2:{ apply to_bytes_raise in E1. subst e1. do 3 run_head. now intros [= <-]. }
  destruct (to_bytes 2 (Z.of_nat (file_count * 17))) as [tb|e2] eqn:E2.
  2:{ apply to_bytes_raise in E2. subst e2. do 3 run_head. now intros [= <-]. }
  destruct (datetime_add mtime TIME_OFFSET) as [md|e3] eqn:E3.
  2:{ apply datetime_add_raise in E3. subst e3. do 3 run_head. now intros [= <-]. }
  do 3 run_head.
  destruct (to_bytes 2 (dos_time_of md)) as [tmb|e4] eqn:E4.
  2:{ apply to_bytes_raise in E4. subst e4. cbn [bind]. now intros [= <-]. }
  cbn [bind].
  destruct (to_bytes 2 (dos_date_of md)) as [db|e5] eqn:E5.
  2:{ apply to_bytes_raise in E5. subst e5. cbn [bind]. now intros [= <-]. }
  intros _. exfalso.
  apply to_bytes_inv in E2, E4, E5. change (256 ^ Z.of_nat 2)%Z with (2 ^ 16)%Z in *.
  rewrite (build_header_layout file_count mtime md) in H0; try tauto; try lia.
  discriminate.
Qed.

(** X7: for a valid modification time, a header is built exactly when
    [file_count * 17] fits in 16 bits and the corrected time has a year
    from 1980 to 2107; every failure is an [OverflowError]. *)
Theorem header_built_iff (file_count : nat) (mtime : datetime) :
  valid_datetime mtime ->
  ((exists header dos_time dos_date,
      build_header_dynamically file_count mtime = Ok (header, dos_time, dos_date)) <->
   ((Z.of_nat (file_count * 17) < 2 ^ 16)%Z /\
    exists mod_date,
      datetime_add mtime TIME_OFFSET = Ok mod_date /\
      (1980 <= year mod_date <= 2107)%Z)) /\
  (forall e, build_header_dynamically file_count mtime = Raise e -> e = OverflowError).
Proof.
  intros Hv. split; [split|apply build_header_raise].
  - intros (header & t & d & Hb). apply build_header_inv in Hb.
    destruct Hb as (md & Hdt & Hc & _ & Hd & _).
    split; [exact Hc|]. exists md. split; [exact Hdt|].
    destruct (datetime_add_exact mtime md TIME_OFFSET Hv) as [[[Hm Hday] _] _];
      [unfold TIME_OFFSET; lia | assumption |].
    pose proof (days_in_month_bounds (year md) (month md)).
    rewrite dos_date_value in Hd by lia.
    change (2 ^ 16)%Z with 65536%Z in Hd. lia.
  - intros (Hc & md & Hdt & Hy).
    destruct (build_header_Ok file_count mtime md Hc Hv Hdt) as (header & Hb & _);
      [lia|].
    now exists header, (dos_time_of md), (dos_date_of md).
Qed.

Lemma header_layout_same_fixed (c0 c1 s0 s1 t0 t1 d0 d1 c0' c1' s0' s1' t0' t1' d0' d1' : byte)
    (i : nat) :
  ~ In i variable_offsets ->
  nth_error (header_layout c0 c1 s0 s1 t0 t1 d0 d1) i =
  nth_error (header_layout c0' c1' s0' s1' t0' t1' d0' d1') i.
Proof.
  intros Hi.
  do 122 (destruct i as [|i]; [try reflexivity; exfalso; apply Hi; simpl; tauto|]).
  reflexivity.
Qed.

(** X8: every header built is 122 bytes, begins with [MDmd], release
    level 0x0A and header type 0x01, states its own length 122 at 0x06,
    and carries the length-prefixed marker [~INDEX~] at 0x29; two headers
    built for any inputs differ at most in the ten bytes of the count,
    the two table sizes, the time and the date. *)
Theorem header_fixed_fields (n n' : nat) (mtime mtime' : datetime)
    (h h' : list byte) (t d t' d' : Z) :
  build_header_dynamically n mtime = Ok (h, t, d) ->
  build_header_dynamically n' mtime' = Ok (h', t', d') ->
  length h = HEADER_SIZE /\
  firstn 4 h = MDMD_SIGNATURE /\
  slice h 4 6 = [x0a; x01] /\
  u16_at h 6 = Z.of_nat (length h) /\
  slice h 0x29 0x31 = x07 :: list_byte_of_string "~INDEX~" /\
  (forall i, ~ In i variable_offsets -> nth_error h i = nth_error h' i).
Proof.
  intros Hb Hb'. apply build_header_inv in Hb, Hb'.
  destruct Hb as (md & _ & _ & _ & _ & _ & _ & ->).
  destruct Hb' as (md' & _ & _ & _ & _ & _ & _ & ->).
  split; [reflexivity|]. split; [reflexivity|]. split; [reflexivity|].
  split; [reflexivity|]. split; [reflexivity|].
  intros i Hi. now apply header_layout_same_fixed.
Qed.

(** * The pipeline as a whole *)


Lemma patch_offsets_inv (data : list byte) (base : nat) (l : list nat)
    (r : result (list (list byte))) :
  patch_offsets (combine (map (index_record data) l) l) base = r ->
  (Forall (fun pos => (Z.of_nat (pos + base) < 2 ^ 24)%Z) l /\
   r = Ok (map (patched_record data base) l)) \/
  (Exists (fun pos => (2 ^ 24 <= Z.of_nat (pos + base))%Z) l /\
   r = Raise OverflowError).
Proof.
  revert r. induction l as [|p l IH]; intros r; cbn [map combine patch_offsets].
  - intros <-. left. split; [constructor|reflexivity].
  - unfold to_bytes. change (256 ^ Z.of_nat 3)%Z with (2 ^ 24)%Z.
    destruct (Z.leb_spec 0 (Z.of_nat (p + base))); [|lia].
    destruct (Z.ltb_spec (Z.of_nat (p + base)) (2 ^ 24)) as [Hlt|Hge]; cbn [andb bind].
    + destruct (IH _ eq_refl) as [[Hf Hr] | [He Hr]]; rewrite Hr; cbn [bind]; intros <-.
      * left. split; [now constructor|reflexivity].
      * right. split; [now apply Exists_cons_tl|reflexivity].
    + intros <-. right. split; [now apply Exists_cons_hd|reflexivity].
Qed.

Lemma patched_record_layout (data : list byte) (base pos : nat) :
  patched_record data base pos =
    block_name data pos ++ repeat x00 (13 - length (block_name data pos)) ++
    le_bytes 3 (Z.of_nat (pos + base)) ++ [x00].
Proof.
  unfold patched_record. rewrite index_record_layout.
  pose proof (block_name_length data pos) as Hn.
  set (n := block_name data pos) in *. set (off := le_bytes 3 _).
  set (A := n ++ repeat x00 (13 - length n)).
  assert (H13 : length A = 13)
    by (unfold A; rewrite length_app, repeat_length; lia).
  replace (n ++ repeat x00 (NAME_LEN - length n)) with (A ++ repeat x00 4).
  2:{ unfold A, NAME_LEN. rewrite <- app_assoc, <- repeat_app. do 2 f_equal. lia. }
  unfold set_slice.
  rewrite firstn_app, H13, Nat.sub_diag, firstn_0, app_nil_r.
  rewrite <- H13 at 1. rewrite firstn_all.
  rewrite skipn_app, H13, skipn_all2 by lia.
  unfold A. rewrite <- app_assoc. reflexivity.
Qed.

Lemma process_archive_cases (data : list byte) :
  (Forall (offset_fits data) (retained_positions data) /\
   process_archive data =
     Ok (map (patched_record (cleaned data) (base_offset_of data))
             (retained_positions data),
         cleaned data, length (retained_positions data), retained_positions data)) \/
  (Exists (fun pos => ~ offset_fits data pos) (retained_positions data) /\
   process_archive data = Raise OverflowError).
Proof.
  unfold process_archive. fold (cleaned data).
  rewrite build_index_filter. rewrite <- retained_positions_filter.
  rewrite length_map.
  change (length (retained_positions data) * NAME_LEN + HEADER_SIZE)
    with (base_offset_of data).
  destruct (patch_offsets_inv (cleaned data) (base_offset_of data)
              (retained_positions data) _ eq_refl) as [[Hf Hr] | [He Hr]];
    rewrite Hr; cbn [bind].
  - left. split; [exact Hf|reflexivity].
  - right. split; [|reflexivity].
    eapply Exists_impl; [|exact He]. unfold offset_fits. simpl. intros; lia.
Qed.

Lemma index_table_length (data : list byte) (base : nat) (l : list nat) :
  length (concat (map (patched_record data base) l)) = 17 * length l.
Proof.
  induction l as [|p l IH]; [reflexivity|].
  cbn [map concat length]. rewrite length_app, patched_record_length, IH. lia.
Qed.

Lemma retained_positions_sorted (data : list byte) :
  StronglySorted lt (retained_positions data) /\
  incl (retained_positions data) (find_all_mdmd_patterns (cleaned data)).
Proof.
  rewrite retained_positions_filter. split.
  - apply filter_sorted, find_all_sorted.
  - intros x Hx. now apply filter_In in Hx.
Qed.

(** X9: [process_archive] fails only when an adjusted offset does not fit
    in three bytes, and then with [OverflowError]; otherwise it returns
    one 17-byte record per retained position, made of the name, zero
    bytes up to the offset field, the offset and a zero last byte.  The
    retained positions are an ascending selection of the positions
    found in the buffer left by the removal. *)
Theorem process_archive_outcome (data : list byte) :
  StronglySorted lt (retained_positions data) /\
  incl (retained_positions data) (find_all_mdmd_patterns (cleaned data)) /\
  ((Forall (offset_fits data) (retained_positions data) /\
    exists index_blocks,
      process_archive data =
        Ok (index_blocks, cleaned data, length (retained_positions data),
            retained_positions data) /\
      length (concat index_blocks) = 17 * length (retained_positions data) /\
      Forall2 (fun b pos =>
                 length b = 17 /\
                 b = block_name (cleaned data) pos ++
                     repeat x00 (13 - length (block_name (cleaned data) pos)) ++
                     le_bytes 3 (Z.of_nat (pos + base_offset_of data)) ++ [x00])
              index_blocks (retained_positions data)) \/
   (Exists (fun pos => ~ offset_fits data pos) (retained_positions data) /\
    process_archive data = Raise OverflowError)).
Proof.
  split; [apply retained_positions_sorted|]. split; [apply retained_positions_sorted|].
  destruct (process_archive_cases data) as [[Hf Hr] | [He Hr]].
  - left. split; [exact Hf|]. eexists. split; [exact Hr|]. split.
    + apply index_table_length.
    + generalize (retained_positions data). intros l.
      induction l as [|p l IH]; cbn [map]; constructor; auto.
      split; [apply patched_record_length|apply patched_record_layout].
  - right. now split.
Qed.

Lemma build_header_year (file_count : nat) (mtime : datetime)
    (header : list byte) (t d : Z) :
  valid_datetime mtime ->
  build_header_dynamically file_count mtime = Ok (header, t, d) ->
  (Z.of_nat (file_count * 17) < 2 ^ 16)%Z /\
  exists mod_date,
    datetime_add mtime TIME_OFFSET = Ok mod_date /\
    (1980 <= year mod_date <= 2107)%Z.
Proof.
  intros Hv Hb. apply build_header_inv in Hb.
  destruct Hb as (md & Hdt & Hc & _ & Hd & _).
  split; [exact Hc|]. exists md. split; [exact Hdt|].
  destruct (datetime_add_exact mtime md TIME_OFFSET Hv) as [[[Hm Hday] _] _];
    [unfold TIME_OFFSET; lia | assumption |].
  pose proof (days_in_month_bounds (year md) (month md)).
  rewrite dos_date_value in Hd by lia.
  change (2 ^ 16)%Z with 65536%Z in Hd. lia.
Qed.

Lemma assemble_total (header : list byte) (index_blocks : list (list byte))
    (data : list byte) :
  exists r,
    assemble_and_save header index_blocks data = Ok r /\
    length (p_data r) = length (new_content header index_blocks data) /\
    firstn 0x36 (p_data r) = firstn 0x36 (new_content header index_blocks data).
Proof.
  unfold assemble_and_save. fold (new_content header index_blocks data).
  destruct (replace_internal_paths_total (new_content header index_blocks data)
              DEFAULT_TARGET_PATH DEFAULT_TARGET_PATH eq_refl) as (r & Hr & Hl);
    [simpl; lia|].
  exists r. split; [exact Hr|]. split; [exact Hl|].
  rewrite replace_default in Hr. now apply replace_loop_low_bytes in Hr.
Qed.

(** C9 (corrected): for a buffer without any [MDmd] signature
    [process_archive] returns an empty index (no records, count 0, base
    offset 122), whatever the timestamp.  The header is then built, with
    file count and both table sizes zero, and the pipeline yields 122
    bytes plus the data, when the modification time corrected by 4h30
    has a year from 1980 to 2107; for a valid modification time outside
    that range no header is emitted, and the failure is an
    [OverflowError]. *)
Theorem absent_signature_is_not_fatal (data : list byte) (mtime : datetime) :
  (forall i, ~ occurs_at MDMD_SIGNATURE data i) ->
  process_archive data = Ok ([], data, 0, []) /\
  0 * NAME_LEN + HEADER_SIZE = 122 /\
  (forall mod_date,
     valid_datetime mtime ->
     datetime_add mtime TIME_OFFSET = Ok mod_date ->
     (1980 <= year mod_date < 2108)%Z ->
     exists header dos_time dos_date,
       build_header_dynamically 0 mtime = Ok (header, dos_time, dos_date) /\
       length header = 122 /\
       u16_at header 0x0A = 0%Z /\
       u16_at header 0x19 = 0%Z /\
       u16_at header 0x1D = 0%Z /\
       exists out,
         process_single_file data mtime = Ok out /\
         length out = 122 + length data) /\
  (valid_datetime mtime ->
   (exists out, process_single_file data mtime = Ok out) ->
   exists mod_date,
     datetime_add mtime TIME_OFFSET = Ok mod_date /\
     (1980 <= year mod_date <= 2107)%Z) /\
  (forall e, process_single_file data mtime = Raise e ->
     e = OverflowError /\ build_header_dynamically 0 mtime = Raise OverflowError).
Proof.
  intros Hno.
  pose proof (process_archive_no_signature data Hno) as Hp.
  split; [exact Hp|]. split; [reflexivity|]. split; [|split].
  - intros mod_date Hv Hdt Hy.
    destruct (build_header_Ok 0 mtime mod_date ltac:(simpl; lia) Hv Hdt Hy)
      as (header & Hb & Hlen & Hc & Hs1 & Hs2 & _ & _).
    exists header, (dos_time_of mod_date), (dos_date_of mod_date).
    split; [exact Hb|]. split; [exact Hlen|].
    unfold u16_at. cbn [Nat.add]. rewrite Hc, Hs1, Hs2.
    split; [reflexivity|]. split; [reflexivity|]. split; [reflexivity|].
    destruct (assemble_empty_patched mtime header _ _ [] data Hb)
      as (_ & _ & out & Hout & _ & _ & Hl).
    exists (p_data out). unfold process_single_file.
    rewrite Hp. cbn [bind]. rewrite Hb. cbn [bind]. rewrite Hout. cbn [bind].
    split; [reflexivity|exact Hl].
  - intros Hv [out Ho]. unfold process_single_file in Ho.
    rewrite Hp in Ho. cbn [bind] in Ho.
    destruct (build_header_dynamically 0 mtime) as [[[h t] d]|e] eqn:Hb;
      cbn [bind] in Ho; [|discriminate].
    destruct (build_header_year 0 mtime h t d Hv Hb) as (_ & md & Hdt & Hy).
    now exists md.
  - intros e He. unfold process_single_file in He.
    rewrite Hp in He. cbn [bind] in He.
    destruct (build_header_dynamically 0 mtime) as [[[h t] d]|e'] eqn:Hb;
      cbn [bind] in He.
    + destruct (assemble_total h [] data) as (r & Ha & _).
      rewrite Ha in He. cbn [bind] in He. discriminate.
    + injection He as <-.
      assert (e' = OverflowError) by (eapply build_header_raise; eauto).
      subst. now split.
Qed.

(** X10: for a valid modification time the pipeline of
    [process_single_file] succeeds exactly when every adjusted offset
    fits in three bytes, the table size fits in 16 bits and the corrected
    year is from 1980 to 2107; every failure is an [OverflowError] (no
    index error, no loop that does not end). *)
Theorem pipeline_outcome (data : list byte) (mtime : datetime) :
  valid_datetime mtime ->
  ((exists out, process_single_file data mtime = Ok out) <->
   (Forall (offset_fits data) (retained_positions data) /\
    (Z.of_nat (length (retained_positions data) * 17) < 2 ^ 16)%Z /\
    exists mod_date,
      datetime_add mtime TIME_OFFSET = Ok mod_date /\
      (1980 <= year mod_date <= 2107)%Z)) /\
  (forall e, process_single_file data mtime = Raise e -> e = OverflowError).
Proof.
  intros Hv. unfold process_single_file.
  destruct (process_archive_cases data) as [[Hf Hr] | [He Hr]]; rewrite Hr; cbn [bind].
  - destruct (build_header_dynamically (length (retained_positions data)) mtime)
      as [[[h t] d]|e] eqn:Hb; cbn [bind].
    + destruct (assemble_total h
                  (map (patched_record (cleaned data) (base_offset_of data))
                       (retained_positions data)) (cleaned data)) as (r & Ha & _).
      rewrite Ha. cbn [bind]. split; [|discriminate]. split.
      * intros _. split; [exact Hf|]. eapply build_header_year; eauto.
      * intros _. now exists (p_data r).
    + split.
      * split; [intros [out Ho]; discriminate|].
        intros (_ & Hc & md & Hdt & Hy).
        destruct (build_header_Ok _ mtime md Hc Hv Hdt) as (h & Hb' & _); [lia|].
        congruence.
      * intros e' [= <-]. eapply build_header_raise; eauto.
  - split.
    + split; [intros [out Ho]; discriminate|].
      intros (Hf & _). exfalso.
      apply Exists_exists in He. destruct He as (p & Hp & Hn).
      rewrite Forall_forall in Hf. auto.
    + now intros e [= <-].
Qed.

Lemma slice_firstn (l : list byte) (k a b : nat) :
  b <= k -> slice (firstn k l) a b = slice l a b.
Proof.
  intros H. unfold slice.
  rewrite skipn_firstn_comm, firstn_firstn. f_equal. lia.
Qed.

Lemma u16_at_firstn (l : list byte) (k off : nat) :
  off + 2 <= k -> u16_at (firstn k l) off = u16_at l off.
Proof. intros H. unfold u16_at. now rewrite slice_firstn. Qed.

(** X11: the content written for a file is 122 header bytes, 17 bytes per
    index record and the cleaned data, in length; its first 0x36 bytes
    are those of the header built, so it begins with [MDmd] and holds
    the number of index records at 0x0A, the byte size of the index table
    at 0x19 and 0x1D and the packed time and date at 0x23 and 0x25, also
    after the paths were patched. *)
Theorem written_file_layout (data : list byte) (mtime : datetime) (out : list byte) :
  process_single_file data mtime = Ok out ->
  exists header dos_time dos_date,
    build_header_dynamically (length (retained_positions data)) mtime
      = Ok (header, dos_time, dos_date) /\
    length out = 122 + 17 * length (retained_positions data) + length (cleaned data) /\
    firstn 0x36 out = firstn 0x36 header /\
    firstn 4 out = MDMD_SIGNATURE /\
    u16_at out 0x0A = Z.of_nat (length (retained_positions data)) /\
    u16_at out 0x19 = Z.of_nat (length (retained_positions data) * 17) /\
    u16_at out 0x1D = Z.of_nat (length (retained_positions data) * 17) /\
    u16_at out 0x23 = dos_time /\
    u16_at out 0x25 = dos_date.
Proof.
  unfold process_single_file.
  destruct (process_archive_cases data) as [[Hf Hr] | [He Hr]]; rewrite Hr; cbn [bind];
    [|discriminate].
  destruct (build_header_dynamically (length (retained_positions data)) mtime)
    as [[[h t] d]|e] eqn:Hb; cbn [bind]; [|discriminate].
  destruct (assemble_total h
              (map (patched_record (cleaned data) (base_offset_of data))
                   (retained_positions data)) (cleaned data)) as (r & Ha & Hl & Hlow).
  rewrite Ha. cbn [bind]. intros [= <-].
  destruct (build_header_fields _ _ _ _ _ Hb)
    as (md & _ & _ & _ & Hlen & _ & _ & _ & Hu0 & Hu1 & Hu2 & Ht & Hd).
  assert (Hpre : firstn 0x36 (p_data r) = firstn 0x36 h).
  { rewrite Hlow. unfold new_content. rewrite firstn_app, Hlen.
    cbn [Nat.sub]. now rewrite firstn_0, app_nil_r. }
  exists h, t, d. split; [reflexivity|]. split.
  { rewrite Hl. unfold new_content.
    rewrite !length_app, Hlen, index_table_length. lia. }
  split; [exact Hpre|]. split.
  { apply (f_equal (firstn 4)) in Hpre. rewrite !firstn_firstn in Hpre.
    cbn [Nat.min] in Hpre. rewrite Hpre.
    apply build_header_inv in Hb. destruct Hb as (? & _ & _ & _ & _ & _ & _ & ->).
    reflexivity. }
  rewrite <- (u16_at_firstn (p_data r) 0x36 0x0A), <- (u16_at_firstn (p_data r) 0x36 0x19),
          <- (u16_at_firstn (p_data r) 0x36 0x1D), <- (u16_at_firstn (p_data r) 0x36 0x23),
          <- (u16_at_firstn (p_data r) 0x36 0x25) by (simpl; lia).
  rewrite Hpre. rewrite !u16_at_firstn by (simpl; lia).
  repeat split; assumption.
Qed.
(** * The index of the written file and the log *)


Lemma slice_app_shift (l1 l2 : list byte) (n a b : nat) :
  length l1 = n ->
  slice (l1 ++ l2) (n + a) (n + b) = slice l2 a b.
Proof.
  intros <-. unfold slice. rewrite skipn_app, skipn_all2 by lia. cbn [app].
  f_equal; [lia|]. f_equal. lia.
Qed.

Lemma patched_record_begins_with_name (data : list byte) (base pos : nat) :
  firstn (length (block_name data pos)) (patched_record data base pos)
    = block_name data pos.
Proof.
  rewrite patched_record_layout. rewrite firstn_app, Nat.sub_diag, firstn_all.
  cbn [firstn]. apply app_nil_r.
Qed.

(** X12: before the paths are patched, every index record of the content
    assembled for a file points at its block: the offset stored in the
    record is the place of an [MDmd] signature in the assembled buffer,
    the name read 0x2A bytes after that place is the name the record
    begins with, and the offsets of the records ascend. *)
Theorem index_records_point_at_blocks (data : list byte) (mtime : datetime)
    (index_blocks : list (list byte)) (filtered_data : list byte)
    (file_count : nat) (positions : list nat)
    (header : list byte) (dos_time dos_date : Z) :
  process_archive data = Ok (index_blocks, filtered_data, file_count, positions) ->
  build_header_dynamically file_count mtime = Ok (header, dos_time, dos_date) ->
  let content := new_content header index_blocks filtered_data in
  length index_blocks = file_count /\
  StronglySorted Z.lt (map offset_field index_blocks) /\
  Forall (fun index_block =>
            let off := Z.to_nat (offset_field index_block) in
            occurs_at MDMD_SIGNATURE content off /\
            122 + 17 * file_count <= off /\
            firstn (length (block_name content off)) index_block
              = block_name content off)
         index_blocks.
Proof.
  intros Hp Hb content.
  destruct (process_archive_cases data) as [[Hf Hr] | [_ Hr]];
    rewrite Hr in Hp; [|discriminate].
  injection Hp as <- <- <- <-.
  apply build_header_length in Hb.
  pose proof (retained_positions_sorted data) as [Hs Hi].
  set (base := base_offset_of data) in *.
  assert (Hbase : length (header ++ concat
                    (map (patched_record (cleaned data) base) (retained_positions data)))
                  = base).
  { rewrite length_app, index_table_length, Hb. unfold base, base_offset_of. lia. }
  assert (Hoff : forall pos, In pos (retained_positions data) ->
                 offset_field (patched_record (cleaned data) base pos)
                   = Z.of_nat (base + pos)).
  { intros pos Hin. apply patched_record_offset.
    rewrite Forall_forall in Hf. apply Hf, Hin. }
  split; [apply length_map|]. split.
  - rewrite map_map.
    revert Hs Hoff. generalize (retained_positions data). intros l Hs Hoff.
    induction Hs as [|p l Hs IH Hlt]; cbn [map]; constructor.
    + apply IH. intros q Hq. apply Hoff. now right.
    + rewrite Forall_map. rewrite Forall_forall in Hlt |- *.
      intros q Hq. rewrite !Hoff by (simpl; auto). specialize (Hlt q Hq). lia.
  - rewrite Forall_map, Forall_forall. intros pos Hin. cbv zeta.
    rewrite (Hoff pos Hin), Nat2Z.id.
    assert (Hc : content = (header ++ concat
                   (map (patched_record (cleaned data) base) (retained_positions data)))
                   ++ cleaned data).
    { unfold content, new_content. now rewrite app_assoc. }
    split; [|split].
    + unfold occurs_at. rewrite Hc.
      rewrite <- Nat.add_assoc, (slice_app_shift _ _ base) by exact Hbase.
      apply find_all_In, Hi, Hin.
    + unfold base, base_offset_of. lia.
    + assert (Hn : block_name content (base + pos) = block_name (cleaned data) pos).
      { unfold block_name. rewrite Hc.
        rewrite <- !Nat.add_assoc, (slice_app_shift _ _ base) by exact Hbase.
        reflexivity. }
      rewrite Hn. apply patched_record_begins_with_name.
Qed.

Lemma split_zero_first_app (a b : list byte) :
  ~ In x00 a -> split_zero_first (a ++ b) = a ++ split_zero_first b.
Proof.
  induction a as [|x a IH]; intros Hn; [reflexivity|].
  cbn [app split_zero_first].
  destruct (Byte.eqb x x00) eqn:E.
  - apply Byte.byte_dec_bl in E. subst. exfalso. apply Hn. now left.
  - f_equal. apply IH. intros H. apply Hn. now right.
Qed.

Lemma split_zero_first_stop (a b : list byte) :
  split_zero_first (a ++ x00 :: b) = split_zero_first a.
Proof.
  induction a as [|x a IH]; [reflexivity|].
  cbn [app split_zero_first]. destruct (Byte.eqb x x00); [reflexivity|].
  now rewrite IH.
Qed.

Lemma split_zero_first_id (a : list byte) :
  ~ In x00 a -> split_zero_first a = a.
Proof.
  intros H. rewrite <- (app_nil_r a) at 1.
  rewrite split_zero_first_app by assumption. cbn. apply app_nil_r.
Qed.

(** X13: the name the log shows for an index record.  When the block name
    is shorter than 13 bytes the log decodes the name up to its first
    zero byte, and shows the name itself when it holds only non-zero
    ASCII bytes.  A name of 13 bytes leaves no zero byte before the
    offset field: the bytes decoded are then the name followed by the
    offset bytes up to the first zero one, and the log shows
    [NON-PRINTABLE NAME] for an ASCII name when the low byte of the
    offset is 0x80 or more. *)
Theorem logged_name (data : list byte) (base pos : nat) :
  let name := block_name data pos in
  let index_block := patched_record data base pos in
  let offset_bytes := le_bytes 3 (Z.of_nat (pos + base)) in
  (length name < 13 ->
     split_zero_first index_block = split_zero_first name /\
     (~ In x00 name -> decode_ascii name = Some name ->
      ascii_name index_block = name)) /\
  (length name = 13 -> ~ In x00 name ->
     split_zero_first index_block = name ++ split_zero_first offset_bytes /\
     ((128 <= Z.of_nat (pos + base) mod 256)%Z ->
      ascii_name index_block = NON_PRINTABLE_NAME)).
Proof.
  intros name index_block offset_bytes.
  unfold index_block. rewrite patched_record_layout. fold name. fold offset_bytes.
  split.
  - intros Hlt.
    assert (Hs : split_zero_first
                   (name ++ repeat x00 (13 - length name) ++ offset_bytes ++ [x00])
                 = split_zero_first name).
    { destruct (13 - length name) as [|k] eqn:E; [lia|].
      cbn [repeat app]. apply split_zero_first_stop. }
    split; [exact Hs|].
    intros Hnz Hd. unfold ascii_name. rewrite Hs, split_zero_first_id by assumption.
    now rewrite Hd.
  - intros Hlen Hnz.
    assert (Hs : split_zero_first
                   (name ++ repeat x00 (13 - length name) ++ offset_bytes ++ [x00])
                 = name ++ split_zero_first offset_bytes).
    { rewrite Hlen, Nat.sub_diag. cbn [repeat app].
      rewrite split_zero_first_app by assumption.
      apply (f_equal (app name)), split_zero_first_stop. }
    split; [exact Hs|].
    intros Hhigh. unfold ascii_name. rewrite Hs.
    unfold decode_ascii. rewrite forallb_app.
    unfold offset_bytes. cbn [le_bytes split_zero_first].
    set (b0 := byte_of_Z (Z.of_nat (pos + base))).
    assert (Hb0 : Z.of_N (Byte.to_N b0) = (Z.of_nat (pos + base) mod 256)%Z)
      by apply byte_of_Z_value.
    destruct (Byte.eqb b0 x00) eqn:E.
    { apply Byte.byte_dec_bl in E. rewrite E in Hb0. simpl in Hb0. lia. }
    cbn [forallb].
    replace (Byte.to_N b0 <? 128)%N with false
      by (symmetry; apply N.ltb_ge; lia).
    cbn [andb]. now rewrite andb_false_r.
Qed.

Lemma generate_log_Ok (index_blocks : list (list byte)) (positions : list nat)
    (base_offset file_count : nat) (dos_time dos_date : Z) :
  (0 <= dos_time < 2 ^ 16)%Z -> (0 <= dos_date < 2 ^ 16)%Z ->
  generate_log index_blocks positions base_offset file_count dos_time dos_date =
    Ok (mkLog file_count (file_count * NAME_LEN)
          (log_time_fields dos_time) (log_date_fields dos_date)
          (le_bytes 2 dos_time) (le_bytes 2 dos_date)
          (map (fun '(index_block, original_offset) =>
                  mkEntry original_offset (original_offset + base_offset)
                          index_block (ascii_name index_block))
               (combine index_blocks positions))).
Proof.
  intros Ht Hd. unfold generate_log.
  rewrite !to_bytes_Ok by (change (256 ^ Z.of_nat 2)%Z with (2 ^ 16)%Z; lia).
  reflexivity.
Qed.

(** X14: once the content of a file has been assembled the log step cannot
    fail, and the log agrees with the file: it counts the records of the
    index, gives 17 bytes per record as the index size, shows the
    corrected time with its seconds rounded down to an even number and
    the corrected date, shows the two bytes stored at 0x23 and at 0x25,
    and for every record logs as adjusted offset the offset stored in
    the record. *)
Theorem log_agrees_with_the_file (data : list byte) (mtime : datetime) (out : list byte) :
  valid_datetime mtime ->
  process_single_file data mtime = Ok out ->
  exists lg mod_date,
    process_single_file_logged data mtime = Ok (out, lg) /\
    datetime_add mtime TIME_OFFSET = Ok mod_date /\
    Z.of_nat (number_of_files lg) = u16_at out 0x0A /\
    Z.of_nat (index_size lg) = u16_at out 0x19 /\
    log_hour lg = (hour mod_date, minute mod_date,
                   (second mod_date - second mod_date mod 2)%Z) /\
    log_date lg = (year mod_date, month mod_date, day mod_date) /\
    log_time_hex lg = slice out 0x23 0x25 /\
    log_date_hex lg = slice out 0x25 0x27 /\
    length (log_entries lg) = number_of_files lg /\
    map original_offset (log_entries lg) = retained_positions data /\
    Forall (fun e => Z.of_nat (adjusted e) = offset_field (hex_block e) /\
                     adjusted e = original_offset e + (122 + index_size lg) /\
                     length (hex_block e) = 17)
           (log_entries lg).
Proof.
  intros Hv. unfold process_single_file, process_single_file_logged.
  destruct (process_archive_cases data) as [[Hf Hr] | [He Hr]]; rewrite Hr; cbn [bind];
    [|discriminate].
  destruct (build_header_dynamically (length (retained_positions data)) mtime)
    as [[[h t] d]|e] eqn:Hb; cbn [bind]; [|discriminate].
  destruct (assemble_total h
              (map (patched_record (cleaned data) (base_offset_of data))
                   (retained_positions data)) (cleaned data)) as (r & Ha & Hl & Hlow).
  rewrite Ha. cbn [bind]. intros [= <-].
  pose proof (build_header_inv _ _ _ _ _ Hb)
    as (md & Hdt & Hc & Ht & Hd & -> & -> & Hlay).
  destruct (build_header_year _ _ _ _ _ Hv Hb) as (_ & md' & Hdt' & Hy).
  assert (md' = md) by congruence. subst md'.
  destruct (datetime_add_exact mtime md TIME_OFFSET Hv) as [Hvmd _];
    [unfold TIME_OFFSET; lia | assumption |].
  destruct (unpack_packed_fields md Hvmd) as [Htf Hdf]; [lia|].
  rewrite generate_log_Ok by assumption. cbn [bind].
  eexists. exists md. split; [reflexivity|].
  cbn [number_of_files index_size log_hour log_date log_time_hex log_date_hex log_entries].
  assert (Hpre : firstn 0x36 (p_data r) = firstn 0x36 h).
  { rewrite Hlow. unfold new_content. rewrite Hlay. reflexivity. }
  assert (Hsl : forall a b, b <= 0x36 -> slice (p_data r) a b = slice h a b).
  { intros a b Hab.
    rewrite <- (slice_firstn (p_data r) 0x36), <- (slice_firstn h 0x36) by exact Hab.
    now rewrite Hpre. }
  destruct (build_header_fields _ _ _ _ _ Hb)
    as (md2 & _ & _ & _ & Hlen & _ & _ & _ & Hu0 & Hu1 & _ & _ & _).
  split; [exact Hdt|].
  split.
  { unfold u16_at. rewrite Hsl by (simpl; lia). symmetry. exact Hu0. }
  split.
  { unfold u16_at. rewrite Hsl by (simpl; lia). symmetry. exact Hu1. }
  split; [exact Htf|]. split; [exact Hdf|].
  split.
  { rewrite Hsl by (simpl; lia). rewrite Hlay. reflexivity. }
  split.
  { rewrite Hsl by (simpl; lia). rewrite Hlay. reflexivity. }
  assert (Hbase : 122 + length (retained_positions data) * NAME_LEN
                  = base_offset_of data)
    by (unfold base_offset_of, NAME_LEN; lia).
  rewrite Hbase.
  change (length (retained_positions data) * NAME_LEN + HEADER_SIZE)
    with (base_offset_of data).
  generalize Hf. unfold offset_fits.
  generalize (base_offset_of data) as base.
  generalize (retained_positions data) as l. intros l base Hfit.
  split; [|split].
  - rewrite length_map, length_combine, length_map. apply Nat.min_id.
  - rewrite map_map.
    induction l as [|p l IH]; [reflexivity|].
    cbn [map combine original_offset]. f_equal. apply IH. now inversion Hfit.
  - rewrite Forall_map.
    induction Hfit as [|p l Hp Hfit IH]; [constructor|].
    cbn [map combine]. constructor; [|exact IH].
    cbn [adjusted hex_block original_offset].
    rewrite patched_record_offset by assumption.
    rewrite patched_record_length. split; [lia|]. split; reflexivity.
Qed.
(** * Output names and the list of files *)


Lemma append_inj_l (a b c : string) :
  (a ++ b)%string = (a ++ c)%string -> b = c.
Proof.
  induction a as [|x a IH]; cbn [String.append]; [auto|].
  intros [= H]. auto.
Qed.

Lemma append_length (a b : string) :
  String.length (a ++ b) = String.length a + String.length b.
Proof. induction a as [|x a IH]; cbn [String.append String.length]; lia. Qed.

(** X15: the paths [_get_output_path] composes.  The patched file is
    named stem, [_patched], extension, and the log stem,
    [_patched_log.txt], without the extension.  With an output directory
    that is not empty the path returned is [Path(output_dir) / filename]
    and [mkdir] is called on [Path(output_dir)]; without one, or with an
    empty one, it is [Path(original).parent / filename] and no directory
    is made; this holds for the patched file and for the log alike.
    Since an extension is empty or begins with a dot, the two file names
    differ from each other and from stem plus extension, the name of the
    original. *)
Theorem output_names_are_distinct (original_filename name ext : string)
    (output_dir log_dir : option string) :
  is_suffix ext ->
  filename_of (returned (patched_path original_filename name ext output_dir))
    = Some (name ++ "_patched" ++ ext)%string /\
  filename_of (returned (log_path original_filename name ext log_dir))
    = Some (name ++ "_patched_log.txt")%string /\
  (forall suffix d, d <> EmptyString ->
     directory_of (returned (_get_output_path original_filename name ext suffix (Some d)))
       = Some (Path d) /\
     made_dir (_get_output_path original_filename name ext suffix (Some d))
       = Some (Path d)) /\
  (forall suffix dir, dir = None \/ dir = Some EmptyString ->
     directory_of (returned (_get_output_path original_filename name ext suffix dir))
       = Some (parent (Path original_filename)) /\
     made_dir (_get_output_path original_filename name ext suffix dir) = None) /\
  (name ++ "_patched" ++ ext)%string <> (name ++ ext)%string /\
  (name ++ "_patched_log.txt")%string <> (name ++ ext)%string /\
  (name ++ "_patched" ++ ext)%string <> (name ++ "_patched_log.txt")%string /\
  returned (patched_path original_filename name ext output_dir)
    <> returned (log_path original_filename name ext output_dir).
Proof.
  intros Hext.
  assert (Hp : forall dir,
             filename_of (returned (patched_path original_filename name ext dir))
             = Some (name ++ "_patched" ++ ext)%string).
  { intros dir. unfold patched_path, _get_output_path.
    change (endswith "_patched" ".txt") with false. cbn [negb].
    destruct dir as [d|]; [destruct (String.eqb d "")|]; reflexivity. }
  assert (Hl : forall dir,
             filename_of (returned (log_path original_filename name ext dir))
             = Some (name ++ "_patched_log.txt")%string).
  { intros dir. unfold log_path, _get_output_path.
    change (endswith "_patched_log.txt" ".txt") with true. cbn [negb].
    destruct dir as [d|]; [destruct (String.eqb d "")|]; reflexivity. }
  assert (Hpl : (name ++ "_patched" ++ ext)%string <> (name ++ "_patched_log.txt")%string).
  { intros H. apply append_inj_l in H. cbn [String.append] in H.
    destruct Hext as [->|[rest ->]]; discriminate. }
  split; [apply Hp|]. split; [apply Hl|]. split; [|split].
  - intros suffix d Hd. unfold _get_output_path.
    destruct (String.eqb_spec d ""); [contradiction|]. split; reflexivity.
  - intros suffix dir [->| ->]; split; reflexivity.
  - split; [|split; [|split]].
    + intros H. apply append_inj_l in H.
      apply (f_equal String.length) in H. rewrite append_length in H.
      cbn [String.length] in H. lia.
    + intros H. apply append_inj_l in H.
      destruct Hext as [->|[rest ->]]; discriminate.
    + exact Hpl.
    + intros H. apply (f_equal filename_of) in H. rewrite Hp, Hl in H.
      injection H as H. now apply Hpl.
Qed.

Lemma fromkeys_step_spec (keys : list string) (k : string) :
  NoDup keys ->
  NoDup (fromkeys_step keys k) /\
  (forall x, In x (fromkeys_step keys k) <-> In x keys \/ x = k) /\
  exists tail, fromkeys_step keys k = keys ++ tail.
Proof.
  intros Hnd. unfold fromkeys_step.
  destruct (existsb (String.eqb k) keys) eqn:E.
  - apply existsb_exists in E. destruct E as (y & Hy & Heq).
    apply String.eqb_eq in Heq. subst y.
    split; [exact Hnd|]. split.
    + intros x. split; [auto|]. intros [H| ->]; assumption.
    + exists []. now rewrite app_nil_r.
  - assert (Hn : ~ In k keys).
    { intros Hin. apply Bool.not_true_iff_false in E. apply E.
      apply existsb_exists. exists k. split; [exact Hin|apply String.eqb_refl]. }
    split; [|split].
    + apply NoDup_app; [exact Hnd | repeat constructor; simpl; tauto |].
      intros x Hx [<-|[]]. contradiction.
    + intros x. rewrite in_app_iff. simpl. intuition.
    + now exists [k].
Qed.

Lemma fold_fromkeys_spec (all_files keys : list string) :
  NoDup keys ->
  NoDup (fold_left fromkeys_step all_files keys) /\
  (forall x, In x (fold_left fromkeys_step all_files keys)
             <-> In x keys \/ In x all_files) /\
  exists tail, fold_left fromkeys_step all_files keys = keys ++ tail.
Proof.
  revert keys. induction all_files as [|k l IH]; intros keys Hnd; cbn [fold_left].
  - split; [exact Hnd|]. split; [simpl; tauto|]. exists []. now rewrite app_nil_r.
  - destruct (fromkeys_step_spec keys k Hnd) as (Hnd' & Hin' & t1 & Ht1).
    destruct (IH _ Hnd') as (Hnd2 & Hin2 & t2 & Ht2).
    split; [exact Hnd2|]. split.
    + intros x. rewrite Hin2, Hin'. simpl. intuition.
    + exists (t1 ++ t2). rewrite Ht2, Ht1. now rewrite app_assoc.
Qed.

Lemma fold_fromkeys_fresh (l keys : list string) :
  NoDup (keys ++ l) -> fold_left fromkeys_step l keys = keys ++ l.
Proof.
  revert keys. induction l as [|k l IH]; intros keys Hnd; cbn [fold_left].
  - now rewrite app_nil_r.
  - assert (Hk : existsb (String.eqb k) keys = false).
    { apply Bool.not_true_iff_false. intros E.
      apply existsb_exists in E. destruct E as (y & Hy & Heq).
      apply String.eqb_eq in Heq. subst y.
      apply NoDup_remove_2 in Hnd. apply Hnd, in_or_app. now left. }
    unfold fromkeys_step at 2. rewrite Hk.
    rewrite IH; rewrite <- app_assoc; [reflexivity|exact Hnd].
Qed.

(** X16: the list of files handed to the batch holds every file found
    once: it has no duplicate, it has the members of the list found, a
    file keeps the place of its first occurrence (what comes before the
    second occurrence of a file is kept as a prefix when it has no
    duplicate itself), and a list without duplicates is left as it
    is. *)
Theorem unique_files_spec (all_files : list string) :
  NoDup (dict_fromkeys all_files) /\
  (forall f, In f (dict_fromkeys all_files) <-> In f all_files) /\
  length (dict_fromkeys all_files) <= length all_files /\
  (forall first rest, all_files = first ++ rest -> NoDup first ->
     exists tail, dict_fromkeys all_files = first ++ tail) /\
  (NoDup all_files -> dict_fromkeys all_files = all_files) /\
  dict_fromkeys (dict_fromkeys all_files) = dict_fromkeys all_files.
Proof.
  unfold dict_fromkeys.
  destruct (fold_fromkeys_spec all_files [] (NoDup_nil _)) as (Hnd & Hin & _).
  assert (Hid : forall l, NoDup l -> fold_left fromkeys_step l [] = l).
  { intros l Hl. now rewrite fold_fromkeys_fresh. }
  split; [exact Hnd|]. split; [|split; [|split; [|split]]].
  - intros f. rewrite Hin. simpl. tauto.
  - apply NoDup_incl_length; [exact Hnd|]. intros x Hx. apply Hin in Hx.
    destruct Hx as [[]|Hx]. exact Hx.
  - intros first rest -> Hf. rewrite fold_left_app, (Hid first Hf).
    destruct (fold_fromkeys_spec rest first Hf) as (_ & _ & tail & Ht).
    now exists tail.
  - apply Hid.
  - apply Hid, Hnd.
Qed.
(** * The extra theorems at concrete inputs *)


Lemma rewriter_frame_witness :
  encode_ascii DEFAULT_TARGET_PATH = Ok DEFAULT_TARGET_PATH /\
  length DEFAULT_TARGET_PATH < 256 /\
  exists r,
    replace_internal_paths sample_subheader DEFAULT_TARGET_PATH = Ok r /\
    total_replacements r = 1 /\
    length (p_data r) = length sample_subheader /\
    firstn 0x36 (p_data r) = firstn 0x36 sample_subheader.
Proof.
  assert (He : encode_ascii DEFAULT_TARGET_PATH = Ok DEFAULT_TARGET_PATH) by reflexivity.
  assert (Hl : length DEFAULT_TARGET_PATH < 256) by (simpl; lia).
  split; [exact He|]. split; [exact Hl|].
  destruct (rewriter_frame sample_subheader DEFAULT_TARGET_PATH DEFAULT_TARGET_PATH He Hl)
    as (r & Hr & Hlen & Hlow & _).
  exists r. split; [exact Hr|]. split; [|split; assumption].
  vm_compute in Hr. injection Hr as <-. reflexivity.
Defined.


Lemma log_unpacks_the_timestamp_witness :
  valid_datetime (mkDatetime 2023 6 15 19 0 11) /\
  (1980 <= year (mkDatetime 2023 6 15 19 0 11))%Z /\
  log_time_fields (dos_time_of (mkDatetime 2023 6 15 19 0 11)) = (19, 0, 10)%Z /\
  log_date_fields (dos_date_of (mkDatetime 2023 6 15 19 0 11)) = (2023, 6, 15)%Z.
Proof.
  assert (Hv : valid_datetime (mkDatetime 2023 6 15 19 0 11))
    by (vm_compute; repeat split; discriminate || reflexivity).
  assert (Hy : (1980 <= year (mkDatetime 2023 6 15 19 0 11))%Z) by (simpl; lia).
  split; [exact Hv|]. split; [exact Hy|].
  exact (log_unpacks_the_timestamp (mkDatetime 2023 6 15 19 0 11) Hv Hy).
Defined.

Lemma header_built_iff_witness :
  valid_datetime sample_mtime /\
  (Z.of_nat (3 * 17) < 2 ^ 16)%Z /\
  exists mod_date,
    datetime_add sample_mtime TIME_OFFSET = Ok mod_date /\
    (1980 <= year mod_date <= 2107)%Z.
Proof.
  assert (Hv : valid_datetime sample_mtime)
    by (vm_compute; repeat split; discriminate || reflexivity).
  split; [exact Hv|].
  apply (proj1 (proj1 (header_built_iff 3 sample_mtime Hv))).
  exists (sample_header 3), 38917%Z, 22223%Z. vm_compute. reflexivity.
Defined.

Lemma header_fixed_fields_witness :
  build_header_dynamically 3 sample_mtime = Ok (sample_header 3, 38917%Z, 22223%Z) /\
  build_header_dynamically 0 (mkDatetime 1999 12 31 23 59 59)
    = Ok (sample_header_1999, 9149%Z, 10273%Z) /\
  length (sample_header 3) = HEADER_SIZE /\
  (forall i, ~ In i variable_offsets ->
     nth_error (sample_header 3) i = nth_error sample_header_1999 i).
Proof.
  assert (Hb : build_header_dynamically 3 sample_mtime
               = Ok (sample_header 3, 38917%Z, 22223%Z)) by (vm_compute; reflexivity).
  assert (Hb' : build_header_dynamically 0 (mkDatetime 1999 12 31 23 59 59)
                = Ok (sample_header_1999, 9149%Z, 10273%Z)) by (vm_compute; reflexivity).
  split; [exact Hb|]. split; [exact Hb'|].
  destruct (header_fixed_fields _ _ _ _ _ _ _ _ _ _ Hb Hb') as (Hl & _ & _ & _ & _ & Hn).
  split; assumption.
Defined.

Lemma pipeline_outcome_witness :
  valid_datetime sample_mtime /\
  process_single_file sample_archive sample_mtime = Ok sample_output /\
  Forall (offset_fits sample_archive) (retained_positions sample_archive) /\
  (Z.of_nat (length (retained_positions sample_archive) * 17) < 2 ^ 16)%Z.
Proof.
  assert (Hv : valid_datetime sample_mtime)
    by (vm_compute; repeat split; discriminate || reflexivity).
  assert (Hr : process_single_file sample_archive sample_mtime = Ok sample_output)
    by (vm_compute; reflexivity).
  split; [exact Hv|]. split; [exact Hr|].
  destruct (proj1 (proj1 (pipeline_outcome sample_archive sample_mtime Hv))
              (ex_intro _ sample_output Hr)) as (Hf & Hc & _).
  split; assumption.
Defined.

Lemma written_file_layout_witness :
  process_single_file sample_archive sample_mtime = Ok sample_output /\
  length sample_output
    = 122 + 17 * length (retained_positions sample_archive)
      + length (cleaned sample_archive) /\
  firstn 4 sample_output = MDMD_SIGNATURE /\
  u16_at sample_output 0x0A = Z.of_nat (length (retained_positions sample_archive)).
Proof.
  assert (Hr : process_single_file sample_archive sample_mtime = Ok sample_output)
    by (vm_compute; reflexivity).
  split; [exact Hr|].
  destruct (written_file_layout sample_archive sample_mtime sample_output Hr)
    as (h & t & d & _ & Hlen & _ & Hsig & Hcount & _).
  repeat split; assumption.
Defined.

Lemma index_records_point_at_blocks_witness :
  process_archive sample_archive
    = Ok (sample_index, cleaned sample_archive, 2, [0; 110]) /\
  build_header_dynamically 2 sample_mtime = Ok (sample_header 2, 38917%Z, 22223%Z) /\
  Forall (fun index_block =>
            occurs_at MDMD_SIGNATURE
              (new_content (sample_header 2) sample_index (cleaned sample_archive))
              (Z.to_nat (offset_field index_block)))
         sample_index.
Proof.
  assert (Hp : process_archive sample_archive
               = Ok (sample_index, cleaned sample_archive, 2, [0; 110]))
    by (vm_compute; reflexivity).
  assert (Hb : build_header_dynamically 2 sample_mtime
               = Ok (sample_header 2, 38917%Z, 22223%Z)) by (vm_compute; reflexivity).
  split; [exact Hp|]. split; [exact Hb|].
  destruct (index_records_point_at_blocks _ _ _ _ _ _ _ _ _ Hp Hb) as (_ & _ & Hf).
  eapply Forall_impl; [|exact Hf]. intros b Hbk. exact (proj1 Hbk).
Defined.

Lemma log_agrees_with_the_file_witness :
  valid_datetime sample_mtime /\
  process_single_file sample_archive sample_mtime = Ok sample_output /\
  exists lg,
    process_single_file_logged sample_archive sample_mtime = Ok (sample_output, lg) /\
    Z.of_nat (number_of_files lg) = u16_at sample_output 0x0A /\
    map original_offset (log_entries lg) = retained_positions sample_archive.
Proof.
  assert (Hv : valid_datetime sample_mtime)
    by (vm_compute; repeat split; discriminate || reflexivity).
  assert (Hr : process_single_file sample_archive sample_mtime = Ok sample_output)
    by (vm_compute; reflexivity).
  split; [exact Hv|]. split; [exact Hr|].
  destruct (log_agrees_with_the_file sample_archive sample_mtime sample_output Hv Hr)
    as (lg & md & Hl & _ & Hn & _ & _ & _ & _ & _ & _ & Ho & _).
  exists lg. repeat split; assumption.
Defined.

Lemma output_names_are_distinct_witness :
  is_suffix ".CRS" /\
  filename_of (returned (patched_path "courses/PEBBLE.CRS" "PEBBLE" ".CRS"
                           (Some "courses/patched"%string)))
    = Some "PEBBLE_patched.CRS"%string /\
  filename_of (returned (log_path "courses/PEBBLE.CRS" "PEBBLE" ".CRS"
                           (Some "courses/patched/logs"%string)))
    = Some "PEBBLE_patched_log.txt"%string.
Proof.
  assert (Hs : is_suffix ".CRS") by (right; exists "CRS"%string; reflexivity).
  split; [exact Hs|].
  destruct (output_names_are_distinct "courses/PEBBLE.CRS" "PEBBLE" ".CRS"
              (Some "courses/patched"%string) (Some "courses/patched/logs"%string) Hs)
    as (Hp & Hl & _).
  split; assumption.
Defined.

Lemma absent_signature_witness :
  process_archive (list_byte_of_string "not an archive") =
    Ok ([], list_byte_of_string "not an archive", 0, []) /\
  exists out,
    process_single_file (list_byte_of_string "not an archive") sample_mtime = Ok out /\
    length out = 122 + 14.
Proof.
  destruct (absent_signature_is_not_fatal (list_byte_of_string "not an archive")
              sample_mtime)
    as (Hp & _ & Hh & _).
  - intros i Hi. apply find_all_In in Hi. exact Hi.
  - split; [exact Hp|].
    destruct (Hh (mkDatetime 2023 6 15 19 0 10))
      as (header & t & d & _ & _ & _ & _ & _ & out & Hout & Hlen).
    + vm_compute; repeat split; discriminate || reflexivity.
    + reflexivity.
    + vm_compute; split; discriminate || reflexivity.
    + exists out. split; [exact Hout|exact Hlen].
Defined.

(** C9, counterexample to the claim as worded: a buffer without
    signature whose file was last modified on 1970-01-01 gets its empty
    index, but no header: the corrected year 1970 is before 1980, the
    packed date is negative and [to_bytes] raises. *)
Lemma absent_signature_fails_before_1980 :
  valid_datetime (mkDatetime 1970 1 1 0 0 0) /\
  find_all_mdmd_patterns (list_byte_of_string "not an archive") = [] /\
  process_archive (list_byte_of_string "not an archive") =
    Ok ([], list_byte_of_string "not an archive", 0, []) /\
  datetime_add (mkDatetime 1970 1 1 0 0 0) TIME_OFFSET = Ok (mkDatetime 1970 1 1 4 30 0) /\
  dos_date_of (mkDatetime 1970 1 1 4 30 0) = (-5087)%Z /\
  build_header_dynamically 0 (mkDatetime 1970 1 1 0 0 0) = Raise OverflowError /\
  process_single_file (list_byte_of_string "not an archive") (mkDatetime 1970 1 1 0 0 0)
    = Raise OverflowError.
Proof.
  split; [vm_compute; repeat split; discriminate || reflexivity|].
  repeat split; vm_compute; reflexivity.
Qed.
